(** * PaperWhisperer: the retrieval-orchestration agent

    A shallow embedding of [app/services/agent_service.py] and of the
    retrieval entry points of [app/services/vectorization_service.py],
    with the properties of the agent loop proved over it.

    Conventions.
    - A Python [str] is a list of Unicode code points ([pystr]); the
      literals of the source are written with [u "..."], which decodes the
      UTF-8 text of the literal.
    - Coroutines run to completion: [await] is sequencing, and the events an
      async generator yields are appended, in order, to the [events] of the
      state.
    - External capabilities (text generation, embedding, Milvus, the parsed
      paper store, uuid4, the clock) are oracles over an abstract [World];
      library behaviour ([json.loads], pydantic validation, [str.lower],
      [list.sort], float formatting, the prompt templates) and the settings
      are parameters.
    - Temperatures are rationals and scores are rationals or NaN: the code
      compares, sorts and formats them, and computes nothing with them.
    - The hits of a search are dicts with values of the types of the
      collection; a hit with a value of another type is outside the model.
    - The state also records the calls the agent makes ([calls]); the code
      keeps no such record, the statements about the number and the order
      of calls are made on it. *)

From Stdlib Require Import QArith_base.
From stdpp Require Import gmap strings list pretty sorting.

Set Default Proof Using "Type".
Local Set Warnings "-register-all,-clear-no-such-hyp".
Local Open Scope Z_scope.

(** ** Python strings *)

Module PyStr.

Definition pystr : Type := list N.

Fixpoint utf8_go (bs : list N) (pending : nat) (acc : N) : list N :=
  match bs with
  | [] => []
  | b :: bs' =>
      match pending with
      | O =>
          if (b <? 128)%N then b :: utf8_go bs' 0 0%N
          else if (b <? 224)%N then utf8_go bs' 1 (b - 192)%N
          else if (b <? 240)%N then utf8_go bs' 2 (b - 224)%N
          else utf8_go bs' 3 (b - 240)%N
      | S p =>
          let acc' := (acc * 64 + (b - 128))%N in
          match p with
          | O => acc' :: utf8_go bs' 0 0%N
          | S _ => utf8_go bs' p acc'
          end
      end
  end.

(** [u "text"]: the Python literal ["text"]. *)
Definition u (s : string) : pystr :=
  utf8_go (map Ascii.N_of_ascii (String.list_ascii_of_string s)) 0 0%N.

Global Arguments u : simpl never.

(** [str.isspace] on one code point. *)
Definition isspace (c : N) : bool :=
  ((9 <=? c) && (c <=? 13) || (28 <=? c) && (c <=? 32) || (c =? 133)
   || (c =? 160) || (c =? 5760) || (8192 <=? c) && (c <=? 8202)
   || (c =? 8232) || (c =? 8233) || (c =? 8239) || (c =? 8287)
   || (c =? 12288))%N.

Fixpoint lstrip (s : pystr) : pystr :=
  match s with
  | c :: s' => if isspace c then lstrip s' else s
  | [] => []
  end.

Definition rstrip (s : pystr) : pystr := reverse (lstrip (reverse s)).

(** [s.strip()] *)
Definition strip (s : pystr) : pystr := rstrip (lstrip s).

(** [s.startswith(p)] *)
Fixpoint startswith (p s : pystr) : bool :=
  match p, s with
  | [], _ => true
  | a :: p', b :: s' => (a =? b)%N && startswith p' s'
  | _ :: _, [] => false
  end.

(** [s.split('\n')] *)
Fixpoint split_nl (s : pystr) : list pystr :=
  match s with
  | [] => [[]]
  | c :: s' =>
      if (c =? 10)%N then [] :: split_nl s'
      else match split_nl s' with
           | seg :: r => (c :: seg) :: r
           | [] => [[c]]
           end
  end.

(** [sep.join(l)] *)
Fixpoint join (sep : pystr) (l : list pystr) : pystr :=
  match l with
  | [] => []
  | [x] => x
  | x :: r => x ++ sep ++ join sep r
  end.

(** [sub in s] for strings *)
Fixpoint contains (sub s : pystr) : bool :=
  startswith sub s ||
  match s with
  | [] => false
  | _ :: s' => contains sub s'
  end.

(** [str(n)] for an int *)
Definition str_of_Z (n : Z) : pystr := u (pretty n).

(** [l[-n:]] for a positive literal [n] *)
Definition lastn {A} (n : nat) (l : list A) : list A :=
  drop (length l - n)%nat l.

(** [l[:n]] for an int [n] that may be negative *)
Definition slice_to {A} (n : Z) (l : list A) : list A :=
  if 0 <=? n then take (Z.to_nat n) l
  else take (length l - Z.to_nat (- n))%nat l.

(** [bool(s)] for a string *)
Definition nonempty (s : pystr) : bool :=
  match s with [] => false | _ :: _ => true end.

End PyStr.
Import PyStr.

(** ** Values decoded by [json.loads] *)

Inductive Json : Type :=
  | JNull
  | JBool (b : bool)
  | JInt (z : Z)
  | JFloat (q : Q)
  | JStr (s : pystr)
  | JArr (l : list Json)
  | JObj (kvs : list (pystr * Json)).

(** [d.get(k)] on a dict kept as its item list *)
Fixpoint dict_get (kvs : list (pystr * Json)) (k : pystr) : option Json :=
  match kvs with
  | [] => None
  | (k', v) :: r => if decide (k' = k) then Some v else dict_get r k
  end.

(** ** Exceptions and outcomes *)

Inductive ExcClass := JSONDecodeError | OtherException.

(** A raised [Exception]: its class, as far as the handlers of the agent
    tell classes apart, and [str(e)]. *)
Record exn := Exn { exc_class : ExcClass; exc_str : pystr }.

(** The result of running a computation: a value, a raised exception, or
    [OutOfFuel] when a loop of the model was given too few iterations (no
    execution of the program corresponds to it). *)
Inductive Outcome (A : Type) : Type :=
  | Ok (a : A)
  | Raise (e : exn)
  | OutOfFuel.
Arguments Ok {A} a.
Arguments Raise {A} e.
Arguments OutOfFuel {A}.

(** The result of code that calls no capability and has no loop of its own:
    a value or a raised exception. *)
Inductive Result (A : Type) : Type :=
  | Returned (a : A)
  | Raised (e : exn).
Arguments Returned {A} a.
Arguments Raised {A} e.

Global Instance Result_ret : MRet Result := λ A a, Returned a.
Global Instance Result_bind : MBind Result := λ A B f r,
  match r with
  | Returned a => f a
  | Raised e => Raised e
  end.

(** ** Data model ([app/models/schemas.py]) *)

Inductive IntentCategory :=
  | CONTRIBUTION | METHOD | EXPERIMENT | COMPARISON | MOTIVATION
  | IMPLEMENTATION | GENERAL.

Definition IntentCategory_value (c : IntentCategory) : pystr :=
  match c with
  | CONTRIBUTION => u "contribution"
  | METHOD => u "method"
  | EXPERIMENT => u "experiment"
  | COMPARISON => u "comparison"
  | MOTIVATION => u "motivation"
  | IMPLEMENTATION => u "implementation"
  | GENERAL => u "general"
  end.

Definition all_categories : list IntentCategory :=
  [CONTRIBUTION; METHOD; EXPERIMENT; COMPARISON; MOTIVATION; IMPLEMENTATION;
   GENERAL].

(** [IntentCategory(s)]: [None] stands for the [ValueError]. *)
Definition IntentCategory_of (s : pystr) : option IntentCategory :=
  list_find (λ c, IntentCategory_value c = s) all_categories ≫= λ p, Some p.2.

Record IntentAnalysisResult := {
  category : IntentCategory;
  target_sections : list pystr;
  keywords : list pystr;
  intent_reasoning : pystr
}.

Record CompletenessEvaluation := {
  is_sufficient : bool;
  missing_info : option pystr;
  suggested_keywords : list pystr;
  eval_reasoning : pystr
}.

(** A Python float, as far as the code tells floats apart: a number, kept
    in lowest terms so that equal floats are equal values, or NaN (the
    infinities, which are ordered like numbers, are left out). *)
Inductive pyfloat := Num (q : Q) | NaN.

(** [a <= b] on floats: false as soon as one of them is NaN. *)
Definition float_le (a b : pyfloat) : Prop :=
  match a, b with
  | Num x, Num y => Qle x y
  | _, _ => False
  end.

Definition float_le_bool (a b : pyfloat) : bool :=
  match a, b with
  | Num x, Num y => Qle_bool x y
  | _, _ => false
  end.

(** One hit of the vector search: a dict with the keys [chunk_id], [text],
    [metadata] (holding [section_title]) and [score]; [None] is a missing
    key (for [chunk_id] also the value [None], which [.get] does not tell
    apart).  A key that is present holds a value of the type the collection
    gives it: strings for [chunk_id], [text] and [section_title], a dict for
    [metadata], a float for [score]; a hit with a value of another type
    under one of these keys, or with further keys, is outside the model. *)
Record SearchResult := {
  chunk_id : option pystr;
  text : option pystr;
  metadata : option (option pystr);
  score : option pyfloat
}.

(** [x.get("score", 0)] *)
Definition score_key (x : SearchResult) : pyfloat :=
  default (Num (0 # 1)) (score x).

(** Larger scores first. *)
Definition by_score_desc (a b : SearchResult) : Prop :=
  float_le (score_key b) (score_key a).

(** An entry of the payload of the [sources] event. *)
Record SourceEntry := {
  src_chunk_id : option pystr;
  src_section : pystr;
  src_score : pyfloat;
  src_text_preview : pystr
}.

Inductive Content :=
  | CStr (s : pystr)
  | CBool (b : bool)
  | CSources (l : list SourceEntry).

Record AgentStreamEvent := { type : pystr; content : Content }.

Record ChatMessage := {
  role : pystr;
  msg_content : pystr;
  timestamp : Z
}.

Record ChatHistory := {
  h_session_id : pystr;
  h_paper_id : pystr;
  messages : list ChatMessage;
  h_created_at : Z
}.

(** The parsed paper as [FileManager.load_parsed_content] returns it, as far
    as the agent reads it: the [sections] key, when present, and the
    [title] of each section, when present. *)
Record ParsedPaper := { sections : option (list (option pystr)) }.

(** A request to [llm_factory.chat]. *)
Record ChatRequest := {
  req_messages : list (pystr * pystr);
  req_provider : option pystr;
  req_temperature : Q;
  req_max_tokens : option Z;
  req_stream : bool
}.

(** What a streaming answer delivers: the increments, and the exception
    that ends the stream early, if any. *)
Record StreamReply := { chunks : list pystr; failure : option exn }.

(** [type(v).__name__] *)
Definition type_name (v : Json) : pystr :=
  match v with
  | JNull => u "NoneType"
  | JBool _ => u "bool"
  | JInt _ => u "int"
  | JFloat _ => u "float"
  | JStr _ => u "str"
  | JArr _ => u "list"
  | JObj _ => u "dict"
  end.

Definition AttributeError (v : Json) (attr : pystr) : exn :=
  Exn OtherException
    (u "'" ++ type_name v ++ u "' object has no attribute '" ++ attr ++ u "'").

Definition KeyError (key : pystr) : exn :=
  Exn OtherException (u "'" ++ key ++ u "'").

Definition UnboundLocalError (name : pystr) : exn :=
  Exn OtherException
    (u "cannot access local variable '" ++ name
       ++ u "' where it is not associated with a value").

Global Instance Q_eq_dec : EqDecision Q.
Proof. solve_decision. Defined.
Global Instance pyfloat_eq_dec : EqDecision pyfloat.
Proof. solve_decision. Defined.
Global Instance SearchResult_eq_dec : EqDecision SearchResult.
Proof. solve_decision. Defined.
Global Instance SourceEntry_eq_dec : EqDecision SourceEntry.
Proof. solve_decision. Defined.
Global Instance Content_eq_dec : EqDecision Content.
Proof. solve_decision. Defined.
Global Instance AgentStreamEvent_eq_dec : EqDecision AgentStreamEvent.
Proof. solve_decision. Defined.

(** ** What the code takes from outside *)

(** The configuration ([app.config.settings]). *)
Class Settings := {
  agent_max_retrieval_rounds : Z;
  agent_intent_temperature : Q;
  agent_evaluation_temperature : Q;
  top_k_retrieval : Z
}.

(** Library behaviour the agent relies on: [json.loads], which returns the
    decoded value or raises, a [JSONDecodeError] on text that is not JSON
    and another exception on text it gives up on ([RecursionError] on deep
    nesting, [ValueError] on an integer of too many digits); [str.lower];
    the [:.3f] format; [list.sort] by score, largest first, which always
    permutes the list and leaves it sorted when no key is NaN; [str.format]
    on the three prompt templates; and pydantic's validation of the fields
    that are filled from decoded JSON ([None] is a [ValidationError]).  A
    value that already has the type of its field is accepted as it is. *)
Class Runtime := {
  json_loads : pystr → Result Json;
  str_lower : pystr → pystr;
  format_3f : pyfloat → pystr;
  (** [l.sort(key=lambda x: x.get("score", 0), reverse=True)] *)
  sort_by_score_reverse : list SearchResult → list SearchResult;
  INTENT_ANALYSIS_PROMPT_format : pystr → pystr → pystr → pystr;
  EVALUATION_PROMPT_format : pystr → pystr → pystr;
  ANSWER_PROMPT_format : pystr → pystr → pystr;
  validate_bool : Json → option bool;
  validate_str : Json → option pystr;
  validate_optional_str : Json → option (option pystr);
  validate_list_str : Json → option (list pystr);
  ValidationError_str : pystr;
  validate_bool_JBool b : validate_bool (JBool b) = Some b;
  validate_str_JStr s : validate_str (JStr s) = Some s;
  validate_optional_str_JNull : validate_optional_str JNull = Some None;
  validate_optional_str_JStr s : validate_optional_str (JStr s) = Some (Some s);
  validate_list_str_JArr l :
    validate_list_str (JArr (JStr <$> l)) = Some l;
  sort_by_score_reverse_perm l : sort_by_score_reverse l ≡ₚ l;
  sort_by_score_reverse_sorted l :
    Forall (λ x, score_key x ≠ NaN) l →
    Sorted by_score_desc (sort_by_score_reverse l)
}.

(** The capabilities the agent calls, as transitions of the outside world. *)
Class Capabilities (World : Type) := {
  (** [llm_factory.chat(..., stream=False)] *)
  llm_chat : ChatRequest → World → Result pystr * World;
  (** [llm_factory.chat(..., stream=True)] and the iteration over the
      generator it returns *)
  llm_chat_stream : ChatRequest → World → Result StreamReply * World;
  (** [create_embedding_service(provider, model).embed_text(text)] *)
  embed_text :
    option pystr → option pystr → pystr → World → Result (list Q) * World;
  (** [milvus_service.search(query_embedding, top_k, paper_id)] *)
  milvus_search :
    list Q → Z → option pystr → World → Result (list SearchResult) * World;
  (** [FileManager.load_parsed_content(paper_id)] *)
  load_parsed_content : pystr → World → Result (option ParsedPaper) * World;
  (** [str(uuid.uuid4())] *)
  uuid4 : World → pystr * World;
  (** [datetime.now()] *)
  datetime_now : World → Z * World
}.

(** ** The calls the agent makes, recorded for the statements about them *)

Inductive Call :=
  | IntentCall
  | SearchCall (keyword : pystr)
  | EvaluateCall (verdict : option CompletenessEvaluation)
  | SynthesisCall.

(** ** State and the monad of the embedding *)

Section Agent.

Context {World : Type} `{!Capabilities World} `{!Runtime} `{!Settings}.

Record State := {
  world : World;
  (** [AgentOrchestrator.sessions]; a [ChatHistory] object is reached
      through its key, so that a mutation through the local [session] of
      [chat_stream] is a mutation of the stored object. *)
  sessions : gmap pystr ChatHistory;
  (** the events yielded so far, oldest first *)
  events : list AgentStreamEvent;
  (** the calls made so far, oldest first *)
  calls : list Call
}.

Definition M (A : Type) : Type := State → Outcome A * State.

Definition run {A} (m : M A) (s : State) : Outcome A * State := m s.

Global Instance M_ret : MRet M := λ A a s, (Ok a, s).

Global Instance M_bind : MBind M := λ A B f m s,
  match m s with
  | (Ok a, s') => f a s'
  | (Raise e, s') => (Raise e, s')
  | (OutOfFuel, s') => (OutOfFuel, s')
  end.

Definition raise {A} (e : exn) : M A := λ s, (Raise e, s).

Definition out_of_fuel {A} : M A := λ s, (OutOfFuel, s).

(** [try: m  except Exception as e: h e] *)
Definition catch {A} (m : M A) (h : exn → M A) : M A := λ s,
  match m s with
  | (Raise e, s') => h e s'
  | r => r
  end.

(** Runs [m] and hands back what it raised instead of raising it. *)
Definition attempt {A} (m : M A) : M (Result A) :=
  catch (a ← m; mret (Returned a)) (λ e, mret (Raised e)).

(** The value of a result, or its exception raised. *)
Definition reraise {A} (r : Result A) : M A :=
  match r with Raised e => raise e | Returned a => mret a end.

(** [yield ev] *)
Definition yield_ (ev : AgentStreamEvent) : M unit := λ s,
  (Ok (), {| world := world s; sessions := sessions s;
             events := events s ++ [ev]; calls := calls s |}).

Definition record_call (c : Call) : M unit := λ s,
  (Ok (), {| world := world s; sessions := sessions s;
             events := events s; calls := calls s ++ [c] |}).

(** A call to a capability. *)
Definition ask {A} (f : World → Result A * World) : M A := λ s,
  let '(r, w) := f (world s) in
  (match r with Returned a => Ok a | Raised e => Raise e end,
   {| world := w; sessions := sessions s;
      events := events s; calls := calls s |}).

Definition ask_total {A} (f : World → A * World) : M A :=
  ask (λ w, let '(a, w') := f w in (Returned a, w')).

Definition get_sessions : M (gmap pystr ChatHistory) := λ s, (Ok (sessions s), s).

Definition set_sessions (m : gmap pystr ChatHistory) : M unit := λ s,
  (Ok (), {| world := world s; sessions := m;
             events := events s; calls := calls s |}).

(** ** [app/services/vectorization_service.py] *)

(** One iteration of the id-based deduplication loops (lines 198-202 of
    [vectorization_service.py], lines 307-311 of [agent_service.py]):
    [chunk_id = result.get("chunk_id")], then, when [chunk_id] is truthy and
    not in [seen_chunks], [seen_chunks.add(chunk_id)] and the result is
    appended. *)
Definition dedup_step (st : gset pystr * list SearchResult)
    (result : SearchResult) : gset pystr * list SearchResult :=
  let '(seen_chunks, kept) := st in
  match chunk_id result with
  | Some cid =>
      if nonempty cid && bool_decide (cid ∉ seen_chunks)
      then ({[cid]} ∪ seen_chunks, kept ++ [result])
      else st
  | None => st
  end.

(** [section_filter] as a list: [None] and [[]] are both falsy *)
Definition filter_given (section_filter : option (list pystr)) : list pystr :=
  default [] section_filter.

Definition section_matches (section_filter_lower : list pystr)
    (result : SearchResult) : bool :=
  let section_title :=
    str_lower (default [] (default None (metadata result))) in
  existsb (λ filter_term,
             contains filter_term section_title
             || contains section_title filter_term)
          section_filter_lower.

(** The first loop over [results] of the section filter. *)
Fixpoint filter_sections (section_filter_lower : list pystr) (top_k : Z)
    (results filtered_results : list SearchResult) : list SearchResult :=
  match results with
  | [] => filtered_results
  | result :: rest =>
      let filtered_results :=
        if section_matches section_filter_lower result
        then filtered_results ++ [result] else filtered_results in
      if top_k <=? Z.of_nat (length filtered_results) then filtered_results
      else filter_sections section_filter_lower top_k rest filtered_results
  end.

(** The second loop, which tops the filtered results up.  [result not in
    filtered_results] is equality of dicts, here of the keys a
    [SearchResult] has. *)
Fixpoint fill_unfiltered (top_k : Z)
    (results filtered_results : list SearchResult) : list SearchResult :=
  match results with
  | [] => filtered_results
  | result :: rest =>
      if bool_decide (result ∈ filtered_results)
      then fill_unfiltered top_k rest filtered_results
      else
        let filtered_results := filtered_results ++ [result] in
        if top_k <=? Z.of_nat (length filtered_results) then filtered_results
        else fill_unfiltered top_k rest filtered_results
  end.

(** [VectorizationService.search_similar_chunks] (lines 92-160). *)
Definition search_similar_chunks (query_text : pystr)
    (paper_id : option pystr) (top_k : Z)
    (section_filter : option (list pystr))
    (embedding_provider embedding_model : option pystr)
    : M (list SearchResult) :=
  record_call (SearchCall query_text);;
  query_embedding ←
    ask (embed_text embedding_provider embedding_model query_text);
  let search_top_k :=
    match filter_given section_filter with
    | [] => top_k
    | _ :: _ => top_k * 2
    end in
  results ← ask (milvus_search query_embedding search_top_k paper_id);
  match filter_given section_filter, results with
  | _ :: _, _ :: _ =>
      let section_filter_lower := str_lower <$> filter_given section_filter in
      let filtered_results :=
        filter_sections section_filter_lower top_k results [] in
      let filtered_results :=
        if Z.of_nat (length filtered_results) <? top_k
        then fill_unfiltered top_k results filtered_results
        else filtered_results in
      mret (slice_to top_k filtered_results)
  | _, _ => mret (slice_to top_k results)
  end.

(** The loop of [search_multi_keywords] over the keywords (lines 188-202);
    [st] is [(seen_chunks, all_results)]. *)
Fixpoint search_keywords_loop (keywords : list pystr)
    (paper_id : option pystr) (top_k : Z)
    (section_filter : option (list pystr))
    (embedding_provider embedding_model : option pystr)
    (st : gset pystr * list SearchResult)
    : M (gset pystr * list SearchResult) :=
  match keywords with
  | [] => mret st
  | keyword :: rest =>
      results ← search_similar_chunks keyword paper_id top_k section_filter
                  embedding_provider embedding_model;
      search_keywords_loop rest paper_id top_k section_filter
        embedding_provider embedding_model (foldl dedup_step st results)
  end.

(** [VectorizationService.search_multi_keywords] (lines 162-208). *)
Definition search_multi_keywords (keywords : list pystr)
    (paper_id : option pystr) (top_k : Z)
    (section_filter : option (list pystr))
    (embedding_provider embedding_model : option pystr)
    : M (list SearchResult) :=
  st ← search_keywords_loop keywords paper_id top_k section_filter
         embedding_provider embedding_model (∅, []);
  mret (sort_by_score_reverse st.2).

(** ** [app/services/agent_service.py] *)

Definition nl : pystr := [10%N].

(** The cleaning of a model reply that [analyze] (lines 120-124) and
    [evaluate] (lines 223-227) both do before [json.loads]: strip, and drop
    a surrounding code fence. *)
Definition strip_code_fence (result : pystr) : pystr :=
  let result := strip result in
  if startswith (u "```") result then
    let lines := split_nl result in
    let body :=
      if bool_decide (strip (default [] (last lines)) = u "```")
      then removelast (tail lines) else tail lines in
    strip (join nl body)
  else result.

(** [d.get(key, dflt)] on a dict *)
Definition get_default (kvs : list (pystr * Json)) (key : pystr)
    (dflt : Json) : Json :=
  default dflt (dict_get kvs key).

Definition ValidationError : exn := Exn OtherException ValidationError_str.

(** *** IntentAnalyzer *)

Definition format_history_line (msg : ChatMessage) : pystr :=
  let role_ := if decide (role msg = u "user") then u "用户" else u "助手" in
  role_ ++ u ": " ++ take 200 (msg_content msg) ++ u "...".

Definition intent_request (question : pystr) (section_titles : list pystr)
    (conversation_history : list ChatMessage) (provider : option pystr)
    : ChatRequest :=
  let section_titles_str :=
    match section_titles with
    | [] => u "（未提供章节结构）"
    | _ :: _ => join nl ((λ title, u "- " ++ title) <$> section_titles)
    end in
  let history_str :=
    match conversation_history with
    | [] => u "（无历史对话）"
    | _ :: _ => join nl (format_history_line <$> lastn 6 conversation_history)
    end in
  let prompt :=
    INTENT_ANALYSIS_PROMPT_format section_titles_str history_str question in
  {| req_messages :=
       [(u "system", u "你是专业的学术论文分析专家。请始终返回有效的 JSON 格式。");
        (u "user", prompt)];
     req_provider := provider;
     req_temperature := agent_intent_temperature;
     req_max_tokens := Some 800;
     req_stream := false |}.

(** The construction of the result from the decoded reply. *)
Definition intent_of_parsed (parsed : Json) : Result IntentAnalysisResult :=
  match parsed with
  | JObj kvs =>
      match get_default kvs (u "category") (JStr (u "general")) with
      | JStr category_str =>
          let category :=
            default GENERAL (IntentCategory_of (str_lower category_str)) in
          match validate_list_str
                  (get_default kvs (u "target_sections") (JArr [])),
                validate_list_str (get_default kvs (u "keywords") (JArr [])),
                validate_str (get_default kvs (u "reasoning") (JStr (u "")))
          with
          | Some ts, Some ks, Some rs =>
              Returned {| category := category; target_sections := ts;
                          keywords := ks; intent_reasoning := rs |}
          | _, _, _ => Raised ValidationError
          end
      | v => Raised (AttributeError v (u "lower"))
      end
  | _ => Raised (AttributeError parsed (u "get"))
  end.

(** [IntentAnalyzer.analyze] (lines 69-153); a [conversation_history] of
    [None] is the empty list. *)
Definition analyze (question : pystr) (section_titles : list pystr)
    (conversation_history : list ChatMessage) (provider : option pystr)
    : M IntentAnalysisResult :=
  r ← attempt (ask (llm_chat (intent_request question section_titles
                                conversation_history provider)));
  match r with
  | Returned result =>
      match json_loads (strip_code_fence result) with
      | Returned parsed => reraise (intent_of_parsed parsed)
      | Raised e =>
          match exc_class e with
          | JSONDecodeError =>
              mret {| category := GENERAL;
                      target_sections := [];
                      keywords := [take 50 question];
                      intent_reasoning := u "解析失败，使用默认设置" |}
          | OtherException => raise e
          end
      end
  | Raised e =>
      match exc_class e with
      | JSONDecodeError =>
          (* the handler formats [result[:200]], which is not bound yet *)
          raise (UnboundLocalError (u "result"))
      | OtherException => raise e
      end
  end.

(** *** CompletenessEvaluator *)

Definition evaluation_request (question retrieved_content : pystr)
    (provider : option pystr) : ChatRequest :=
  let prompt :=
    EVALUATION_PROMPT_format question (take 4000 retrieved_content) in
  {| req_messages :=
       [(u "system", u "你是专业的信息完备性评估专家。请始终返回有效的 JSON 格式。");
        (u "user", prompt)];
     req_provider := provider;
     req_temperature := agent_evaluation_temperature;
     req_max_tokens := Some 500;
     req_stream := false |}.

Definition evaluation_of_parsed (parsed : Json)
    : Result CompletenessEvaluation :=
  match parsed with
  | JObj kvs =>
      match validate_bool (get_default kvs (u "is_sufficient") (JBool true)),
            validate_optional_str (get_default kvs (u "missing_info") JNull),
            validate_list_str
              (get_default kvs (u "suggested_keywords") (JArr [])),
            validate_str (get_default kvs (u "reasoning") (JStr (u "")))
      with
      | Some suff, Some mi, Some ks, Some rs =>
          Returned {| is_sufficient := suff; missing_info := mi;
                      suggested_keywords := ks; eval_reasoning := rs |}
      | _, _, _, _ => Raised ValidationError
      end
  | _ => Raised (AttributeError parsed (u "get"))
  end.

Definition evaluation_parse_failure_default : CompletenessEvaluation :=
  {| is_sufficient := true;
     missing_info := None;
     suggested_keywords := [];
     eval_reasoning := u "解析失败，默认信息充足" |}.

(** [CompletenessEvaluator.evaluate] (lines 187-249). *)
Definition evaluate (question retrieved_content : pystr)
    (provider : option pystr) : M CompletenessEvaluation :=
  r ← attempt (ask (llm_chat (evaluation_request question retrieved_content
                                provider)));
  match r with
  | Returned result =>
      match json_loads (strip_code_fence result) with
      | Returned parsed => reraise (evaluation_of_parsed parsed)
      | Raised e =>
          match exc_class e with
          | JSONDecodeError => mret evaluation_parse_failure_default
          | OtherException => raise e
          end
      end
  | Raised e =>
      match exc_class e with
      | JSONDecodeError => mret evaluation_parse_failure_default
      | OtherException => raise e
      end
  end.

(** *** AgentOrchestrator *)

Definition max_retrieval_rounds : Z := agent_max_retrieval_rounds.

Definition create_session (paper_id : pystr) : M pystr :=
  session_id ← ask_total uuid4;
  now ← ask_total datetime_now;
  sessions ← get_sessions;
  set_sessions (<[session_id :=
                    {| h_session_id := session_id; h_paper_id := paper_id;
                       messages := []; h_created_at := now |}]> sessions);;
  mret session_id.

Definition get_session (session_id : pystr) : M (option ChatHistory) :=
  sessions ← get_sessions;
  mret (sessions !! session_id).

(** A mutation of the [ChatHistory] object of a session. *)
Definition update_session (session_id : pystr)
    (f : ChatHistory → ChatHistory) : M unit :=
  sessions ← get_sessions;
  set_sessions (alter f session_id sessions).

Definition set_messages (f : list ChatMessage → list ChatMessage)
    (h : ChatHistory) : ChatHistory :=
  {| h_session_id := h_session_id h; h_paper_id := h_paper_id h;
     messages := f (messages h); h_created_at := h_created_at h |}.

Fixpoint format_context_parts (i : Z) (search_results : list SearchResult)
    : Result (list pystr) :=
  match search_results with
  | [] => Returned []
  | result :: rest =>
      match text result, metadata result, score result with
      | Some text_, Some metadata_, Some score_ =>
          let section := default (u "未知章节") metadata_ in
          let part :=
            u "[片段 " ++ str_of_Z i ++ u "] (章节: " ++ section
              ++ u ", 相关度: " ++ format_3f score_ ++ u ")" ++ nl
              ++ text_ ++ nl in
          parts ← format_context_parts (i + 1) rest;
          Returned (part :: parts)
      | None, _, _ => Raised (KeyError (u "text"))
      | _, None, _ => Raised (KeyError (u "metadata"))
      | _, _, None => Raised (KeyError (u "score"))
      end
  end.

Definition _format_context (search_results : list SearchResult)
    : Result pystr :=
  context_parts ← format_context_parts 1 search_results;
  Returned (join (nl ++ u "---" ++ nl ++ nl) context_parts).

Definition _deduplicate_results (all_results : list SearchResult)
    : list SearchResult :=
  (foldl dedup_step (∅, []) all_results).2.

Definition section_titles_of (paper_data : option ParsedPaper) : list pystr :=
  match paper_data with
  | Some {| sections := Some sections_ |} =>
      omap (λ title, match title with
                     | Some t => if nonempty t then Some t else None
                     | None => None
                     end) sections_
  | _ => []
  end.

Definition _get_section_titles (paper_id : pystr) : M (list pystr) :=
  catch (paper_data ← ask (load_parsed_content paper_id);
         mret (section_titles_of paper_data))
        (λ _, mret []).

(** The events of the stream. *)
Definition event (type_ : pystr) (content_ : pystr) : AgentStreamEvent :=
  {| type := type_; content := CStr content_ |}.

Definition done_event : AgentStreamEvent :=
  {| type := u "done"; content := CBool true |}.

Definition sources_event (l : list SourceEntry) : AgentStreamEvent :=
  {| type := u "sources"; content := CSources l |}.

(** The variables of the retrieval loop of [chat_stream];
    [evaluation_result] is unbound until the first evaluation. *)
Record LoopVars := {
  all_results : list SearchResult;
  current_round : Z;
  loop_is_sufficient : bool;
  evaluation_result : option CompletenessEvaluation
}.

Inductive LoopStep := Break (v : LoopVars) | Continue (v : LoopVars).

(** [for keyword in ...: results = await ...; all_results.extend(results)]
    (lines 394-400); [round_body] passes [search_keywords[:3]]. *)
Fixpoint retrieve_keywords (search_keywords : list pystr) (paper_id : pystr)
    (all_results : list SearchResult) : M (list SearchResult) :=
  match search_keywords with
  | [] => mret all_results
  | keyword :: rest =>
      results ← search_similar_chunks keyword (Some paper_id) top_k_retrieval
                  None None None;
      retrieve_keywords rest paper_id (all_results ++ results)
  end.

Definition comma_join (l : list pystr) : pystr := join (u ", ") l.

(** [str(x)] for an [Optional[str]] *)
Definition str_of_optional (x : option pystr) : pystr := default (u "None") x.

(** The keywords of a round: those of the intent in round 1, afterwards
    [evaluation_result.suggested_keywords or [question]]. *)
Definition round_keywords (question : pystr)
    (intent_result : IntentAnalysisResult) (current_round : Z)
    (evaluation_result : option CompletenessEvaluation)
    : Result (list pystr) :=
  if current_round =? 1 then Returned (keywords intent_result)
  else match evaluation_result with
       | Some evaluation_result =>
           Returned (match suggested_keywords evaluation_result with
                     | [] => [question]
                     | ks => ks
                     end)
       | None => Raised (UnboundLocalError (u "evaluation_result"))
       end.

Definition round_header (current_round : Z) (search_keywords : list pystr)
    : AgentStreamEvent :=
  event (u "retrieval")
    (u "第 " ++ str_of_Z current_round ++ u " 轮检索 (关键词: "
       ++ comma_join search_keywords ++ u ")").

Definition found_event (all_results : list SearchResult) : AgentStreamEvent :=
  event (u "retrieval")
    (u "检索到 " ++ str_of_Z (Z.of_nat (length all_results))
       ++ u " 个相关片段").

Definition nothing_found_event : AgentStreamEvent :=
  event (u "evaluation") (u "未检索到相关内容").

(** One iteration of the [while] loop (lines 379-444). *)
Definition round_body (paper_id question : pystr) (provider : option pystr)
    (intent_result : IntentAnalysisResult) (v : LoopVars) : M LoopStep :=
  let current_round := current_round v + 1 in
  search_keywords ←
    reraise (round_keywords question intent_result current_round
               (evaluation_result v));
  yield_ (round_header current_round search_keywords);;
  all_results ← retrieve_keywords (take 3 search_keywords) paper_id
                  (all_results v);
  let all_results := _deduplicate_results all_results in
  yield_ (found_event all_results);;
  match all_results with
  | [] =>
      yield_ nothing_found_event;;
      mret (Break {| all_results := all_results;
                     current_round := current_round;
                     loop_is_sufficient := loop_is_sufficient v;
                     evaluation_result := evaluation_result v |})
  | _ :: _ =>
      yield_ (event (u "thinking") (u "正在评估信息完备性..."));;
      context ← reraise (_format_context all_results);
      r ← attempt (evaluate question context provider);
      record_call (EvaluateCall (match r with
                                 | Returned verdict => Some verdict
                                 | Raised _ => None
                                 end));;
      evaluation_result ← reraise r;
      let is_sufficient_ := is_sufficient evaluation_result in
      (if is_sufficient_ then
         yield_ (event (u "evaluation")
                   (u "信息评估: 信息充足，开始生成回答" ++ nl ++ u "推理: "
                      ++ eval_reasoning evaluation_result))
       else if current_round <? max_retrieval_rounds then
         yield_ (event (u "evaluation")
                   (u "信息评估: 需要补充信息" ++ nl ++ u "缺失: "
                      ++ str_of_optional (missing_info evaluation_result)
                      ++ nl ++ u "建议关键词: "
                      ++ comma_join (suggested_keywords evaluation_result)))
       else
         yield_ (event (u "evaluation")
                   (u "信息评估: 已达最大检索轮次，基于现有信息回答" ++ nl
                      ++ u "缺失: "
                      ++ str_of_optional (missing_info evaluation_result))));;
      mret (Continue {| all_results := all_results;
                        current_round := current_round;
                        loop_is_sufficient := is_sufficient_;
                        evaluation_result := Some evaluation_result |})
  end.

(** [while current_round < self.max_retrieval_rounds and not is_sufficient]
    (line 378), given [fuel] iterations. *)
Fixpoint retrieval_loop (fuel : nat) (paper_id question : pystr)
    (provider : option pystr) (intent_result : IntentAnalysisResult)
    (v : LoopVars) : M LoopVars :=
  if (current_round v <? max_retrieval_rounds) && negb (loop_is_sufficient v)
  then
    match fuel with
    | O => out_of_fuel
    | S fuel' =>
        step ← round_body paper_id question provider intent_result v;
        match step with
        | Break v' => mret v'
        | Continue v' =>
            retrieval_loop fuel' paper_id question provider intent_result v'
        end
    end
  else mret v.

Definition NOT_FOUND_ANSWER : pystr :=
  u "抱歉，我在论文中没有找到与您问题相关的内容。您可以尝试换一个问法或问其他问题。".

Definition answer_request (question context : pystr)
    (session_messages : list ChatMessage) (provider : option pystr)
    : ChatRequest :=
  let prompt := ANSWER_PROMPT_format context question in
  let messages_ :=
    [(u "system", u "你是专业的学术论文助手。"); (u "user", prompt)] in
  let messages_ :=
    match session_messages with
    | [] => messages_
    | _ :: _ =>
        let recent_history := lastn 6 session_messages in
        let history_messages :=
          (λ msg, (role msg, msg_content msg)) <$> recent_history in
        take 1 messages_ ++ history_messages ++ drop 1 messages_
    end in
  {| req_messages := messages_;
     req_provider := provider;
     req_temperature := 7 # 10;
     req_max_tokens := None;
     req_stream := true |}.

(** [async for chunk in stream_generator]: each increment is recorded and
    yielded as it arrives. *)
Fixpoint forward_chunks (stream : list pystr) (response_chunks : list pystr)
    : M (list pystr) :=
  match stream with
  | [] => mret response_chunks
  | chunk :: rest =>
      yield_ (event (u "content") chunk);;
      forward_chunks rest (response_chunks ++ [chunk])
  end.

(** Step 4: the answer (lines 447-481). *)
Definition synthesize (question : pystr) (provider : option pystr)
    (session : ChatHistory) (all_results : list SearchResult) : M pystr :=
  match all_results with
  | [] =>
      let answer := NOT_FOUND_ANSWER in
      yield_ (event (u "content") answer);;
      mret answer
  | _ :: _ =>
      context ← reraise (_format_context all_results);
      record_call SynthesisCall;;
      reply ← ask (llm_chat_stream
                     (answer_request question context (messages session)
                        provider));
      response_chunks ← forward_chunks (chunks reply) [];
      match failure reply with
      | Some e => raise e
      | None => mret (concat response_chunks)
      end
  end.

Definition source_entry (r : SearchResult) : SourceEntry :=
  {| src_chunk_id := chunk_id r;
     src_section := default [] (default None (metadata r));
     src_score := score_key r;
     src_text_preview := take 100 (default [] (text r)) ++ u "..." |}.

(** The trimming of the history after the two appends. *)
Definition trim_history (msgs : list ChatMessage) : list ChatMessage :=
  if (20 <? length msgs)%nat then lastn 20 msgs else msgs.

(** Step 5 (lines 484-504): the sources, the two appends to
    [session.messages], the trimming and the [done] event. *)
Definition commit (question answer : pystr) (session_id : pystr)
    (all_results : list SearchResult) : M unit :=
  yield_ (sources_event (source_entry <$> take 5 all_results));;
  now ← ask_total datetime_now;
  let user_message :=
    {| role := u "user"; msg_content := question; timestamp := now |} in
  now ← ask_total datetime_now;
  let assistant_message :=
    {| role := u "assistant"; msg_content := answer; timestamp := now |} in
  update_session session_id (set_messages (λ m, m ++ [user_message]));;
  update_session session_id (set_messages (λ m, m ++ [assistant_message]));;
  update_session session_id (set_messages trim_history);;
  yield_ done_event.

Definition initial_vars : LoopVars :=
  {| all_results := []; current_round := 0; loop_is_sufficient := false;
     evaluation_result := None |}.

(** Step 1: the intent (lines 356-371). *)
Definition intent_phase (paper_id question : pystr) (provider : option pystr)
    (session : ChatHistory) : M IntentAnalysisResult :=
  yield_ (event (u "thinking") (u "正在分析问题意图..."));;
  section_titles ← _get_section_titles paper_id;
  record_call IntentCall;;
  intent_result ← analyze question section_titles (messages session) provider;
  yield_ (event (u "thinking")
            (u "意图识别完成:" ++ nl ++ u "- 类别: "
               ++ IntentCategory_value (category intent_result) ++ nl
               ++ u "- 目标章节: "
               ++ (match comma_join (target_sections intent_result) with
                   | [] => u "全文"
                   | joined => joined
                   end) ++ nl
               ++ u "- 关键词: " ++ comma_join (keywords intent_result) ++ nl
               ++ u "- 推理: " ++ intent_reasoning intent_result));;
  mret intent_result.

(** The body of the [try] of [chat_stream] (lines 355-504). *)
Definition exchange (paper_id question session_id : pystr)
    (provider : option pystr) (session : ChatHistory) : M unit :=
  intent_result ← intent_phase paper_id question provider session;
  v ← retrieval_loop (Z.to_nat max_retrieval_rounds) paper_id question
        provider intent_result initial_vars;
  answer ← synthesize question provider session (all_results v);
  commit question answer session_id (all_results v).

(** [AgentOrchestrator.chat_stream] (lines 326-508). *)
Definition chat_stream (paper_id question : pystr)
    (session_id provider : option pystr) : M unit :=
  session_id ←
    (match session_id with
     | Some ((_ :: _) as sid) => mret sid
     | _ => create_session paper_id
     end);
  session ← get_session session_id;
  match session with
  | Some session =>
      if decide (h_paper_id session ≠ paper_id) then
        yield_ (event (u "error") (u "会话无效或论文不匹配"))
      else
        catch (exchange paper_id question session_id provider session)
              (λ e, yield_ (event (u "error") (exc_str e)))
  | None => yield_ (event (u "error") (u "会话无效或论文不匹配"))
  end.

(** ** The vocabulary of the statements *)

(** [bool(result.get("chunk_id"))] *)
Definition truthy_id (r : SearchResult) : bool :=
  match chunk_id r with
  | Some cid => nonempty cid
  | None => false
  end.

(** An evidence list as the loop keeps it between rounds: every entry has a
    truthy id and no id occurs twice. *)
Definition clean (l : list SearchResult) : Prop :=
  Forall (λ r, truthy_id r = true) l ∧ NoDup (chunk_id <$> l).

(** The loop invariant of the deduplication: [seen_chunks] holds exactly the
    ids of the kept results, which are clean. *)
Definition dedup_inv (st : gset pystr * list SearchResult) : Prop :=
  (∀ cid, cid ∈ st.1 ↔ Some cid ∈ chunk_id <$> st.2) ∧ clean st.2.

(** What a run from [s] to [s'] did: it left the sessions alone, yielded
    [evs] and made the calls [cs]. *)
Definition eff (s s' : State) (evs : list AgentStreamEvent) (cs : list Call)
    : Prop :=
  sessions s' = sessions s ∧ events s' = events s ++ evs
  ∧ calls s' = calls s ++ cs.

(** [m] never touches the sessions, and [Φ] relates its outcome to the
    events it yields and the calls it makes, from every state. *)
Definition traces {A} (m : M A)
    (Φ : Outcome A → list AgentStreamEvent → list Call → Prop) : Prop :=
  ∀ s, ∃ evs cs, eff s (m s).2 evs cs ∧ Φ (m s).1 evs cs.

(** [m] yields nothing, calls nothing that is recorded, and finishes. *)
Definition silent {A} (m : M A) : Prop :=
  traces m (λ o evs cs, o ≠ OutOfFuel ∧ evs = [] ∧ cs = []).

(** The events that report progress. *)
Definition progress_event (ev : AgentStreamEvent) : Prop :=
  type ev = u "thinking" ∨ type ev = u "retrieval" ∨ type ev = u "evaluation".

(** The calls of one round: at most three searches, then [tail]. *)
Definition searches_then (tail r : list Call) : Prop :=
  ∃ searched, r = (SearchCall <$> searched) ++ tail
              ∧ (length searched ≤ 3)%nat.

(** A round: its searches, followed by at most one evaluation. *)
Definition round_trace (r : list Call) : Prop :=
  searches_then [] r ∨ ∃ verdict, searches_then [EvaluateCall verdict] r.

(** A round whose evaluation returned an insufficient verdict. *)
Definition insufficient_round (r : list Call) : Prop :=
  ∃ verdict, is_sufficient verdict = false
             ∧ searches_then [EvaluateCall (Some verdict)] r.

(** The rounds of an exchange: every round but the last was found
    insufficient. *)
Fixpoint rounds_trace (rs : list (list Call)) : Prop :=
  match rs with
  | [] => True
  | r :: rest =>
      match rest with
      | [] => round_trace r
      | _ :: _ => insufficient_round r ∧ rounds_trace rest
      end
  end.

Definition step_vars (step : LoopStep) : LoopVars :=
  match step with Break v | Continue v => v end.

Definition round_spec (v : LoopVars) (o : Outcome LoopStep)
    (evs : list AgentStreamEvent) (cs : list Call) : Prop :=
  Forall progress_event evs ∧
  ∃ tail, searches_then tail cs ∧
    match o with
    | Ok step =>
        current_round (step_vars step) = current_round v + 1
        ∧ (∃ raw, all_results (step_vars step)
                  = _deduplicate_results (all_results v ++ raw))
        ∧ match step with
          | Break v' => tail = [] ∧ all_results v' = []
          | Continue v' =>
              all_results v' ≠ []
              ∧ ∃ verdict, tail = [EvaluateCall (Some verdict)]
                           ∧ loop_is_sufficient v' = is_sufficient verdict
                           ∧ evaluation_result v' = Some verdict
          end
    | Raise _ => tail = [] ∨ tail = [EvaluateCall None]
    | OutOfFuel => False
    end.

Definition loop_spec (v : LoopVars) (o : Outcome LoopVars)
    (evs : list AgentStreamEvent) (cs : list Call) : Prop :=
  Forall progress_event evs ∧ o ≠ OutOfFuel ∧
  ∃ rounds,
    cs = concat rounds ∧ rounds_trace rounds
    ∧ Z.of_nat (length rounds)
      ≤ Z.max 0 (max_retrieval_rounds - current_round v)
    ∧ (rounds ≠ [] → loop_is_sufficient v = false)
    ∧ ∀ v', o = Ok v' →
        current_round v' = current_round v + Z.of_nat (length rounds)
        ∧ (clean (all_results v) →
           clean (all_results v')
           ∧ all_results v `prefix_of` all_results v').

Definition content_event (chunk : pystr) : AgentStreamEvent :=
  event (u "content") chunk.

(** The answer is the concatenation of the [content] events; without
    evidence it is the canned answer, and the model is not called. *)
Definition synthesis_spec (all_results : list SearchResult)
    (o : Outcome pystr) (evs : list AgentStreamEvent) (cs : list Call)
    : Prop :=
  o ≠ OutOfFuel ∧
  ∃ increments,
    evs = content_event <$> increments
    ∧ (∀ answer, o = Ok answer → answer = concat increments)
    ∧ match all_results with
      | [] => o = Ok NOT_FOUND_ANSWER ∧ increments = [NOT_FOUND_ANSWER]
              ∧ cs = []
      | _ :: _ => cs = [] ∨ cs = [SynthesisCall]
      end.

Definition user_message (question : pystr) (now : Z) : ChatMessage :=
  {| role := u "user"; msg_content := question; timestamp := now |}.

Definition assistant_message (answer : pystr) (now : Z) : ChatMessage :=
  {| role := u "assistant"; msg_content := answer; timestamp := now |}.

(** The history of a session after the commit of an exchange. *)
Definition committed (question answer : pystr) (t1 t2 : Z)
    (h : ChatHistory) : ChatHistory :=
  set_messages
    (λ m, trim_history
            (m ++ [user_message question t1; assistant_message answer t2]))
    h.

(** What an exchange leaves behind: progress events, then the increments
    of the answer, and either the sources, [done] and the committed turn, or
    an exception and untouched sessions. *)
Definition exchange_spec (question session_id : pystr) (s : State)
    (r : Outcome unit * State) : Prop :=
  ∃ pre increments,
    Forall progress_event pre ∧
    match r.1 with
    | Ok _ =>
        ∃ final t1 t2,
          clean final
          ∧ events r.2
            = events s ++ pre ++ (content_event <$> increments)
              ++ [sources_event (source_entry <$> take 5 final); done_event]
          ∧ sessions r.2
            = alter (committed question (concat increments) t1 t2)
                session_id (sessions s)
    | Raise e =>
        events r.2 = events s ++ pre ++ (content_event <$> increments)
        ∧ sessions r.2 = sessions s
    | OutOfFuel => False
    end.

(** The session an exchange runs in, and the sessions once it is resolved:
    the session named by a truthy [session_id], or a new, empty one under a
    fresh uuid. *)
Definition resolved (paper_id : pystr) (session_id : option pystr)
    (s : State) : pystr * gmap pystr ChatHistory :=
  match session_id with
  | Some ((_ :: _) as sid) => (sid, sessions s)
  | _ =>
      let '(sid, w) := uuid4 (world s) in
      (sid, <[sid := {| h_session_id := sid; h_paper_id := paper_id;
                        messages := [];
                        h_created_at := (datetime_now w).1 |}]> (sessions s))
  end.

Definition error_event (msg : pystr) : AgentStreamEvent :=
  event (u "error") msg.

(** The two ways a call of [chat_stream] ends. *)
Definition chat_stream_spec (paper_id question : pystr)
    (session_id : option pystr) (s : State) (r : Outcome unit * State)
    : Prop :=
  r.1 = Ok () ∧
  ∃ pre increments,
    Forall progress_event pre ∧
    ((∃ final t1 t2,
        clean final
        ∧ is_Some ((resolved paper_id session_id s).2
                     !! (resolved paper_id session_id s).1)
        ∧ events r.2
          = events s ++ pre ++ (content_event <$> increments)
            ++ [sources_event (source_entry <$> take 5 final); done_event]
        ∧ sessions r.2
          = alter (committed question (concat increments) t1 t2)
              (resolved paper_id session_id s).1
              (resolved paper_id session_id s).2)
     ∨ (∃ msg,
          events r.2
          = events s ++ pre ++ (content_event <$> increments)
            ++ [error_event msg]
          ∧ sessions r.2 = (resolved paper_id session_id s).2)).

(** The events that end a stream. *)
Definition terminal_event (ev : AgentStreamEvent) : Prop :=
  type ev = u "done" ∨ type ev = u "error".

(** The text carried by the [content] events of a stream, in order. *)
Definition content_payloads (evs : list AgentStreamEvent) : list pystr :=
  omap (λ ev, if decide (type ev = u "content")
              then match content ev with CStr c => Some c | _ => None end
              else None) evs.

(** The message history stored under a session id ([[]] when there is no
    such session). *)
Definition history (store : gmap pystr ChatHistory) (k : pystr)
    : list ChatMessage :=
  default [] (messages <$> store !! k).

(** [after_rounds v v']: the loop variables [v'] can be reached from [v] by
    running rounds of the loop, whatever the capabilities answer. *)
Inductive after_rounds (paper_id question : pystr) (provider : option pystr)
    (intent_result : IntentAnalysisResult) : LoopVars → LoopVars → Prop :=
  | rounds_none v :
      after_rounds paper_id question provider intent_result v v
  | rounds_more v s step v' :
      (run (round_body paper_id question provider intent_result v) s).1
      = Ok step →
      after_rounds paper_id question provider intent_result
        (step_vars step) v' →
      after_rounds paper_id question provider intent_result v v'.

(** A result, or a source entry, that carries a non-empty fragment id. *)
Definition has_id (id : option pystr) : Prop :=
  ∃ cid, id = Some cid ∧ cid ≠ [].

(** The multi-keyword search in the words of the specification, as far as
    dispatching goes: one similarity search per keyword, in the order of the
    keywords, the result lists kept in that order. *)
Fixpoint search_batches (keywords : list pystr) (paper_id : option pystr)
    (top_k : Z) (section_filter : option (list pystr))
    (embedding_provider embedding_model : option pystr)
    : M (list (list SearchResult)) :=
  match keywords with
  | [] => mret []
  | keyword :: rest =>
      results ← search_similar_chunks keyword paper_id top_k section_filter
                  embedding_provider embedding_model;
      batches ← search_batches rest paper_id top_k section_filter
                  embedding_provider embedding_model;
      mret (results :: batches)
  end.

(** ** The rest of the session store *)

(** [AgentOrchestrator.get_history] (lines 510-513). *)
Definition get_history (session_id : pystr) : M (option (list ChatMessage)) :=
  session ← get_session session_id;
  mret (messages <$> session).

(** [AgentOrchestrator.clear_session] (lines 515-519):
    [if session_id in self.sessions: del self.sessions[session_id]]. *)
Definition clear_session (session_id : pystr) : M unit :=
  sessions ← get_sessions;
  if decide (is_Some (sessions !! session_id))
  then set_sessions (delete session_id sessions)
  else mret ().

(** ** More vocabulary *)

(** A reply wrapped in a code fence: the opening fence with its language
    tag, the body on its own lines, the closing fence. *)
Definition fenced (lang body : pystr) : pystr :=
  u "```" ++ lang ++ nl ++ body ++ nl ++ u "```".

(** The loop variables at the head of the [while] loop: the initial ones,
    and those a round that did not break leaves. *)
Inductive loop_reaches (paper_id question : pystr) (provider : option pystr)
    (intent_result : IntentAnalysisResult) : LoopVars → Prop :=
  | reaches_initial :
      loop_reaches paper_id question provider intent_result initial_vars
  | reaches_next v s v' :
      loop_reaches paper_id question provider intent_result v →
      (run (round_body paper_id question provider intent_result v) s).1
      = Ok (Continue v') →
      loop_reaches paper_id question provider intent_result v'.

(** The events a run added to those of the state it started from. *)
Definition new_events (s s' : State) : list AgentStreamEvent :=
  drop (length (events s)) (events s').

(** Every session holds at most 20 messages. *)
Definition histories_bounded (store : gmap pystr ChatHistory) : Prop :=
  ∀ k h, store !! k = Some h → (length (messages h) ≤ 20)%nat.

(** The state after the first event of an exchange and the reading of the
    section titles, where the intent request is made. *)
Definition before_intent (paper_id : pystr) (s : State) : State :=
  (run (yield_ (event (u "thinking") (u "正在分析问题意图..."));;
        _get_section_titles paper_id) s).2.

Definition titles_before_intent (paper_id : pystr) (s : State) : list pystr :=
  match (run (yield_ (event (u "thinking") (u "正在分析问题意图..."));;
              _get_section_titles paper_id) s).1 with
  | Ok titles => titles
  | _ => []
  end.

End Agent.

(** ** [app/routers/chat.py]: the agent endpoints *)

Inductive LLMProvider := QWEN | OPENAI | DEEPSEEK.

Definition LLMProvider_value (p : LLMProvider) : pystr :=
  match p with
  | QWEN => u "qwen"
  | OPENAI => u "openai"
  | DEEPSEEK => u "deepseek"
  end.

Record AgentChatRequest := {
  message : pystr;
  request_session_id : option pystr;
  request_provider : option LLMProvider
}.

(** What an endpoint answers: its value, or the [HTTPException] it raises. *)
Inductive HttpResponse (A : Type) : Type :=
  | Http200 (a : A)
  | HTTPException (status_code : Z) (detail : pystr).
Arguments Http200 {A} a.
Arguments HTTPException {A} status_code detail.

Section Router.

Context {World : Type} `{!Capabilities World} `{!Runtime} `{!Settings}.

(** [json.dumps({"type": t, "content": c}, ensure_ascii=False)] *)
Variable json_dumps : pystr → Content → pystr.

(** [create_agent_session] (lines 107-118): the session id, the paper id and
    the message of the answer. *)
Definition create_agent_session (paper_id : pystr)
    : M (World:=World) (pystr * pystr * pystr) :=
  session_id ← create_session paper_id;
  mret (session_id, paper_id, u "Agent 会话创建成功").

(** [get_agent_history] (lines 121-134). *)
Definition get_agent_history (session_id : pystr)
    : M (World:=World) (HttpResponse (pystr * list ChatMessage)) :=
  history_ ← get_history session_id;
  match history_ with
  | None => mret (HTTPException 404 (u "Agent 会话不存在"))
  | Some msgs => mret (Http200 (session_id, msgs))
  end.

(** [delete_agent_session] (lines 137-147). *)
Definition delete_agent_session (session_id : pystr)
    : M (World:=World) (pystr * pystr) :=
  clear_session session_id;;
  mret (u "Agent 会话已删除", session_id).

(** One unit of the server-sent stream. *)
Definition sse_frame (type_ : pystr) (content_ : Content) : pystr :=
  u "data: " ++ json_dumps type_ content_ ++ nl ++ nl.

(** The generator [generate] of [agent_chat_with_paper] (lines 167-186): a
    frame for every event of [chat_stream], as it comes, and a frame of its
    own if [chat_stream] raises.  The result is the frames it yields. *)
Definition generate (paper_id : pystr) (request : AgentChatRequest)
    (s : State (World:=World)) : list pystr * State (World:=World) :=
  let r := run (chat_stream paper_id (message request)
                  (request_session_id request)
                  (LLMProvider_value <$> request_provider request)) s in
  (((λ ev, sse_frame (type ev) (content ev)) <$> new_events s r.2)
   ++ match r.1 with
      | Raise e => [sse_frame (u "error") (CStr (exc_str e))]
      | _ => []
      end,
   r.2).

End Router.

(** ** A scripted world, for running the model on concrete inputs *)

Module Scripted.

(** The replies the capabilities will give, in the order of the calls. *)
Record Script := {
  chat_replies : list (Result pystr);
  stream_replies : list (Result StreamReply);
  search_replies : list (Result (list SearchResult));
  paper : Result (option ParsedPaper);
  next_uuid : Z;
  clock : Z
}.

Definition exhausted {A} : Result A :=
  Raised (Exn OtherException (u "connection refused")).

Global Instance scripted_capabilities : Capabilities Script := {|
  llm_chat _ w :=
    (default exhausted (head (chat_replies w)),
     {| chat_replies := tail (chat_replies w);
        stream_replies := stream_replies w;
        search_replies := search_replies w;
        paper := paper w; next_uuid := next_uuid w; clock := clock w |});
  llm_chat_stream _ w :=
    (default exhausted (head (stream_replies w)),
     {| chat_replies := chat_replies w;
        stream_replies := tail (stream_replies w);
        search_replies := search_replies w;
        paper := paper w; next_uuid := next_uuid w; clock := clock w |});
  embed_text _ _ _ w := (Returned [], w);
  milvus_search _ _ _ w :=
    (default exhausted (head (search_replies w)),
     {| chat_replies := chat_replies w;
        stream_replies := stream_replies w;
        search_replies := tail (search_replies w);
        paper := paper w; next_uuid := next_uuid w; clock := clock w |});
  load_parsed_content _ w := (paper w, w);
  uuid4 w :=
    (u "session-" ++ str_of_Z (next_uuid w),
     {| chat_replies := chat_replies w;
        stream_replies := stream_replies w;
        search_replies := search_replies w;
        paper := paper w; next_uuid := next_uuid w + 1; clock := clock w |});
  datetime_now w :=
    (clock w,
     {| chat_replies := chat_replies w;
        stream_replies := stream_replies w;
        search_replies := search_replies w;
        paper := paper w; next_uuid := next_uuid w; clock := clock w + 1 |})
|}.

Definition dq : pystr := [34%N].

(** The replies the toy decoder below understands. *)
Definition reply_insufficient : pystr :=
  u "{" ++ dq ++ u "is_sufficient" ++ dq ++ u ": false}".
Definition reply_sufficient : pystr :=
  u "{" ++ dq ++ u "is_sufficient" ++ dq ++ u ": true}".
Definition reply_bad_keywords : pystr :=
  u "{" ++ dq ++ u "suggested_keywords" ++ dq ++ u ": 5}".
Definition reply_keywords : pystr :=
  u "{" ++ dq ++ u "keywords" ++ dq ++ u ": [" ++ dq ++ u "a" ++ dq ++ u ", "
    ++ dq ++ u "b" ++ dq ++ u ", " ++ dq ++ u "c" ++ dq ++ u ", " ++ dq
    ++ u "d" ++ dq ++ u "]}".

Definition toy_json_table : list (pystr * Json) :=
  [(u "{}", JObj []);
   (reply_insufficient, JObj [(u "is_sufficient", JBool false)]);
   (reply_sufficient, JObj [(u "is_sufficient", JBool true)]);
   (reply_bad_keywords, JObj [(u "suggested_keywords", JInt 5)]);
   (reply_keywords,
    JObj [(u "keywords", JArr [JStr (u "a"); JStr (u "b"); JStr (u "c");
                               JStr (u "d")])])].

(** A reply nested too deeply for [json.loads]: a thousand opening
    brackets. *)
Definition reply_deep : pystr := replicate 1000 91%N.

Definition RecursionError : exn :=
  Exn OtherException
    (u "maximum recursion depth exceeded while decoding a JSON array from a unicode string").

Definition toy_json_loads (s : pystr) : Result Json :=
  if decide (s = reply_deep) then Raised RecursionError
  else
    match dict_get toy_json_table s with
    | Some v => Returned v
    | None =>
        Raised (Exn JSONDecodeError
                  (u "Expecting value: line 1 column 1 (char 0)"))
    end.

(** A stable sort by score, larger scores first, for the toy runtime. *)
Fixpoint insert_by_score (x : SearchResult) (l : list SearchResult)
    : list SearchResult :=
  match l with
  | [] => [x]
  | y :: l' =>
      if float_le_bool (score_key y) (score_key x) then x :: y :: l'
      else y :: insert_by_score x l'
  end.

Definition sort_by_score (l : list SearchResult) : list SearchResult :=
  foldr insert_by_score [] l.

Definition strict_bool (v : Json) : option bool :=
  match v with JBool b => Some b | _ => None end.
Definition strict_str (v : Json) : option pystr :=
  match v with JStr s => Some s | _ => None end.
Definition strict_optional_str (v : Json) : option (option pystr) :=
  match v with JNull => Some None | JStr s => Some (Some s) | _ => None end.
Definition strict_list_str (v : Json) : option (list pystr) :=
  match v with JArr l => mapM strict_str l | _ => None end.

Global Instance toy_runtime : Runtime.
Proof.
  refine {|
    json_loads := toy_json_loads;
    str_lower s := s;
    format_3f _ := u "0.000";
    INTENT_ANALYSIS_PROMPT_format titles history question := question;
    EVALUATION_PROMPT_format question retrieved := retrieved;
    ANSWER_PROMPT_format context question := context ++ question;
    validate_bool := strict_bool;
    validate_str := strict_str;
    validate_optional_str := strict_optional_str;
    validate_list_str := strict_list_str;
    ValidationError_str := u "validation error";
    validate_bool_JBool b := eq_refl;
    validate_str_JStr s := eq_refl;
    validate_optional_str_JNull := eq_refl;
    validate_optional_str_JStr s := eq_refl;
    validate_list_str_JArr := _;
    sort_by_score_reverse := sort_by_score;
    sort_by_score_reverse_perm := _;
    sort_by_score_reverse_sorted := _
  |}.
  - intros l. simpl. apply mapM_Some. induction l; constructor; auto.
  - assert (∀ x l, insert_by_score x l ≡ₚ x :: l) as Hinsert.
    { intros x l. induction l as [|y l IH]; simpl; [done|].
      destruct (float_le_bool _ _); [done|].
      rewrite IH. apply Permutation_swap. }
    intros l. induction l as [|x l IH]; simpl; [done|].
    by rewrite Hinsert, IH.
  - assert (∀ a b, float_le_bool a b = true → float_le a b) as Htrue.
    { intros [x|] [y|]; simpl; try done. apply Qle_bool_imp_le. }
    assert (∀ a b, a ≠ NaN → b ≠ NaN →
                   float_le_bool a b = false → float_le b a) as Hfalse.
    { intros [x|] [y|] Ha Hb; simpl; try done. intros Hle.
      apply Qnot_lt_le. intros Hlt.
      apply Qlt_le_weak, Qle_bool_iff in Hlt. congruence. }
    assert (∀ x l,
              score_key x ≠ NaN → Forall (λ y, score_key y ≠ NaN) l →
              Sorted by_score_desc l →
              Sorted by_score_desc (insert_by_score x l)) as Hinsert.
    { intros x l Hx. induction l as [|y l IH]; intros Hl Hsorted; simpl.
      - by repeat constructor.
      - apply Forall_cons in Hl as [Hy Hl].
        apply Sorted_inv in Hsorted as [Hsorted Hhd].
        destruct (float_le_bool (score_key y) (score_key x)) eqn:Hle.
        + constructor; [by constructor|]. constructor. by apply Htrue.
        + constructor; [by apply IH|].
          destruct l as [|z l]; simpl.
          * constructor. by apply Hfalse.
          * destruct (float_le_bool (score_key z) (score_key x));
              constructor; [by apply Hfalse|by inversion Hhd]. }
    assert (∀ x l,
              score_key x ≠ NaN → Forall (λ y, score_key y ≠ NaN) l →
              Forall (λ y, score_key y ≠ NaN) (insert_by_score x l)) as Hkeep.
    { intros x l Hx Hl. induction Hl as [|y l Hy Hl IH]; simpl.
      - by repeat constructor.
      - destruct (float_le_bool _ _); repeat constructor; auto. }
    intros l Hl. induction Hl as [|x l Hx Hl IH]; simpl; [constructor|].
    apply Hinsert; [done| |done].
    clear IH. induction Hl as [|y l Hy Hl IH]; simpl; [constructor|].
    by apply Hkeep.
Defined.

Global Instance three_rounds : Settings := {|
  agent_max_retrieval_rounds := 3;
  agent_intent_temperature := 3 # 10;
  agent_evaluation_temperature := 3 # 10;
  top_k_retrieval := 5
|}.

Definition hit (id : string) (s : Q) : SearchResult :=
  {| chunk_id := Some (u id); text := Some (u "text of " ++ u id);
     metadata := Some (Some (u "Method")); score := Some (Num s) |}.

Definition start (w : Script) : State :=
  {| world := w; sessions := ∅; events := []; calls := [] |}.

(** A world in which every capability is down. *)
Definition world_down : Script :=
  {| chat_replies := []; stream_replies := []; search_replies := [];
     paper := Returned None; next_uuid := 0; clock := 0 |}.

(** A world that answers: the intent reply is not JSON, the one search finds
    fragment [a] twice and fragment [b], the evaluation is sufficient and
    the answer comes in two increments. *)
Definition world_answering : Script :=
  {| chat_replies := [Returned (u "not json"); Returned reply_sufficient];
     stream_replies :=
       [Returned {| chunks := [u "Hello"; u " world"]; failure := None |}];
     search_replies :=
       [Returned [hit "a" (1 # 2); hit "b" (1 # 3); hit "a" (1 # 2)]];
     paper := Returned None; next_uuid := 0; clock := 0 |}.

(** A world in which the search finds nothing. *)
Definition world_nothing_found : Script :=
  {| chat_replies := [Returned (u "not json")]; stream_replies := [];
     search_replies := [Returned []];
     paper := Returned None; next_uuid := 0; clock := 0 |}.

(** A world whose evaluation reply lacks [is_sufficient] and gives a number
    for [suggested_keywords]. *)
Definition world_bad_verdict : Script :=
  {| chat_replies := [Returned reply_bad_keywords]; stream_replies := [];
     search_replies := [];
     paper := Returned None; next_uuid := 0; clock := 0 |}.

(** A world for four keyword searches: the second hit scores higher than
    the first. *)
Definition world_four_searches : Script :=
  {| chat_replies := []; stream_replies := [];
     search_replies :=
       [Returned [hit "x" (1 # 10)]; Returned [hit "y" (9 # 10)];
        Returned []; Returned []];
     paper := Returned None; next_uuid := 0; clock := 0 |}.

Definition four_keywords : list pystr := [u "a"; u "b"; u "c"; u "d"].

Definition the_paper : pystr := u "p1".
Definition the_question : pystr := u "What is this paper about?".

Definition the_session : ChatHistory :=
  {| h_session_id := u "s1"; h_paper_id := the_paper; messages := [];
     h_created_at := 0 |}.

Definition in_session (w : Script) : State :=
  {| world := w; sessions := {[ u "s1" := the_session ]}; events := [];
     calls := [] |}.

Definition one_keyword : IntentAnalysisResult :=
  {| category := GENERAL; target_sections := []; keywords := [u "k"];
     intent_reasoning := [] |}.

(** The value of a run that is known to return. *)
Definition value_of {A S} (dflt : A) (r : Outcome A * S) : A :=
  match r.1 with Ok a => a | _ => dflt end.

(** A whole exchange in the answering world, in a new session. *)
Definition answering_run : Outcome unit * State :=
  run (chat_stream the_paper the_question None None) (start world_answering).

Definition answering_body : list AgentStreamEvent :=
  removelast (events answering_run.2).

(** One round in the answering world, from the initial variables. *)
Definition first_round : Outcome LoopStep * State :=
  run (round_body the_paper the_question None one_keyword initial_vars)
      (start world_answering).

Definition after_first_round : LoopVars :=
  step_vars (value_of (Break initial_vars) first_round).

(** The first steps of an exchange in the world where nothing is found. *)
Definition nothing_found_intent : Outcome IntentAnalysisResult * State :=
  run (intent_phase the_paper the_question None the_session)
      (in_session world_nothing_found).

Definition nothing_found_retrieval : Outcome (list SearchResult) * State :=
  run (retrieve_keywords
         (take 3 (keywords (value_of one_keyword nothing_found_intent)))
         the_paper [])
      (run (yield_ (round_header 1
                      (keywords (value_of one_keyword nothing_found_intent))))
           nothing_found_intent.2).2.

(** *** Further worlds *)

(** [str.lower] on the letters of ASCII. *)
Definition ascii_lower (s : pystr) : pystr :=
  (λ c, if (65 <=? c) && (c <=? 90) then c + 32 else c)%N <$> s.

Definition reply_category : pystr :=
  u "{" ++ dq ++ u "category" ++ dq ++ u ": " ++ dq ++ u "Method" ++ dq
    ++ u "}".

Definition reply_list : pystr := u "[1]".

Definition reading_json_table : list (pystr * Json) :=
  [(reply_category, JObj [(u "category", JStr (u "Method"))]);
   (reply_list, JArr [JInt 1])].

Definition reading_json_loads (s : pystr) : Result Json :=
  match dict_get reading_json_table s with
  | Some v => Returned v
  | None =>
      Raised (Exn JSONDecodeError
                (u "Expecting value: line 1 column 1 (char 0)"))
  end.

(** A runtime that lowers the case of ASCII letters and decodes the two
    replies above. *)
Definition reading_runtime : Runtime :=
  {| json_loads := reading_json_loads;
     str_lower := ascii_lower;
     format_3f := format_3f (Runtime:=toy_runtime);
     INTENT_ANALYSIS_PROMPT_format :=
       INTENT_ANALYSIS_PROMPT_format (Runtime:=toy_runtime);
     EVALUATION_PROMPT_format :=
       EVALUATION_PROMPT_format (Runtime:=toy_runtime);
     ANSWER_PROMPT_format := ANSWER_PROMPT_format (Runtime:=toy_runtime);
     validate_bool := strict_bool;
     validate_str := strict_str;
     validate_optional_str := strict_optional_str;
     validate_list_str := strict_list_str;
     ValidationError_str := u "validation error";
     validate_bool_JBool := validate_bool_JBool (Runtime:=toy_runtime);
     validate_str_JStr := validate_str_JStr (Runtime:=toy_runtime);
     validate_optional_str_JNull :=
       validate_optional_str_JNull (Runtime:=toy_runtime);
     validate_optional_str_JStr :=
       validate_optional_str_JStr (Runtime:=toy_runtime);
     validate_list_str_JArr := validate_list_str_JArr (Runtime:=toy_runtime);
     sort_by_score_reverse := sort_by_score;
     sort_by_score_reverse_perm :=
       sort_by_score_reverse_perm (Runtime:=toy_runtime);
     sort_by_score_reverse_sorted :=
       sort_by_score_reverse_sorted (Runtime:=toy_runtime)
  |}.

(** A configuration whose loop runs no round. *)
Definition no_rounds : Settings :=
  {| agent_max_retrieval_rounds := 0;
     agent_intent_temperature := 3 # 10;
     agent_evaluation_temperature := 3 # 10;
     top_k_retrieval := 5 |}.

(** A world whose intent reply names a category, in mixed case. *)
Definition world_category : Script :=
  {| chat_replies := [Returned reply_category]; stream_replies := [];
     search_replies := [];
     paper := Returned None; next_uuid := 0; clock := 0 |}.

(** A world whose replies decode to a list. *)
Definition world_list : Script :=
  {| chat_replies := [Returned reply_list]; stream_replies := [];
     search_replies := [];
     paper := Returned None; next_uuid := 0; clock := 0 |}.

(** What a capability that is down raises. *)
Definition connection_refused : exn :=
  Exn OtherException (u "connection refused").

(** A world whose answer breaks after one increment. *)
Definition stream_closed : exn := Exn OtherException (u "stream closed").

Definition world_broken_stream : Script :=
  {| chat_replies := [];
     stream_replies :=
       [Returned {| chunks := [u "Hel"]; failure := Some stream_closed |}];
     search_replies := [];
     paper := Returned None; next_uuid := 0; clock := 0 |}.

Definition broken_context : pystr :=
  match _format_context [hit "a" (1 # 2)] with
  | Returned context => context
  | Raised _ => []
  end.

(** A world whose search finds fragments of several sections. *)
Definition hit_in (id section : string) (s : Q) : SearchResult :=
  {| chunk_id := Some (u id); text := Some (u "text of " ++ u id);
     metadata := Some (Some (u section)); score := Some (Num s) |}.

Definition found_in_sections : list SearchResult :=
  [hit_in "i" "Introduction" (9 # 10); hit_in "m1" "Method" (8 # 10);
   hit_in "e" "Experiments" (7 # 10); hit_in "m2" "Method details" (6 # 10)].

Definition world_sections : Script :=
  {| chat_replies := []; stream_replies := [];
     search_replies := [Returned found_in_sections];
     paper := Returned None; next_uuid := 0; clock := 0 |}.

(** The intent phase of the world where nothing is found, under the
    configuration without rounds. *)
Definition no_rounds_intent : Outcome IntentAnalysisResult * State :=
  run (@intent_phase Script _ _ no_rounds the_paper the_question None
         the_session)
      (in_session world_nothing_found).

(** A world whose first reply is nested too deeply to decode. *)
Definition world_deep : Script :=
  {| chat_replies := [Returned reply_deep]; stream_replies := [];
     search_replies := [];
     paper := Returned None; next_uuid := 0; clock := 0 |}.

(** A world whose first reply is the empty object. *)
Definition world_empty_object : Script :=
  {| chat_replies := [Returned (u "{}")]; stream_replies := [];
     search_replies := [];
     paper := Returned None; next_uuid := 0; clock := 0 |}.

(** Hits without a fragment id, and with the empty id. *)
Definition hit_without_id : SearchResult :=
  {| chunk_id := None; text := Some (u "no id");
     metadata := Some (Some (u "Method")); score := Some (Num (9 # 10)) |}.

Definition hit_with_empty_id : SearchResult :=
  {| chunk_id := Some []; text := Some (u "empty id");
     metadata := Some (Some (u "Method")); score := Some (Num (8 # 10)) |}.

Definition found_with_untagged : list SearchResult :=
  [hit_without_id; hit "a" (1 # 2); hit_with_empty_id; hit "b" (1 # 3)].

(** A world whose one search finds these hits; the evaluation reply is not
    JSON, and the answer comes in one increment. *)
Definition world_untagged : Script :=
  {| chat_replies := [Returned (u "not json")];
     stream_replies :=
       [Returned {| chunks := [u "Hello"]; failure := None |}];
     search_replies := [Returned found_with_untagged];
     paper := Returned None; next_uuid := 0; clock := 0 |}.

Definition untagged_retrieval : Outcome (list SearchResult) * State :=
  run (retrieve_keywords (take 3 (keywords one_keyword)) the_paper [])
      (run (yield_ (round_header 1 (keywords one_keyword)))
         (start world_untagged)).2.

Definition untagged_context : pystr :=
  match _format_context (_deduplicate_results found_with_untagged) with
  | Returned context => context
  | Raised _ => []
  end.

(** The state in which the evidence of that round is evaluated. *)
Definition untagged_evaluation : State :=
  {| world := world untagged_retrieval.2;
     sessions := sessions untagged_retrieval.2;
     events := events untagged_retrieval.2
               ++ [found_event (_deduplicate_results found_with_untagged);
                   event (u "thinking") (u "正在评估信息完备性...")];
     calls := calls untagged_retrieval.2 |}.

Definition untagged_round : LoopVars :=
  {| all_results := _deduplicate_results found_with_untagged;
     current_round := 1;
     loop_is_sufficient := true;
     evaluation_result := Some evaluation_parse_failure_default |}.

(** A whole exchange in that world, in the session [s1], after an intent
    with one keyword: the first reply is then the one to the intent
    prompt. *)
Definition world_untagged_exchange : Script :=
  {| chat_replies := [Returned (u "not json"); Returned reply_sufficient];
     stream_replies :=
       [Returned {| chunks := [u "Hello"]; failure := None |}];
     search_replies := [Returned found_with_untagged];
     paper := Returned None; next_uuid := 0; clock := 0 |}.

Definition untagged_run : Outcome unit * State :=
  run (chat_stream the_paper the_question (Some (u "s1")) None)
      (in_session world_untagged_exchange).

Definition untagged_sources : list SourceEntry :=
  source_entry <$> [hit "a" (1 # 2); hit "b" (1 # 3)].

(** An intent with four keywords, and a world that answers four searches
    and one evaluation. *)
Definition four_keywords_intent : IntentAnalysisResult :=
  {| category := GENERAL; target_sections := []; keywords := four_keywords;
     intent_reasoning := [] |}.

Definition world_three_of_four : Script :=
  {| chat_replies := [Returned reply_sufficient]; stream_replies := [];
     search_replies :=
       [Returned [hit "x" (1 # 10)]; Returned [hit "y" (9 # 10)];
        Returned []; Returned []];
     paper := Returned None; next_uuid := 0; clock := 0 |}.

Definition three_of_four_round : Outcome LoopStep * State :=
  run (round_body the_paper the_question None four_keywords_intent
         initial_vars) (start world_three_of_four).

End Scripted.

(** * Properties *)

(** ** Deduplication by fragment id *)

Lemma clean_nil : clean [].
Proof. split; constructor. Qed.

Lemma dedup_inv_empty : dedup_inv (∅, []).
Proof. split; [|apply clean_nil]. intros cid; simpl. set_solver. Qed.

Lemma dedup_step_inv st r : dedup_inv st → dedup_inv (dedup_step st r).
Proof.
  destruct st as [seen kept]. intros Hst.
  pose proof Hst as [Hseen [Hall Hnd]]. simpl in Hseen, Hall, Hnd.
  unfold dedup_step. destruct (chunk_id r) as [cid|] eqn:Hcid; [|exact Hst].
  destruct (nonempty cid) eqn:Hne; simpl; [|exact Hst].
  case_bool_decide as Hin; simpl; [|exact Hst].
  split; [|split]; simpl.
  - intros c. rewrite fmap_app, elem_of_app, elem_of_union, elem_of_singleton.
    simpl. rewrite Hcid, list_elem_of_singleton, Hseen. naive_solver.
  - apply Forall_app; split; [done|]. constructor; [|constructor].
    unfold truthy_id. by rewrite Hcid.
  - rewrite fmap_app. simpl. rewrite Hcid. apply NoDup_app. split; [done|].
    split; [|apply NoDup_singleton].
    intros x Hx ->%list_elem_of_singleton. by apply Hin, Hseen.
Qed.

Lemma dedup_foldl_inv l st : dedup_inv st → dedup_inv (foldl dedup_step st l).
Proof.
  revert st. induction l as [|r l IH]; intros st Hst; simpl; [done|].
  by apply IH, dedup_step_inv.
Qed.

Lemma dedup_step_kept st r :
  ∃ new, (dedup_step st r).2 = st.2 ++ new ∧ new `sublist_of` [r].
Proof.
  destruct st as [seen kept]. unfold dedup_step.
  destruct (chunk_id r) as [cid|];
    [destruct (nonempty cid && bool_decide (cid ∉ seen))|]; simpl.
  - by exists [r].
  - exists []. rewrite app_nil_r. split; [done|]. apply sublist_nil_l.
  - exists []. rewrite app_nil_r. split; [done|]. apply sublist_nil_l.
Qed.

(** The loop only appends, and what it appends is a subsequence of its
    input. *)
Lemma dedup_foldl_kept l st :
  ∃ new, (foldl dedup_step st l).2 = st.2 ++ new ∧ new `sublist_of` l.
Proof.
  revert st. induction l as [|r l IH]; intros st; simpl.
  - exists []. by rewrite app_nil_r.
  - destruct (dedup_step_kept st r) as (n1 & E1 & S1).
    destruct (IH (dedup_step st r)) as (n2 & E2 & S2).
    exists (n1 ++ n2). rewrite E2, E1, app_assoc. split; [done|].
    change (r :: l) with ([r] ++ l). by apply sublist_app.
Qed.

(** A clean list whose ids are all new goes through the loop unchanged. *)
Lemma dedup_foldl_clean l seen kept :
  clean l →
  (∀ cid, Some cid ∈ chunk_id <$> l → cid ∉ seen) →
  foldl dedup_step (seen, kept) l
  = (list_to_set (omap chunk_id l) ∪ seen, kept ++ l).
Proof.
  revert seen kept. induction l as [|r l IH]; intros seen kept [Hall Hnd] Hnew.
  { simpl. rewrite app_nil_r. f_equal. set_solver. }
  apply Forall_cons in Hall as [Hr Hall].
  rewrite fmap_cons in Hnd. apply NoDup_cons in Hnd as [Hnotin Hnd].
  unfold truthy_id in Hr. simpl.
  destruct (chunk_id r) as [cid|] eqn:Hcid; [|done].
  rewrite Hr. simpl.
  rewrite bool_decide_eq_true_2 by (apply Hnew; rewrite fmap_cons, Hcid; left).
  rewrite IH.
  - rewrite <- app_assoc. simpl. f_equal. set_solver.
  - done.
  - intros c Hc. rewrite elem_of_union, elem_of_singleton. intros [->|Hs].
    + done.
    + revert Hs. apply Hnew. rewrite fmap_cons. by right.
Qed.

(** Merging a batch into a clean evidence list keeps the list as a prefix. *)
Lemma deduplicate_app_clean acc raw :
  clean acc →
  ∃ new, _deduplicate_results (acc ++ raw) = acc ++ new
         ∧ new `sublist_of` raw.
Proof.
  intros Hc. unfold _deduplicate_results. rewrite foldl_app.
  rewrite (dedup_foldl_clean acc ∅ []) by (done || set_solver).
  destruct (dedup_foldl_kept raw (list_to_set (omap chunk_id acc) ∪ ∅, [] ++ acc))
    as (new & E & S).
  exists new. by rewrite E.
Qed.

Lemma deduplicate_clean l : clean (_deduplicate_results l).
Proof. apply (dedup_foldl_inv l (∅, [])), dedup_inv_empty. Qed.

Lemma deduplicate_sublist l : _deduplicate_results l `sublist_of` l.
Proof.
  unfold _deduplicate_results.
  destruct (dedup_foldl_kept l (∅, [])) as (new & -> & S). done.
Qed.

(** ** Reasoning about runs *)

Section Runs.

Context {World : Type} `{!Capabilities World} `{!Runtime} `{!Settings}.

Local Abbreviation State := (@State World).
Local Abbreviation M := (@M World).
Local Abbreviation traces := (@traces World _).
Local Abbreviation silent := (@silent World _).

Lemma eff_refl (s : State) : eff s s [] [].
Proof. unfold eff. by rewrite !app_nil_r. Qed.

Lemma eff_trans (s1 s2 s3 : State) e1 c1 e2 c2 :
  eff s1 s2 e1 c1 → eff s2 s3 e2 c2 → eff s1 s3 (e1 ++ e2) (c1 ++ c2).
Proof.
  intros (Hs1 & He1 & Hc1) (Hs2 & He2 & Hc2). unfold eff.
  rewrite Hs2, Hs1, He2, He1, Hc2, Hc1, !app_assoc. done.
Qed.

Lemma run_bind {A B} (m : M A) (f : A → M B) s :
  (m ≫= f) s = match m s with
               | (Ok a, s') => f a s'
               | (Raise e, s') => (Raise e, s')
               | (OutOfFuel, s') => (OutOfFuel, s')
               end.
Proof. reflexivity. Qed.

Lemma traces_mono {A} (m : M A) (Φ Ψ : _ → _ → _ → Prop) :
  traces m Φ → (∀ o evs cs, Φ o evs cs → Ψ o evs cs) → traces m Ψ.
Proof.
  intros Hm Himp s. destruct (Hm s) as (evs & cs & He & HΦ). eauto.
Qed.

(** Sequencing: the traces are concatenated. *)
Lemma traces_bind {A B} (m : M A) (f : A → M B) Φ Ψ :
  traces m Φ → (∀ a, traces (f a) (Ψ a)) →
  traces (m ≫= f) (λ o evs cs,
    (∃ a e1 c1 e2 c2, Φ (Ok a) e1 c1 ∧ Ψ a o e2 c2
                      ∧ evs = e1 ++ e2 ∧ cs = c1 ++ c2)
    ∨ (∃ e, o = Raise e ∧ Φ (Raise e) evs cs)
    ∨ (o = OutOfFuel ∧ Φ OutOfFuel evs cs)).
Proof.
  intros Hm Hf s. rewrite run_bind.
  destruct (Hm s) as (e1 & c1 & He1 & HΦ).
  destruct (m s) as [[a|e|] s1]; simpl in *.
  - destruct (Hf a s1) as (e2 & c2 & He2 & HΨ).
    exists (e1 ++ e2), (c1 ++ c2). split; [by eapply eff_trans|].
    left. by exists a, e1, c1, e2, c2.
  - exists e1, c1. split; [done|]. right; left. by exists e.
  - exists e1, c1. split; [done|]. by right; right.
Qed.

Lemma traces_ret {A} (a : A) :
  traces (mret a) (λ o evs cs, o = Ok a ∧ evs = [] ∧ cs = []).
Proof. intros s. exists [], []. split; [apply eff_refl|done]. Qed.

Lemma traces_raise {A} e :
  traces (raise (A:=A) e) (λ o evs cs, o = Raise e ∧ evs = [] ∧ cs = []).
Proof. intros s. exists [], []. split; [apply eff_refl|done]. Qed.

Lemma traces_yield ev :
  traces (yield_ ev) (λ o evs cs, o = Ok () ∧ evs = [ev] ∧ cs = []).
Proof.
  intros s. exists [ev], []. split; [|done].
  unfold eff; simpl. by rewrite app_nil_r.
Qed.

Lemma traces_record_call c :
  traces (record_call c) (λ o evs cs, o = Ok () ∧ evs = [] ∧ cs = [c]).
Proof.
  intros s. exists [], [c]. split; [|done].
  unfold eff; simpl. by rewrite app_nil_r.
Qed.

(** A handler runs after what the body did. *)
Lemma traces_catch {A} (m : M A) (h : exn → M A) Φ Ψ :
  traces m Φ → (∀ e, traces (h e) (Ψ e)) →
  traces (catch m h) (λ o evs cs,
    (∃ e e1 c1 e2 c2, Φ (Raise e) e1 c1 ∧ Ψ e o e2 c2
                      ∧ evs = e1 ++ e2 ∧ cs = c1 ++ c2)
    ∨ ((∀ e, o ≠ Raise e) ∧ Φ o evs cs)).
Proof.
  intros Hm Hh s. unfold catch.
  destruct (Hm s) as (e1 & c1 & He1 & HΦ).
  destruct (m s) as [[a|e|] s1]; simpl in *.
  - exists e1, c1. split; [done|]. by right.
  - destruct (Hh e s1) as (e2 & c2 & He2 & HΨ).
    exists (e1 ++ e2), (c1 ++ c2). split; [by eapply eff_trans|].
    left. by exists e, e1, c1, e2, c2.
  - exists e1, c1. split; [done|]. by right.
Qed.

(** *** Silent computations *)

Lemma silent_ret {A} (a : A) : silent (mret a).
Proof. eapply traces_mono; [apply traces_ret|]. by intros ??? (-> & -> & ->). Qed.

Lemma silent_raise {A} e : silent (raise (A:=A) e).
Proof.
  eapply traces_mono; [apply traces_raise|]. by intros ??? (-> & -> & ->).
Qed.

Lemma silent_reraise {A} (r : Result A) : silent (reraise r).
Proof. destruct r; [apply silent_ret|apply silent_raise]. Qed.

Lemma silent_bind {A B} (m : M A) (f : A → M B) :
  silent m → (∀ a, silent (f a)) → silent (m ≫= f).
Proof.
  intros Hm Hf. eapply traces_mono; [exact (traces_bind m f _
    (λ _ o evs cs, o ≠ OutOfFuel ∧ evs = [] ∧ cs = []) Hm Hf)|].
  intros o evs cs [(a & e1 & c1 & e2 & c2 & (_ & -> & ->) & (? & -> & ->) & -> & ->)
                  |[(e & -> & _ & -> & ->)|(_ & [] & _)]]; done.
Qed.

Lemma silent_catch {A} (m : M A) (h : exn → M A) :
  silent m → (∀ e, silent (h e)) → silent (catch m h).
Proof.
  intros Hm Hh. eapply traces_mono; [exact (traces_catch m h _
    (λ _ o evs cs, o ≠ OutOfFuel ∧ evs = [] ∧ cs = []) Hm Hh)|].
  intros o evs cs [(e & e1 & c1 & e2 & c2 & (_ & -> & ->) & (? & -> & ->) & -> & ->)
                  |(_ & ? & -> & ->)]; done.
Qed.

Lemma silent_attempt {A} (m : M A) : silent m → silent (attempt m).
Proof.
  intros Hm. apply silent_catch.
  - apply silent_bind; [done|]. intros a. apply silent_ret.
  - intros e. apply silent_ret.
Qed.

Lemma silent_ask {A} (f : World → Result A * World) : silent (ask f).
Proof.
  intros s. exists [], []. unfold ask.
  destruct (f (world s)) as [[a|e] w]; simpl;
    (split; [|done]); unfold eff; simpl; by rewrite !app_nil_r.
Qed.

Lemma silent_ask_total {A} (f : World → A * World) : silent (ask_total f).
Proof. apply silent_ask. Qed.

(** *** Stepping through a sequence *)

(** The rule used to walk through the body of a function: what [m] did is
    put in front of what the rest does. *)
Lemma traces_step {A B} (m : M A) (f : A → M B) Φ Ψ :
  traces m Φ →
  (∀ a e1 c1, Φ (Ok a) e1 c1 →
     traces (f a) (λ o e2 c2, Ψ o (e1 ++ e2) (c1 ++ c2))) →
  (∀ e evs cs, Φ (Raise e) evs cs → Ψ (Raise e) evs cs) →
  (∀ evs cs, Φ OutOfFuel evs cs → Ψ OutOfFuel evs cs) →
  traces (m ≫= f) Ψ.
Proof.
  intros Hm Hf Hr Ho s. rewrite run_bind.
  destruct (Hm s) as (e1 & c1 & He1 & HΦ).
  destruct (m s) as [[a|e|] s1]; simpl in *.
  - destruct (Hf a e1 c1 HΦ s1) as (e2 & c2 & He2 & HΨ).
    exists (e1 ++ e2), (c1 ++ c2). split; [by eapply eff_trans|done].
  - exists e1, c1. split; [done|]. by apply Hr.
  - exists e1, c1. split; [done|]. by apply Ho.
Qed.

Lemma traces_silent_step {A B} (m : M A) (f : A → M B) Ψ :
  silent m →
  (∀ a, traces (f a) Ψ) →
  (∀ e, Ψ (Raise e) [] []) →
  traces (m ≫= f) Ψ.
Proof.
  intros Hm Hf Hr. eapply traces_step; [exact Hm|..].
  - intros a e1 c1 (_ & -> & ->). apply Hf.
  - intros e evs cs (_ & -> & ->). apply Hr.
  - by intros evs cs ([] & _).
Qed.

Lemma traces_yield_step {B} ev (f : unit → M B) Ψ :
  traces (f ()) (λ o e2 c2, Ψ o (ev :: e2) c2) →
  traces (yield_ ev ≫= f) Ψ.
Proof.
  intros Hf. eapply traces_step; [apply traces_yield|..].
  - by intros [] e1 c1 (_ & -> & ->).
  - by intros e evs cs (? & _).
  - by intros evs cs (? & _).
Qed.

Lemma traces_record_step {B} c (f : unit → M B) Ψ :
  traces (f ()) (λ o e2 c2, Ψ o e2 (c :: c2)) →
  traces (record_call c ≫= f) Ψ.
Proof.
  intros Hf. eapply traces_step; [apply traces_record_call|..].
  - by intros [] e1 c1 (_ & -> & ->).
  - by intros e evs cs (? & _).
  - by intros evs cs (? & _).
Qed.

Lemma traces_reraise_step {A B} (r : Result A) (f : A → M B) Ψ :
  (∀ a, r = Returned a → traces (f a) Ψ) →
  (∀ e, r = Raised e → Ψ (Raise e) [] []) →
  traces (reraise r ≫= f) Ψ.
Proof.
  intros Hf Hr. destruct r as [a|e].
  - intros s. rewrite run_bind. simpl. by apply Hf.
  - intros s. rewrite run_bind. simpl. exists [], [].
    split; [apply eff_refl|by apply Hr].
Qed.

Lemma traces_ret_intro {A} (a : A) (Ψ : _ → _ → _ → Prop) :
  Ψ (Ok a) [] [] → traces (mret a) Ψ.
Proof.
  intros H'. eapply traces_mono; [apply traces_ret|]. by intros ??? (-> & -> & ->).
Qed.

Lemma traces_raise_intro {A} e (Ψ : _ → _ → _ → Prop) :
  Ψ (Raise e) [] [] → traces (raise (A:=A) e) Ψ.
Proof.
  intros H'. eapply traces_mono; [apply traces_raise|].
  by intros ??? (-> & -> & ->).
Qed.

Lemma traces_yield_intro ev (Ψ : _ → _ → _ → Prop) :
  Ψ (Ok ()) [ev] [] → traces (yield_ ev) Ψ.
Proof.
  intros H'. eapply traces_mono; [apply traces_yield|].
  by intros ??? (-> & -> & ->).
Qed.

(** *** The capabilities of the agent *)

Lemma silent_analyze question section_titles conversation_history provider :
  silent (analyze question section_titles conversation_history provider).
Proof.
  apply silent_bind; [apply silent_attempt, silent_ask|].
  intros [result|e].
  - destruct (json_loads _) as [parsed|e]; [apply silent_reraise|].
    destruct (exc_class e); [apply silent_ret|apply silent_raise].
  - destruct (exc_class e); apply silent_raise.
Qed.

Lemma silent_evaluate question retrieved_content provider :
  silent (evaluate question retrieved_content provider).
Proof.
  apply silent_bind; [apply silent_attempt, silent_ask|].
  intros [result|e].
  - destruct (json_loads _) as [parsed|e]; [apply silent_reraise|].
    destruct (exc_class e); [apply silent_ret|apply silent_raise].
  - destruct (exc_class e); [apply silent_ret|apply silent_raise].
Qed.

Lemma silent_get_section_titles paper_id : silent (_get_section_titles paper_id).
Proof.
  apply silent_catch.
  - apply silent_bind; [apply silent_ask|]. intros a. apply silent_ret.
  - intros e. apply silent_ret.
Qed.

(** A similarity search is recorded once and yields nothing. *)
Lemma traces_search_similar_chunks query_text paper_id top_k section_filter
    embedding_provider embedding_model :
  traces (search_similar_chunks query_text paper_id top_k section_filter
            embedding_provider embedding_model)
    (λ o evs cs, o ≠ OutOfFuel ∧ evs = [] ∧ cs = [SearchCall query_text]).
Proof.
  unfold search_similar_chunks. apply traces_record_step.
  apply traces_silent_step; [apply silent_ask| |done].
  intros query_embedding.
  apply traces_silent_step; [apply silent_ask| |done].
  intros results.
  destruct (filter_given section_filter), results; by apply traces_ret_intro.
Qed.

(** The searches of a round: one call per keyword, in order, up to the
    first that raises; what they return is appended to the evidence. *)
Lemma traces_retrieve_keywords search_keywords paper_id acc :
  traces (retrieve_keywords search_keywords paper_id acc)
    (λ o evs cs,
       evs = [] ∧
       ∃ searched, cs = SearchCall <$> searched
                   ∧ searched `prefix_of` search_keywords
                   ∧ match o with
                     | Ok r => searched = search_keywords
                               ∧ ∃ raw, r = acc ++ raw
                     | Raise _ => True
                     | OutOfFuel => False
                     end).
Proof.
  revert acc. induction search_keywords as [|keyword rest IH]; intros acc.
  - simpl. apply traces_ret_intro. split; [done|]. exists [].
    repeat split; [done|]. exists []. by rewrite app_nil_r.
  - simpl. eapply traces_step; [apply traces_search_similar_chunks|..].
    + intros results e1 c1 (_ & -> & ->).
      eapply traces_mono; [apply IH|].
      intros o evs cs (-> & searched & -> & Hpre & Ho). split; [done|].
      exists (keyword :: searched). repeat split.
      * by apply prefix_cons.
      * destruct o as [r| |]; [|done..].
        destruct Ho as (-> & raw & ->). split; [done|].
        exists (results ++ raw). by rewrite app_assoc.
    + intros e evs cs (_ & -> & ->). split; [done|]. exists [keyword].
      repeat split. by apply prefix_cons, prefix_nil.
    + by intros evs cs ([] & _).
Qed.

(** *** The retrieval loop *)

Lemma progress_event_intro t c :
  t = u "thinking" ∨ t = u "retrieval" ∨ t = u "evaluation" →
  progress_event (event t c).
Proof. done. Qed.

Local Ltac progress_events :=
  repeat first
    [ apply Forall_nil_2
    | apply Forall_cons_2; [apply progress_event_intro; auto|] ].

Lemma searches_then_intro tail searched all_kws cs :
  searched `prefix_of` take 3 all_kws →
  cs = (SearchCall <$> searched) ++ tail →
  searches_then tail cs.
Proof.
  intros Hpre ->. exists searched. split; [done|].
  apply prefix_length in Hpre. rewrite length_take in Hpre. lia.
Qed.

Lemma searches_then_none tail : searches_then tail tail.
Proof. exists []. split; [done|simpl; lia]. Qed.

Lemma traces_round_body paper_id question provider intent_result v :
  traces (round_body paper_id question provider intent_result v)
         (round_spec v).
Proof.
  unfold round_body, round_spec. apply traces_reraise_step.
  2:{ intros e _. split; [constructor|]. exists []. split; [|by left].
      apply searches_then_none. }
  intros kws _. apply traces_yield_step.
  eapply traces_step; [apply traces_retrieve_keywords|..].
  - intros r e1 c1 (-> & searched & -> & Hpre & -> & raw & ->).
    apply traces_yield_step.
    destruct (_deduplicate_results (all_results v ++ raw)) as [|r0 l] eqn:Hd.
    + apply traces_yield_step, traces_ret_intro. simpl.
      split; [progress_events|]. exists []. split.
      { eapply searches_then_intro; [exact Hpre|]. simpl.
        by rewrite ?app_nil_r. }
      split; [done|]. split; [by exists raw|done].
    + apply traces_yield_step, traces_reraise_step.
      2:{ intros e _. simpl. split; [progress_events|]. exists [].
          split; [|by left].
          eapply searches_then_intro; [exact Hpre|]. simpl.
          by rewrite ?app_nil_r. }
      intros context _.
      eapply traces_step; [apply silent_attempt, silent_evaluate|..].
      * intros res e1 c1 (_ & -> & ->). apply traces_record_step.
        apply traces_reraise_step.
        2:{ intros e ->. simpl. split; [progress_events|].
            exists [EvaluateCall None]. split; [|by right].
            eapply searches_then_intro; [exact Hpre|]. simpl.
            by rewrite ?app_nil_r. }
        intros verdict ->.
        destruct (is_sufficient verdict) eqn:Hsuff; [|destruct (_ <? _)];
          (apply traces_yield_step, traces_ret_intro; simpl;
           split; [progress_events|];
           exists [EvaluateCall (Some verdict)]; split;
           [eapply searches_then_intro; [exact Hpre|]; simpl;
            by rewrite ?app_nil_r|];
           split; [done|]; split; [by exists raw|]; split; [done|];
           exists verdict; by rewrite Hsuff).
      * intros e evs cs (_ & -> & ->). split; [progress_events|].
        exists []. split; [|by left].
        eapply searches_then_intro; [exact Hpre|]. by rewrite ?app_nil_r.
      * by intros evs cs ([] & _).
  - intros e evs cs (-> & searched & -> & Hpre & _). split; [progress_events|].
    exists []. split; [|by left].
    eapply searches_then_intro; [exact Hpre|]. by rewrite ?app_nil_r.
  - by intros evs cs (_ & searched & _ & _ & []).
Qed.

Lemma round_trace_of_tail tail r :
  searches_then tail r →
  tail = [] ∨ (∃ verdict, tail = [EvaluateCall verdict]) → round_trace r.
Proof.
  intros Hr [->|[verdict ->]]; [by left|right; by exists verdict].
Qed.

Lemma round_keeps_evidence acc acc' raw :
  acc' = _deduplicate_results (acc ++ raw) →
  clean acc → clean acc' ∧ acc `prefix_of` acc'.
Proof.
  intros -> Hc. split; [apply deduplicate_clean|].
  destruct (deduplicate_app_clean acc raw Hc) as (new & -> & _).
  by apply prefix_app_r.
Qed.

Lemma loop_spec_exit v : loop_spec v (Ok v) [] [].
Proof.
  split; [constructor|]. split; [done|]. exists []. split_and!.
  - done.
  - done.
  - simpl. lia.
  - done.
  - intros v' [= <-]. split; [simpl; lia|done].
Qed.

Lemma traces_retrieval_loop fuel paper_id question provider intent_result v :
  max_retrieval_rounds - current_round v ≤ Z.of_nat fuel →
  traces (retrieval_loop fuel paper_id question provider intent_result v)
         (loop_spec v).
Proof.
  revert v. induction fuel as [|fuel IH]; intros v Hfuel;
    cbn [retrieval_loop];
    destruct ((current_round v <? max_retrieval_rounds)
              && negb (loop_is_sufficient v)) eqn:Hcond.
  - apply andb_true_iff in Hcond as [Hlt%Z.ltb_lt _]. lia.
  - apply traces_ret_intro, loop_spec_exit.
  - apply andb_true_iff in Hcond as [Hlt%Z.ltb_lt Hsuff%negb_true_iff].
    eapply traces_step; [apply traces_round_body|..].
    + intros step e1 c1 (Hev & tail & Hsearch & Hround & (raw & Hraw) & Hstep).
      destruct step as [v1|v1]; simpl in Hround, Hraw.
      * destruct Hstep as (-> & Hnil).
        apply traces_ret_intro. rewrite !app_nil_r.
        split; [done|]. split; [done|]. exists [c1]. split_and!.
        -- simpl. by rewrite app_nil_r.
        -- by left.
        -- simpl. lia.
        -- done.
        -- intros v' [= <-]. split; [simpl; lia|].
           by eapply round_keeps_evidence.
      * destruct Hstep as (Hne & verdict & -> & Hsuff1 & Hres).
        eapply traces_mono; [apply IH; lia|].
        intros o e2 c2 (Hev2 & Ho & rounds & -> & Hrounds & Hlen & Hfirst & Hfin).
        split; [by apply Forall_app|]. split; [done|].
        exists (c1 :: rounds). split_and!.
        -- done.
        -- destruct rounds as [|r rounds]; [right; by exists (Some verdict)|].
           split; [|done]. exists verdict. split; [|done].
           rewrite <- Hsuff1. by apply Hfirst.
        -- destruct rounds; simpl in *; lia.
        -- done.
        -- intros v' ->. destruct (Hfin v' eq_refl) as (Hcr & Hclean).
           split; [simpl; lia|]. intros Hc.
           destruct (round_keeps_evidence _ _ _ Hraw Hc) as (Hc1 & Hp1).
           destruct (Hclean Hc1) as (Hc' & Hp'). split; [done|].
           by etrans.
    + intros e evs cs (Hev & tail & Hsearch & Htail).
      split; [done|]. split; [done|]. exists [cs]. split_and!.
      * simpl. by rewrite app_nil_r.
      * eapply round_trace_of_tail; [done|].
        destruct Htail as [->| ->]; [by left|right; by exists None].
      * simpl. lia.
      * done.
      * done.
    + by intros evs cs (_ & tail & _ & []).
  - apply traces_ret_intro, loop_spec_exit.
Qed.

(** *** Synthesis and commit *)

Lemma traces_forward_chunks stream response_chunks :
  traces (forward_chunks stream response_chunks)
    (λ o evs cs, o = Ok (response_chunks ++ stream)
                 ∧ evs = content_event <$> stream ∧ cs = []).
Proof.
  revert response_chunks. induction stream as [|chunk rest IH];
    intros response_chunks; simpl.
  - apply traces_ret_intro. by rewrite app_nil_r.
  - apply traces_yield_step. eapply traces_mono; [apply IH|].
    intros o evs cs (-> & -> & ->). by rewrite <- app_assoc.
Qed.

Lemma traces_synthesize question provider session all_results :
  traces (synthesize question provider session all_results)
         (synthesis_spec all_results).
Proof.
  unfold synthesize, synthesis_spec. destruct all_results as [|r0 l].
  - apply traces_yield_step, traces_ret_intro. split; [done|].
    exists [NOT_FOUND_ANSWER]. split_and!; try done.
    intros answer [= <-]. symmetry. apply (app_nil_r NOT_FOUND_ANSWER).
  - apply traces_reraise_step.
    2:{ intros e _. split; [done|]. exists []. split_and!; try done.
        by left. }
    intros context _. apply traces_record_step.
    apply traces_silent_step; [apply silent_ask| |].
    2:{ intros e. split; [done|]. exists []. split_and!; try done.
        by right. }
    intros reply.
    eapply traces_step; [apply traces_forward_chunks|..].
    + intros response_chunks e1 c1 ([= <-] & -> & ->). simpl.
      destruct (failure reply) as [e|].
      * apply traces_raise_intro. split; [done|]. exists response_chunks.
        rewrite app_nil_r. split_and!; [done|done|by right].
      * apply traces_ret_intro. split; [done|]. exists response_chunks.
        rewrite app_nil_r. split_and!; [done| |by right].
        by intros answer [= <-].
    + by intros e evs cs (? & _).
    + by intros evs cs (? & _).
Qed.

(** The commit always succeeds; it yields the sources and [done] and
    rewrites the history of the session, and of no other. *)
Lemma run_commit question answer session_id all_results (s : State) :
  ∃ t1 t2 w,
    run (commit question answer session_id all_results) s
    = (Ok (),
       {| world := w;
          sessions := alter (committed question answer t1 t2) session_id
                        (sessions s);
          events := events s
                    ++ [sources_event (source_entry <$> take 5 all_results);
                        done_event];
          calls := calls s |}).
Proof.
  unfold run, commit.
  cbv [mbind M_bind yield_ ask_total ask update_session get_sessions
       set_sessions mret M_ret]. simpl.
  destruct (datetime_now (world s)) as [t1 w1]. simpl.
  destruct (datetime_now w1) as [t2 w2]. simpl.
  exists t1, t2, w2. do 2 f_equal.
  - rewrite !alter_alter_eq. apply alter_ext. intros h _.
    unfold committed, set_messages, compose. simpl.
    by rewrite <- app_assoc.
  - by rewrite <- app_assoc.
Qed.

(** *** The whole exchange *)

Lemma traces_intent_phase paper_id question provider session :
  traces (intent_phase paper_id question provider session)
    (λ o evs cs, o ≠ OutOfFuel ∧ Forall progress_event evs
                 ∧ (∀ intent_result, o = Ok intent_result →
                    cs = [IntentCall])).
Proof.
  unfold intent_phase. apply traces_yield_step.
  apply traces_silent_step; [apply silent_get_section_titles| |].
  2:{ intros e. split; [done|]. split; [progress_events|done]. }
  intros section_titles. apply traces_record_step.
  apply traces_silent_step; [apply silent_analyze| |].
  2:{ intros e. split; [done|]. split; [progress_events|done]. }
  intros intent_result. apply traces_yield_step, traces_ret_intro.
  split; [done|]. split; [progress_events|done].
Qed.

Lemma exchange_run paper_id question session_id provider session s :
  exchange_spec question session_id s
    (run (exchange paper_id question session_id provider session) s).
Proof.
  unfold exchange, exchange_spec, run. rewrite run_bind.
  destruct (traces_intent_phase paper_id question provider session s)
    as (e1 & c1 & (Hs1 & He1 & _) & Ho1 & Hp1 & _).
  destruct (intent_phase _ _ _ _ s) as [[intent_result|e|] s1];
    simpl in *; [| |done].
  2:{ exists e1, []. simpl. by rewrite app_nil_r. }
  rewrite run_bind.
  destruct (traces_retrieval_loop (Z.to_nat max_retrieval_rounds) paper_id
              question provider intent_result initial_vars
              ltac:(simpl; lia) s1)
    as (e2 & c2 & (Hs2 & He2 & _) & Hp2 & Ho2 & rounds & _ & _ & _ & _ & Hfin).
  destruct (retrieval_loop _ _ _ _ _ _ s1) as [[v|e|] s2];
    simpl in *; [| |done].
  2:{ exists (e1 ++ e2), []. split; [by apply Forall_app|]. simpl.
      rewrite app_nil_r, Hs2, He2, He1, app_assoc. done. }
  destruct (Hfin v eq_refl) as (_ & Hclean).
  destruct (Hclean clean_nil) as (Hclean_v & _).
  rewrite run_bind.
  destruct (traces_synthesize question provider session (all_results v) s2)
    as (e3 & c3 & (Hs3 & He3 & _) & Ho3 & increments & -> & Hanswer & _).
  destruct (synthesize _ _ _ _ s2) as [[answer|e|] s3];
    simpl in *; [| |done].
  2:{ exists (e1 ++ e2), increments. split; [by apply Forall_app|]. simpl.
      rewrite Hs3, Hs2, He3, He2, He1, !app_assoc. done. }
  destruct (run_commit question answer session_id (all_results v) s3)
    as (t1 & t2 & w & Hrun). unfold run in Hrun. rewrite Hrun. simpl.
  exists (e1 ++ e2), increments. split; [by apply Forall_app|].
  exists (all_results v), t1, t2. split; [done|].
  rewrite (Hanswer answer eq_refl), Hs3, Hs2, Hs1, He3, He2, He1.
  by rewrite !app_assoc.
Qed.

Lemma chat_stream_resolved (paper_id question : pystr)
    (provider : option pystr) (sid : pystr) (s1 s : State)
    (store : gmap pystr ChatHistory) :
  sessions s1 = store → events s1 = events s →
  let r := run (session ← get_session sid;
                match session with
                | Some session =>
                    if decide (h_paper_id session ≠ paper_id) then
                      yield_ (event (u "error") (u "会话无效或论文不匹配"))
                    else
                      catch (exchange paper_id question sid provider session)
                            (λ e, yield_ (event (u "error") (exc_str e)))
                | None => yield_ (event (u "error") (u "会话无效或论文不匹配"))
                end) s1 in
  r.1 = Ok () ∧
  ∃ pre increments,
    Forall progress_event pre ∧
    ((∃ final t1 t2,
        clean final ∧ is_Some (store !! sid)
        ∧ events r.2
          = events s ++ pre ++ (content_event <$> increments)
            ++ [sources_event (source_entry <$> take 5 final); done_event]
        ∧ sessions r.2
          = alter (committed question (concat increments) t1 t2) sid store)
     ∨ (∃ msg,
          events r.2
          = events s ++ pre ++ (content_event <$> increments)
            ++ [error_event msg]
          ∧ sessions r.2 = store)).
Proof.
  intros Hstore Hevents. unfold run. rewrite run_bind.
  cbv [get_session get_sessions mbind M_bind mret M_ret]. rewrite Hstore.
  assert (∀ msg, let r := yield_ (event (u "error") msg) s1 in
            r.1 = Ok () ∧
            ∃ pre increments, Forall progress_event pre ∧
              ((∃ final t1 t2,
                  clean final ∧ is_Some (store !! sid)
                  ∧ events r.2
                    = events s ++ pre ++ (content_event <$> increments)
                      ++ [sources_event (source_entry <$> take 5 final);
                          done_event]
                  ∧ sessions r.2
                    = alter (committed question (concat increments) t1 t2)
                        sid store)
               ∨ (∃ msg0,
                    events r.2
                    = events s ++ pre ++ (content_event <$> increments)
                      ++ [error_event msg0]
                    ∧ sessions r.2 = store))) as Hinvalid.
  { intros msg. simpl. split; [done|]. exists [], []. split; [constructor|].
    right. exists msg. by rewrite Hevents. }
  destruct (store !! sid) as [session|] eqn:Hsession; [|apply Hinvalid].
  destruct (decide (h_paper_id session ≠ paper_id)); [apply Hinvalid|].
  unfold catch.
  pose proof (exchange_run paper_id question sid provider session s1)
    as (pre & increments & Hpre & Hex).
  unfold run in Hex.
  destruct (exchange paper_id question sid provider session s1)
    as [[[]|e|] s2]; simpl in *; [| |done].
  - destruct Hex as (final & t1 & t2 & Hclean & Hev & Hsess).
    split; [done|]. exists pre, increments. split; [done|]. left.
    exists final, t1, t2. rewrite Hev, Hsess, Hstore, Hevents.
    split_and!; [done|by eexists|done|done].
  - destruct Hex as (Hev & Hsess). split; [done|].
    exists pre, increments. split; [done|]. right. exists (exc_str e).
    rewrite Hev, Hsess, Hstore, Hevents, <- !app_assoc. done.
Qed.

Lemma run_create_session paper_id (s : State) :
  create_session paper_id s
  = (Ok (uuid4 (world s)).1,
     {| world := (datetime_now (uuid4 (world s)).2).2;
        sessions := (resolved paper_id None s).2;
        events := events s; calls := calls s |}).
Proof.
  unfold resolved.
  cbv [create_session ask_total ask get_sessions set_sessions
       mbind M_bind mret M_ret]. simpl.
  destruct (uuid4 (world s)) as [sid w]. simpl.
  by destruct (datetime_now w) as [now w'].
Qed.

Lemma resolved_empty paper_id (s : State) :
  resolved paper_id (Some []) s = resolved paper_id None s.
Proof. done. Qed.

Lemma resolved_created paper_id (s : State) :
  (resolved paper_id None s).1 = (uuid4 (world s)).1.
Proof. unfold resolved. by destruct (uuid4 (world s)). Qed.

Lemma chat_stream_run paper_id question session_id provider s :
  chat_stream_spec paper_id question session_id s
    (run (chat_stream paper_id question session_id provider) s).
Proof.
  unfold chat_stream_spec, chat_stream, run.
  destruct session_id as [[|c sid]|].
  2:{ exact (chat_stream_resolved paper_id question provider (c :: sid) s s
               (sessions s) eq_refl eq_refl). }
  all: rewrite run_bind, run_create_session, ?resolved_empty, resolved_created;
    exact (chat_stream_resolved paper_id question provider _
             {| world := _; sessions := _; events := _; calls := _ |} s
             _ eq_refl eq_refl).
Qed.

(** ** The claims *)

Lemma truthy_has_id r : truthy_id r = true → has_id (chunk_id r).
Proof.
  unfold truthy_id. destruct (chunk_id r) as [[|c cid]|]; [done| |done].
  intros _. by exists (c :: cid).
Qed.

Lemma round_result_deduplicated paper_id question provider intent_result v
    (s : State) step :
  (run (round_body paper_id question provider intent_result v) s).1
  = Ok step →
  ∃ raw, all_results (step_vars step)
         = _deduplicate_results (all_results v ++ raw).
Proof.
  intros Hrun.
  destruct (traces_round_body paper_id question provider intent_result v s)
    as (evs & cs & _ & _ & tail & _ & Ho).
  unfold run in Hrun. rewrite Hrun in Ho. by destruct Ho as (_ & Hraw & _).
Qed.

Lemma after_rounds_clean paper_id question provider intent_result v v' :
  after_rounds paper_id question provider intent_result v v' →
  clean (all_results v) →
  clean (all_results v') ∧ all_results v `prefix_of` all_results v'.
Proof.
  induction 1 as [v|v s step v' Hrun _ IH]; intros Hc; [done|].
  destruct (round_result_deduplicated _ _ _ _ _ _ _ Hrun) as (raw & Hraw).
  destruct (round_keeps_evidence _ _ _ Hraw Hc) as (Hc1 & Hp1).
  destruct (IH Hc1) as (Hc' & Hp'). split; [done|by etrans].
Qed.

(** C3. At every point [v] of any sequence of rounds of an exchange, and at
    every later point [v'], the accumulated evidence holds no fragment id
    twice, and the evidence at [v] is still there at [v'], as the first
    entries of the list: a round only adds fragments, so the number of
    fragments never decreases. *)
Theorem evidence_only_grows paper_id question provider intent_result v v' :
  after_rounds paper_id question provider intent_result initial_vars v →
  after_rounds paper_id question provider intent_result v v' →
  NoDup (chunk_id <$> all_results v)
  ∧ NoDup (chunk_id <$> all_results v')
  ∧ all_results v `prefix_of` all_results v'
  ∧ (length (all_results v) ≤ length (all_results v'))%nat.
Proof.
  intros Hv Hv'.
  destruct (after_rounds_clean _ _ _ _ _ _ Hv clean_nil) as ((_ & Hnd) & _).
  destruct (after_rounds_clean _ _ _ _ _ _ Hv' (conj
    (proj1 (proj1 (after_rounds_clean _ _ _ _ _ _ Hv clean_nil))) Hnd))
    as ((_ & Hnd') & Hpre).
  split_and!; try done. by apply prefix_length.
Qed.

(** C4. The retrieval loop of an exchange finishes within the rounds it is
    given; its calls split into at most [max_retrieval_rounds] rounds (none
    when that setting is not positive), each made of at most three searches
    followed by at most one evaluation, and every round but the last ended
    with an insufficient verdict: the first sufficient verdict ends the
    loop.  When the loop returns, its round counter is the number of rounds
    run. *)
Theorem retrieval_loop_bounded paper_id question provider intent_result
    (s : State) :
  let r := run (retrieval_loop (Z.to_nat max_retrieval_rounds) paper_id
                  question provider intent_result initial_vars) s in
  r.1 ≠ OutOfFuel
  ∧ ∃ rounds,
      calls r.2 = calls s ++ concat rounds
      ∧ Z.of_nat (length rounds) ≤ Z.max 0 max_retrieval_rounds
      ∧ rounds_trace rounds
      ∧ ∀ v, r.1 = Ok v → current_round v = Z.of_nat (length rounds).
Proof.
  intros r. subst r. unfold run.
  destruct (traces_retrieval_loop (Z.to_nat max_retrieval_rounds) paper_id
              question provider intent_result initial_vars
              ltac:(simpl; lia) s)
    as (evs & cs & (_ & _ & Hcalls) & _ & Ho & rounds & -> & Hrounds & Hlen
        & _ & Hfin).
  split; [done|]. exists rounds. split_and!; try done.
  - simpl in Hlen. by rewrite Z.sub_0_r in Hlen.
  - intros v Hv. by destruct (Hfin v Hv) as (-> & _).
Qed.

Lemma progress_not_terminal ev : progress_event ev → ¬ terminal_event ev.
Proof. intros [H1|[H1|H1]] [H2|H2]; rewrite H1 in H2; by vm_compute in H2. Qed.

Lemma content_not_terminal c : ¬ terminal_event (content_event c).
Proof. intros [H1|H1]; by vm_compute in H1. Qed.

Lemma sources_not_terminal l : ¬ terminal_event (sources_event l).
Proof. intros [H1|H1]; by vm_compute in H1. Qed.

Lemma body_not_terminal pre increments tail :
  Forall progress_event pre →
  Forall (λ ev, ¬ terminal_event ev) tail →
  Forall (λ ev, ¬ terminal_event ev)
         (pre ++ (content_event <$> increments) ++ tail).
Proof.
  intros Hpre Htail. apply Forall_app. split.
  - eapply Forall_impl; [done|]. apply progress_not_terminal.
  - apply Forall_app. split; [|done]. apply Forall_fmap, Forall_true.
    intros c. apply content_not_terminal.
Qed.

Lemma history_created paper_id (s : State) k :
  sessions s !! (uuid4 (world s)).1 = None →
  history (resolved paper_id None s).2 k = history (sessions s) k.
Proof.
  unfold resolved, history. destruct (uuid4 (world s)) as [sid w]. simpl.
  intros Hfresh. destruct (decide (sid = k)) as [->|Hne].
  - by rewrite lookup_insert_eq, Hfresh.
  - by rewrite lookup_insert_ne.
Qed.

(** C1. A call of [chat_stream] runs to its end and yields exactly one
    terminal event, as its last event: [done] or [error].  When it is
    [error], every session has the history it had before the call (a session
    created by the call, under a fresh uuid, has the empty history). *)
Theorem chat_stream_one_terminal_event paper_id question session_id provider
    (s : State) :
  (session_id = None ∨ session_id = Some [] →
   sessions s !! (uuid4 (world s)).1 = None) →
  let r := run (chat_stream paper_id question session_id provider) s in
  r.1 = Ok ()
  ∧ ∃ body final_event,
      events r.2 = events s ++ body ++ [final_event]
      ∧ Forall (λ ev, ¬ terminal_event ev) body
      ∧ terminal_event final_event
      ∧ (type final_event = u "error" →
         ∀ k, history (sessions r.2) k = history (sessions s) k).
Proof.
  intros Hfresh r. subst r.
  destruct (chat_stream_run paper_id question session_id provider s)
    as (Hok & pre & increments & Hpre & Hcases).
  split; [done|].
  destruct Hcases as [(final & t1 & t2 & _ & _ & Hev & _)|(msg & Hev & Hsess)].
  - exists (pre ++ (content_event <$> increments)
            ++ [sources_event (source_entry <$> take 5 final)]), done_event.
    split_and!.
    + rewrite Hev. by rewrite <- !app_assoc.
    + apply body_not_terminal; [done|]. constructor; [|constructor].
      apply sources_not_terminal.
    + by left.
    + intros Herr. by vm_compute in Herr.
  - exists (pre ++ (content_event <$> increments) ++ []), (error_event msg).
    split_and!.
    + rewrite Hev. by rewrite <- !app_assoc.
    + apply body_not_terminal; [done|constructor].
    + by right.
    + intros _ k. rewrite Hsess.
      destruct session_id as [[|c sid]|]; [| done |].
      * rewrite resolved_empty. apply history_created, Hfresh. by right.
      * apply history_created, Hfresh. by left.
Qed.

Lemma content_payloads_app l1 l2 :
  content_payloads (l1 ++ l2) = content_payloads l1 ++ content_payloads l2.
Proof. apply omap_app. Qed.

Lemma content_payloads_cons ev l :
  content_payloads (ev :: l)
  = match (if decide (type ev = u "content")
           then match content ev with CStr c => Some c | _ => None end
           else None) with
    | Some c => c :: content_payloads l
    | None => content_payloads l
    end.
Proof. reflexivity. Qed.

Lemma content_payloads_progress pre :
  Forall progress_event pre → content_payloads pre = [].
Proof.
  induction 1 as [|ev pre Hev _ IH]; [done|].
  rewrite content_payloads_cons, IH.
  destruct (decide (type ev = u "content")) as [Hc|]; [|done].
  destruct Hev as [H1|[H1|H1]]; rewrite H1 in Hc; by vm_compute in Hc.
Qed.

Lemma content_payloads_content increments :
  content_payloads (content_event <$> increments) = increments.
Proof.
  induction increments as [|c l IH]; [done|].
  by rewrite fmap_cons, content_payloads_cons, IH.
Qed.

Lemma last_trim_history (m : list ChatMessage) x y :
  last (trim_history (m ++ [x; y])) = Some y.
Proof.
  unfold trim_history, lastn. destruct (20 <? _)%nat eqn:Hlen.
  - apply Nat.ltb_lt in Hlen. rewrite length_app in *. simpl in *.
    rewrite drop_app_le by lia.
    change [x; y] with ([x] ++ [y]). by rewrite !app_assoc, last_snoc.
  - change [x; y] with ([x] ++ [y]). by rewrite !app_assoc, last_snoc.
Qed.

(** C2. When the stream of an exchange ends with [done], the session of the
    exchange ends with the assistant message of this turn, and the content
    of that message is the concatenation, in the order of emission, of the
    payloads of the [content] events of the stream. *)
Theorem content_events_spell_the_answer paper_id question session_id provider
    (s : State) body :
  let r := run (chat_stream paper_id question session_id provider) s in
  events r.2 = events s ++ body ++ [done_event] →
  ∃ h answer,
    sessions r.2 !! (resolved paper_id session_id s).1 = Some h
    ∧ last (messages h) = Some answer
    ∧ role answer = u "assistant"
    ∧ msg_content answer = concat (content_payloads (body ++ [done_event])).
Proof.
  intros r Hdone. subst r.
  destruct (chat_stream_run paper_id question session_id provider s)
    as (Hok & pre & increments & Hpre & Hcases).
  destruct Hcases as [(final & t1 & t2 & _ & [h0 Hh0] & Hev & Hsess)
                     |(msg & Hev & Hsess)].
  - rewrite Hev in Hdone. apply app_inv_head in Hdone. rewrite <- Hdone.
    rewrite Hsess, lookup_alter_eq, Hh0. simpl.
    eexists _, _. split_and!; [done|apply last_trim_history|done|].
    simpl. rewrite !content_payloads_app, content_payloads_progress by done.
    rewrite content_payloads_content. simpl. by rewrite app_nil_r.
  - rewrite Hev in Hdone. apply app_inv_head in Hdone.
    rewrite !app_assoc in Hdone. apply app_inj_tail in Hdone as [_ Hdone].
    by vm_compute in Hdone.
Qed.

(** C6. The commit of an exchange adds the user message and then the
    assistant message to the history of the session, and keeps the last 20
    messages of the result: the history holds at most 20 messages
    afterwards, and what is dropped is a prefix, the oldest messages. *)
Theorem commit_keeps_last_20 question answer session_id all_results
    (s : State) :
  ∃ t1 t2,
    sessions (run (commit question answer session_id all_results) s).2
    = alter (committed question answer t1 t2) session_id (sessions s)
    ∧ ∀ h,
        let appended :=
          messages h
          ++ [user_message question t1; assistant_message answer t2] in
        messages (committed question answer t1 t2 h)
        = drop (length appended - 20) appended
        ∧ (length (messages (committed question answer t1 t2 h)) ≤ 20)%nat
        ∧ length (messages (committed question answer t1 t2 h))
          = (length appended `min` 20)%nat.
Proof.
  destruct (run_commit question answer session_id all_results s)
    as (t1 & t2 & w & ->).
  exists t1, t2. split; [done|]. intros h appended.
  assert (messages (committed question answer t1 t2 h)
          = drop (length appended - 20) appended) as ->.
  { unfold committed, set_messages, trim_history, lastn. simpl.
    fold appended. destruct (20 <? length appended)%nat eqn:Hlen; [done|].
    apply Nat.ltb_ge in Hlen.
    replace (length appended - 20)%nat with 0%nat by lia. done. }
  rewrite length_drop. split_and!; [done|lia|lia].
Qed.

Lemma deduplicate_has_id all_results :
  Forall (λ r, has_id (chunk_id r)) (_deduplicate_results all_results).
Proof.
  destruct (deduplicate_clean all_results) as [Hall _].
  eapply Forall_impl; [exact Hall|]. apply truthy_has_id.
Qed.

Lemma run_bind_ok {A B} (m : M A) (f : A → M B) (s : State) a s' :
  m s = (Ok a, s') → (m ≫= f) s = f a s'.
Proof. intros Hm. by rewrite run_bind, Hm. Qed.

Lemma run_yield ev (s : State) :
  yield_ ev s = (Ok (), {| world := world s; sessions := sessions s;
                           events := events s ++ [ev]; calls := calls s |}).
Proof. reflexivity. Qed.

Lemma run_ask {A} (f : World → Result A * World) (s : State) :
  ask f s
  = (match (f (world s)).1 with Returned a => Ok a | Raised e => Raise e end,
     {| world := (f (world s)).2; sessions := sessions s;
        events := events s; calls := calls s |}).
Proof. unfold ask. by destruct (f (world s)). Qed.

(** *** Runs of a round *)

Lemma run_attempt {A} (m : M A) (s : State) :
  attempt m s
  = match m s with
    | (Ok a, s') => (Ok (Returned a), s')
    | (Raise e, s') => (Ok (Raised e), s')
    | (OutOfFuel, s') => (OutOfFuel, s')
    end.
Proof.
  unfold attempt, catch. cbv [mbind M_bind mret M_ret].
  by destruct (m s) as [[a|e|] s'].
Qed.

(** A round whose searches raise, raises. *)
Lemma round_body_retrieval_raises paper_id question provider intent_result v
    (s s1 : State) ks e :
  round_keywords question intent_result (current_round v + 1)
    (evaluation_result v) = Returned ks →
  run (retrieve_keywords (take 3 ks) paper_id (all_results v))
      (run (yield_ (round_header (current_round v + 1) ks)) s).2
  = (Raise e, s1) →
  run (round_body paper_id question provider intent_result v) s
  = (Raise e, s1).
Proof.
  intros Hks Hretrieve. unfold run, round_body in *. rewrite Hks.
  erewrite run_bind_ok; [|reflexivity].
  erewrite run_bind_ok; [|apply run_yield].
  rewrite run_yield in Hretrieve. simpl in Hretrieve.
  by rewrite run_bind, Hretrieve.
Qed.

(** A round after its searches: it calls nothing but the evaluation, once at
    most, and the evidence it leaves is the deduplicated list. *)
Lemma round_body_after_retrieval paper_id question provider intent_result v
    (s s1 : State) ks raw :
  round_keywords question intent_result (current_round v + 1)
    (evaluation_result v) = Returned ks →
  run (retrieve_keywords (take 3 ks) paper_id (all_results v))
      (run (yield_ (round_header (current_round v + 1) ks)) s).2
  = (Ok raw, s1) →
  let r := run (round_body paper_id question provider intent_result v) s in
  r.1 ≠ OutOfFuel
  ∧ (∃ tail, calls r.2 = calls s1 ++ tail
             ∧ (tail = [] ∨ ∃ verdict, tail = [EvaluateCall verdict]))
  ∧ (∀ step, r.1 = Ok step →
             all_results (step_vars step) = _deduplicate_results raw).
Proof.
  intros Hks Hretrieve r. subst r. unfold run, round_body in *. rewrite Hks.
  erewrite run_bind_ok; [|reflexivity].
  erewrite run_bind_ok; [|apply run_yield].
  rewrite run_yield in Hretrieve. simpl in Hretrieve.
  erewrite run_bind_ok; [|exact Hretrieve]. cbv zeta.
  erewrite run_bind_ok; [|apply run_yield].
  destruct (_deduplicate_results raw) as [|r0 l] eqn:Hd.
  { erewrite run_bind_ok; [|apply run_yield]. simpl.
    split_and!; [done| |by intros step [= <-]].
    exists []. rewrite app_nil_r. split; [done|by left]. }
  erewrite run_bind_ok; [|apply run_yield].
  destruct (_format_context (r0 :: l)) as [context|e] eqn:Hcontext.
  2:{ simpl. split_and!; [done| |done].
      exists []. rewrite app_nil_r. split; [done|by left]. }
  erewrite run_bind_ok; [|reflexivity].
  rewrite run_bind, run_attempt.
  match goal with
  | |- context [evaluate ?q ?c ?p ?st] =>
      destruct (silent_evaluate q c p st)
        as (evs & cs & (_ & _ & Hcalls) & Ho & _ & ->);
      destruct (evaluate q c p st) as [[verdict|e|] s3]
  end; simpl in Hcalls, Ho; [| |done].
  - rewrite app_nil_r in Hcalls.
    cbv [mbind M_bind mret M_ret yield_ record_call reraise].
    destruct (is_sufficient verdict);
      [|destruct (current_round v + 1 <? max_retrieval_rounds)];
      cbn [fst snd calls step_vars all_results]; rewrite Hcalls;
      (split_and!; [done| |by intros step [= <-]]);
      exists [EvaluateCall (Some verdict)]; (split; [done|]); right;
      by eexists.
  - rewrite app_nil_r in Hcalls.
    cbv [mbind M_bind mret M_ret yield_ record_call reraise raise].
    cbn [fst snd calls]. rewrite Hcalls.
    split_and!; [done| |done].
    exists [EvaluateCall None]. split; [done|]. right. by eexists.
Qed.

(** A round that reaches the evaluation ends as the evaluation does: with
    its verdict as the state of the loop, or with its exception. *)
Lemma round_body_evaluated paper_id question provider intent_result v
    (s s1 : State) ks raw context :
  round_keywords question intent_result (current_round v + 1)
    (evaluation_result v) = Returned ks →
  run (retrieve_keywords (take 3 ks) paper_id (all_results v))
      (run (yield_ (round_header (current_round v + 1) ks)) s).2
  = (Ok raw, s1) →
  _deduplicate_results raw ≠ [] →
  _format_context (_deduplicate_results raw) = Returned context →
  match (run (evaluate question context provider)
           {| world := world s1; sessions := sessions s1;
              events := events s1
                        ++ [found_event (_deduplicate_results raw);
                            event (u "thinking") (u "正在评估信息完备性...")];
              calls := calls s1 |}).1 with
  | Ok verdict =>
      (run (round_body paper_id question provider intent_result v) s).1
      = Ok (Continue {| all_results := _deduplicate_results raw;
                        current_round := current_round v + 1;
                        loop_is_sufficient := is_sufficient verdict;
                        evaluation_result := Some verdict |})
  | Raise e =>
      (run (round_body paper_id question provider intent_result v) s).1
      = Raise e
  | OutOfFuel => False
  end.
Proof.
  intros Hks Hretrieve Hne Hcontext. unfold run, round_body in *.
  rewrite Hks.
  erewrite run_bind_ok; [|reflexivity].
  erewrite run_bind_ok; [|apply run_yield].
  rewrite run_yield in Hretrieve. simpl in Hretrieve.
  erewrite run_bind_ok; [|exact Hretrieve]. cbv zeta.
  erewrite run_bind_ok; [|apply run_yield].
  destruct (_deduplicate_results raw) as [|r0 l] eqn:Hd; [done|].
  erewrite run_bind_ok; [|apply run_yield].
  rewrite Hcontext. erewrite run_bind_ok; [|reflexivity].
  rewrite run_bind, run_attempt. cbn [world sessions events calls].
  rewrite <- (app_assoc (events s1)). cbn [app].
  match goal with
  | |- context [evaluate ?q ?c ?p ?st] =>
      destruct (silent_evaluate q c p st) as (evs & cs & _ & Ho & _);
      destruct (evaluate q c p st) as [[verdict|e|] s3]
  end; cbn [fst] in *; [| |done].
  - cbv [mbind M_bind mret M_ret yield_ record_call reraise].
    destruct (is_sufficient verdict); [done|].
    by destruct (current_round v + 1 <? max_retrieval_rounds).
  - done.
Qed.

(** The session that a commit has rewritten, written out. *)
Lemma committed_stored (question answer : pystr) (t1 t2 : Z)
    (session_id : pystr) (store : gmap pystr ChatHistory)
    (session : ChatHistory) :
  store !! session_id = Some session →
  alter (committed question answer t1 t2) session_id store
  = <[session_id :=
        {| h_session_id := h_session_id session;
           h_paper_id := h_paper_id session;
           messages :=
             lastn 20
               (messages session
                ++ [{| role := u "user"; msg_content := question;
                       timestamp := t1 |};
                    {| role := u "assistant"; msg_content := answer;
                       timestamp := t2 |}]);
           h_created_at := h_created_at session |}]> store.
Proof.
  intros Hsession. apply map_eq. intros k.
  destruct (decide (session_id = k)) as [<-|Hne].
  - rewrite lookup_alter_eq, lookup_insert_eq, Hsession. simpl. f_equal.
    unfold committed, set_messages, trim_history, user_message,
      assistant_message. simpl. f_equal.
    destruct (20 <? _)%nat eqn:Hlen; [done|].
    apply Nat.ltb_ge in Hlen. unfold lastn.
    by replace (length _ - 20)%nat with 0%nat by lia.
  - by rewrite lookup_alter_ne, lookup_insert_ne.
Qed.

(** *** The claims about the capabilities and the rounds *)

(** C5. When the searches of round 1 leave the evidence empty, the
    exchange goes on without any further call: it reports that nothing was
    retrieved, yields the canned answer as its one [content] event, yields
    [sources] with the empty list, stores the turn and ends with [done].
    What is stored under the session id afterwards is the session with its
    messages followed by the question, as a user message, and the canned
    answer, as an assistant message, cut to the last 20.  Its calls are the
    intent analysis and the searches of that round: no evaluation, and no
    synthesis by the model.  In any round, a step that leaves the evidence
    empty is a break, made after searches only. *)
Theorem empty_evidence_path paper_id question session_id provider session
    (s s1 s2 : State) intent_result raw :
  0 < max_retrieval_rounds →
  sessions s !! session_id = Some session →
  run (intent_phase paper_id question provider session) s
  = (Ok intent_result, s1) →
  run (retrieve_keywords (take 3 (keywords intent_result)) paper_id [])
      (run (yield_ (round_header 1 (keywords intent_result))) s1).2
  = (Ok raw, s2) →
  _deduplicate_results raw = [] →
  (∃ t1 t2 w,
     run (exchange paper_id question session_id provider session) s
     = (Ok (),
        {| world := w;
           sessions :=
             <[session_id :=
                 {| h_session_id := h_session_id session;
                    h_paper_id := h_paper_id session;
                    messages :=
                      lastn 20
                        (messages session
                         ++ [{| role := u "user"; msg_content := question;
                                timestamp := t1 |};
                             {| role := u "assistant";
                                msg_content := NOT_FOUND_ANSWER;
                                timestamp := t2 |}]);
                    h_created_at := h_created_at session |}]> (sessions s);
           events := events s2
                     ++ [found_event []; nothing_found_event;
                         content_event NOT_FOUND_ANSWER; sources_event [];
                         done_event];
           calls := calls s
                    ++ IntentCall
                       :: (SearchCall <$> take 3 (keywords intent_result))
        |}))
  ∧ ∀ v (s' : State) step,
      (run (round_body paper_id question provider intent_result v) s').1
      = Ok step →
      all_results (step_vars step) = [] →
      step = Break (step_vars step)
      ∧ searches_then []
          (drop (length (calls s'))
             (calls (run (round_body paper_id question provider
                            intent_result v) s').2)).
Proof.
  intros Hmax Hsession Hintent Hretrieve Hempty. split.
  - assert (calls s2
            = calls s ++ IntentCall
              :: (SearchCall <$> take 3 (keywords intent_result))
            ∧ sessions s2 = sessions s) as [Hcalls Hsessions].
    { destruct (traces_intent_phase paper_id question provider session s)
        as (e1 & c1 & (Hs1 & _ & Hc1) & _ & _ & Hcs).
      unfold run in Hintent. rewrite Hintent in Hs1, Hc1, Hcs.
      simpl in Hs1, Hc1. rewrite (Hcs _ eq_refl) in Hc1.
      destruct (traces_retrieve_keywords
                  (take 3 (keywords intent_result)) paper_id []
                  (run (yield_ (round_header 1 (keywords intent_result)))
                     s1).2)
        as (e2 & c2 & (Hs2 & _ & Hc2) & _ & searched & -> & _ & Ho).
      unfold run in Hretrieve, Hs2, Hc2, Ho.
      rewrite Hretrieve in Hs2, Hc2, Ho.
      destruct Ho as (-> & _). simpl in Hs2, Hc2. split.
      - by rewrite Hc2, Hc1, <- app_assoc.
      - by rewrite Hs2, Hs1. }
    assert (run (retrieval_loop (Z.to_nat max_retrieval_rounds) paper_id
                   question provider intent_result initial_vars) s1
            = (Ok {| all_results := []; current_round := 1;
                     loop_is_sufficient := false;
                     evaluation_result := None |},
               {| world := world s2; sessions := sessions s2;
                  events := events s2
                            ++ [found_event []; nothing_found_event];
                  calls := calls s2 |})) as Hloop.
    { destruct (Z.to_nat max_retrieval_rounds) as [|fuel] eqn:Hfuel; [lia|].
      cbn [retrieval_loop]. simpl (current_round initial_vars).
      simpl (loop_is_sufficient initial_vars).
      rewrite (proj2 (Z.ltb_lt 0 max_retrieval_rounds) Hmax). simpl andb.
      cbv iota. unfold run, round_body.
      erewrite run_bind_ok; [|erewrite run_bind_ok; [|reflexivity]].
      2:{ erewrite run_bind_ok; [|apply run_yield].
          erewrite run_bind_ok; [|exact Hretrieve]. cbv zeta. rewrite Hempty.
          erewrite run_bind_ok; [|apply run_yield].
          erewrite run_bind_ok; [|apply run_yield]. reflexivity. }
      cbv [mret M_ret]. simpl. by rewrite <- app_assoc. }
    destruct (run_commit question NOT_FOUND_ANSWER session_id []
                {| world := world s2; sessions := sessions s2;
                   events := (events s2
                              ++ [found_event []; nothing_found_event])
                             ++ [content_event NOT_FOUND_ANSWER];
                   calls := calls s2 |})
      as (t1 & t2 & w & Hcommit).
    exists t1, t2, w. unfold exchange, run in *.
    erewrite run_bind_ok; [|exact Hintent].
    erewrite run_bind_ok; [|exact Hloop].
    erewrite run_bind_ok;
      [|unfold synthesize; simpl;
        erewrite run_bind_ok; [|apply run_yield]; reflexivity].
    etrans; [exact Hcommit|]. cbn [sessions events calls].
    rewrite Hcalls, Hsessions.
    rewrite (committed_stored _ _ _ _ _ _ session Hsession).
    by rewrite <- !app_assoc.
  - intros v s' step Hrun Hnil.
    destruct (traces_round_body paper_id question provider intent_result v s')
      as (evs & cs & (_ & _ & Hcs) & _ & tail & Hsearch & Ho).
    unfold run in *. rewrite Hrun in Ho. rewrite Hcs, drop_app_length.
    destruct Ho as (_ & _ & Hstep). destruct step as [v'|v']; simpl in *.
    + by destruct Hstep as (-> & _).
    + by destruct Hstep as (Hne & _).
Qed.

(** C7, as the code has it. When [json.loads] raises a [JSONDecodeError] on
    the cleaned reply of the model to the intent prompt, [analyze] returns
    the default intent: category [general], no target section, and the
    one-element keyword list made of the first 50 characters of the
    question.  When [json.loads] raises anything else on it, [analyze]
    raises that exception. *)
Theorem analyze_parse_failure_default question section_titles
    conversation_history provider (s : State) result w e :
  llm_chat (intent_request question section_titles conversation_history
              provider) (world s) = (Returned result, w) →
  json_loads (strip_code_fence result) = Raised e →
  match exc_class e with
  | JSONDecodeError =>
      ∃ intent_result,
        (run (analyze question section_titles conversation_history provider)
           s).1 = Ok intent_result
        ∧ category intent_result = GENERAL
        ∧ target_sections intent_result = []
        ∧ keywords intent_result = [take 50 question]
        ∧ keywords intent_result ≠ []
  | OtherException =>
      (run (analyze question section_titles conversation_history provider)
         s).1 = Raise e
  end.
Proof.
  intros Hchat Hjson.
  assert (run (analyze question section_titles conversation_history provider)
            s
          = match exc_class e with
            | JSONDecodeError =>
                (Ok {| category := GENERAL; target_sections := [];
                       keywords := [take 50 question];
                       intent_reasoning := u "解析失败，使用默认设置" |},
                 {| world := w; sessions := sessions s; events := events s;
                    calls := calls s |})
            | OtherException =>
                (Raise e,
                 {| world := w; sessions := sessions s; events := events s;
                    calls := calls s |})
            end) as Hrun.
  { unfold run, analyze. rewrite run_bind, run_attempt, run_ask, Hchat.
    cbn [fst snd]. rewrite Hjson. by destruct (exc_class e). }
  rewrite Hrun. destruct (exc_class e); [|done].
  eexists. by split_and!.
Qed.

(** C8, as the code has it. When [json.loads] raises a [JSONDecodeError] on
    the cleaned reply of the model to the evaluation prompt, [evaluate]
    returns the default verdict, which is sufficient; when it raises
    anything else, [evaluate] raises that exception.  When the reply
    decodes to an object without [is_sufficient], the field defaults to
    true: [evaluate] returns a sufficient verdict if the other fields pass
    the validation of the model, and raises the validation error otherwise.
    In a round, what [evaluate] returns for the context of the evidence is
    the state of the loop: its [is_sufficient] is the flag of the loop, and
    after a sufficient verdict the loop runs no further round; what
    [evaluate] raises, the round raises. *)
Theorem evaluate_fails_open question retrieved_content provider (s : State)
    result w :
  llm_chat (evaluation_request question retrieved_content provider) (world s)
  = (Returned result, w) →
  match json_loads (strip_code_fence result) with
  | Raised e =>
      match exc_class e with
      | JSONDecodeError =>
          (run (evaluate question retrieved_content provider) s).1
          = Ok evaluation_parse_failure_default
          ∧ is_sufficient evaluation_parse_failure_default = true
      | OtherException =>
          (run (evaluate question retrieved_content provider) s).1 = Raise e
      end
  | Returned (JObj kvs) =>
      dict_get kvs (u "is_sufficient") = None →
      match validate_optional_str (get_default kvs (u "missing_info") JNull),
            validate_list_str
              (get_default kvs (u "suggested_keywords") (JArr [])),
            validate_str (get_default kvs (u "reasoning") (JStr (u "")))
      with
      | Some mi, Some ks, Some rs =>
          (run (evaluate question retrieved_content provider) s).1
          = Ok {| is_sufficient := true; missing_info := mi;
                  suggested_keywords := ks; eval_reasoning := rs |}
      | _, _, _ =>
          (run (evaluate question retrieved_content provider) s).1
          = Raise ValidationError
      end
  | Returned _ => True
  end
  ∧ ∀ paper_id intent_result v (s0 s1 : State) search_keywords raw context,
      round_keywords question intent_result (current_round v + 1)
        (evaluation_result v) = Returned search_keywords →
      run (retrieve_keywords (take 3 search_keywords) paper_id
             (all_results v))
          (run (yield_ (round_header (current_round v + 1) search_keywords))
             s0).2
      = (Ok raw, s1) →
      _deduplicate_results raw ≠ [] →
      _format_context (_deduplicate_results raw) = Returned context →
      match (run (evaluate question context provider)
               {| world := world s1; sessions := sessions s1;
                  events :=
                    events s1
                    ++ [found_event (_deduplicate_results raw);
                        event (u "thinking") (u "正在评估信息完备性...")];
                  calls := calls s1 |}).1 with
      | Ok verdict =>
          ∃ v',
            (run (round_body paper_id question provider intent_result v)
               s0).1 = Ok (Continue v')
            ∧ loop_is_sufficient v' = is_sufficient verdict
            ∧ evaluation_result v' = Some verdict
            ∧ (is_sufficient verdict = true →
               ∀ fuel (s' : State),
                 run (retrieval_loop fuel paper_id question provider
                        intent_result v') s' = (Ok v', s'))
      | Raise e =>
          (run (round_body paper_id question provider intent_result v) s0).1
          = Raise e
      | OutOfFuel => False
      end.
Proof.
  intros Hchat. split.
  - assert (run (evaluate question retrieved_content provider) s
            = match json_loads (strip_code_fence result) with
              | Returned parsed =>
                  reraise (evaluation_of_parsed parsed)
                    {| world := w; sessions := sessions s;
                       events := events s; calls := calls s |}
              | Raised e =>
                  (match exc_class e with
                   | JSONDecodeError => Ok evaluation_parse_failure_default
                   | OtherException => Raise e
                   end,
                   {| world := w; sessions := sessions s;
                      events := events s; calls := calls s |})
              end) as ->.
    { unfold run, evaluate. rewrite run_bind, run_attempt, run_ask, Hchat.
      cbn [fst snd]. destruct (json_loads _) as [parsed|e]; [done|].
      by destruct (exc_class e). }
    destruct (json_loads _) as [parsed|e]; [|by destruct (exc_class e)].
    destruct parsed as [| | | | | |kvs]; try done.
    intros Hmissing. unfold evaluation_of_parsed.
    assert (get_default kvs (u "is_sufficient") (JBool true) = JBool true)
      as -> by (unfold get_default; by rewrite Hmissing).
    rewrite validate_bool_JBool.
    by destruct
      (validate_optional_str (get_default kvs (u "missing_info") JNull)),
      (validate_list_str (get_default kvs (u "suggested_keywords") (JArr []))),
      (validate_str (get_default kvs (u "reasoning") (JStr (u "")))).
  - intros paper_id intent_result v s0 s1 search_keywords raw context
      Hks Hretrieve Hne Hcontext.
    pose proof (round_body_evaluated paper_id question provider intent_result
                  v s0 s1 search_keywords raw context Hks Hretrieve Hne
                  Hcontext) as Hround.
    destruct (run (evaluate question context provider) _).1
      as [verdict|e|]; [|done..].
    eexists. split; [exact Hround|]. split_and!; [done|done|].
    intros Hsuff fuel s'.
    destruct fuel; simpl; by rewrite Hsuff, andb_false_r.
Qed.

(** C10. [_deduplicate_results] returns only results with a present,
    non-empty [chunk_id]: a result without one is dropped.  So the evidence
    accumulated after any sequence of rounds holds only such results; in a
    round, the context that is evaluated is formatted from the deduplicated
    list, which holds only such results, and the round ends as the
    evaluation of that context does; and every entry of a [sources] event of
    the stream of an exchange carries such an id. *)
Theorem untagged_results_are_dropped paper_id question session_id provider
    intent_result (s : State) results v ev entries :
  (Forall (λ r, has_id (chunk_id r)) (_deduplicate_results results)
   ∧ ∀ r, r ∈ results → ¬ has_id (chunk_id r) →
          r ∉ _deduplicate_results results)
  ∧ (after_rounds paper_id question provider intent_result initial_vars v →
     Forall (λ r, has_id (chunk_id r)) (all_results v))
  ∧ (∀ v0 (s0 s1 : State) search_keywords raw context,
       round_keywords question intent_result (current_round v0 + 1)
         (evaluation_result v0) = Returned search_keywords →
       run (retrieve_keywords (take 3 search_keywords) paper_id
              (all_results v0))
           (run (yield_ (round_header (current_round v0 + 1)
                           search_keywords)) s0).2
       = (Ok raw, s1) →
       _deduplicate_results raw ≠ [] →
       _format_context (_deduplicate_results raw) = Returned context →
       Forall (λ r, has_id (chunk_id r)) (_deduplicate_results raw)
       ∧ match (run (evaluate question context provider)
                  {| world := world s1; sessions := sessions s1;
                     events :=
                       events s1
                       ++ [found_event (_deduplicate_results raw);
                           event (u "thinking")
                             (u "正在评估信息完备性...")];
                     calls := calls s1 |}).1 with
         | Ok verdict =>
             (run (round_body paper_id question provider intent_result v0)
                s0).1
             = Ok (Continue {| all_results := _deduplicate_results raw;
                               current_round := current_round v0 + 1;
                               loop_is_sufficient := is_sufficient verdict;
                               evaluation_result := Some verdict |})
         | Raise e =>
             (run (round_body paper_id question provider intent_result v0)
                s0).1 = Raise e
         | OutOfFuel => False
         end)
  ∧ (ev ∈ drop (length (events s))
            (events (run (chat_stream paper_id question session_id provider)
                       s).2) →
     type ev = u "sources" → content ev = CSources entries →
     Forall (λ e, has_id (src_chunk_id e)) entries).
Proof.
  split_and!.
  - apply deduplicate_has_id.
  - intros r _ Hr Hin. apply Hr.
    pose proof (deduplicate_has_id results) as Hall.
    rewrite Forall_forall in Hall. by apply Hall.
  - intros Hv.
    destruct (after_rounds_clean _ _ _ _ _ _ Hv clean_nil) as ((Hall & _) & _).
    eapply Forall_impl; [exact Hall|]. apply truthy_has_id.
  - intros v0 s0 s1 search_keywords raw context Hks Hretrieve Hne Hcontext.
    split; [apply deduplicate_has_id|].
    exact (round_body_evaluated paper_id question provider intent_result v0
             s0 s1 search_keywords raw context Hks Hretrieve Hne Hcontext).
  - destruct (chat_stream_run paper_id question session_id provider s)
      as (_ & pre & increments & Hpre & Hcases).
    assert (∀ tail,
      ev ∈ pre ++ (content_event <$> increments) ++ tail →
      type ev = u "sources" → ev ∈ tail) as Hin.
    { intros tail [Hin|[Hin|Hin]%elem_of_app]%elem_of_app Hty; [| |done].
      - rewrite Forall_forall in Hpre.
        destruct (Hpre ev Hin) as [H1|[H1|H1]]; rewrite H1 in Hty;
          by vm_compute in Hty.
      - apply list_elem_of_fmap in Hin as (c & -> & _). by vm_compute in Hty. }
    destruct Hcases as [(final & t1 & t2 & (Hall & _) & _ & Hev & _)
                       |(msg & Hev & _)];
      rewrite Hev, drop_app_length; intros Hel Hty Hcontent;
      apply Hin in Hel; try done.
    + apply elem_of_cons in Hel as [->|Hel].
      * injection Hcontent as <-. apply Forall_fmap.
        apply Forall_take. eapply Forall_impl; [exact Hall|].
        intros r Hr. by apply truthy_has_id.
      * apply list_elem_of_singleton in Hel as ->. by vm_compute in Hty.
    + apply list_elem_of_singleton in Hel as ->. by vm_compute in Hty.
Qed.


(** *** Multi-keyword search *)

Lemma retrieve_keywords_batches search_keywords paper_id acc (s : State) :
  run (retrieve_keywords search_keywords paper_id acc) s
  = run (batches ← search_batches search_keywords (Some paper_id)
                     top_k_retrieval None None None;
         mret (acc ++ concat batches)) s.
Proof.
  unfold run. revert acc s.
  induction search_keywords as [|keyword rest IH]; intros acc s.
  - cbn [retrieve_keywords search_batches]. rewrite run_bind.
    cbv [mret M_ret]. simpl. by rewrite app_nil_r.
  - cbn [retrieve_keywords search_batches]. rewrite !run_bind.
    destruct (search_similar_chunks _ _ _ _ _ _ s) as [[results|e|] s1];
      [|done..].
    rewrite IH, !run_bind.
    destruct (search_batches _ _ _ _ _ _ s1) as [[batches|e|] s2]; [|done..].
    cbn. by rewrite app_assoc.
Qed.

Lemma search_keywords_loop_batches keywords paper_id top_k section_filter
    embedding_provider embedding_model st (s : State) :
  search_keywords_loop keywords paper_id top_k section_filter
    embedding_provider embedding_model st s
  = (batches ← search_batches keywords paper_id top_k section_filter
                 embedding_provider embedding_model;
     mret (foldl dedup_step st (concat batches))) s.
Proof.
  revert st s. induction keywords as [|keyword rest IH]; intros st s.
  - done.
  - cbn [search_keywords_loop search_batches]. rewrite !run_bind.
    destruct (search_similar_chunks _ _ _ _ _ _ s) as [[results|e|] s1];
      [|done..].
    rewrite IH, !run_bind.
    destruct (search_batches _ _ _ _ _ _ s1) as [[batches|e|] s2]; [|done..].
    cbn. by rewrite foldl_app.
Qed.

Lemma search_multi_keywords_batches keywords paper_id top_k section_filter
    embedding_provider embedding_model (s : State) :
  run (search_multi_keywords keywords paper_id top_k section_filter
         embedding_provider embedding_model) s
  = run (batches ← search_batches keywords paper_id top_k section_filter
                     embedding_provider embedding_model;
         mret (sort_by_score_reverse
                 (_deduplicate_results (concat batches)))) s.
Proof.
  unfold run, search_multi_keywords.
  rewrite run_bind, search_keywords_loop_batches, !run_bind.
  by destruct (search_batches _ _ _ _ _ _ s) as [[batches|e|] s1].
Qed.

Lemma traces_search_batches keywords paper_id top_k section_filter
    embedding_provider embedding_model :
  traces (search_batches keywords paper_id top_k section_filter
            embedding_provider embedding_model)
    (λ o evs cs,
       evs = [] ∧
       ∃ searched, cs = SearchCall <$> searched
                   ∧ searched `prefix_of` keywords
                   ∧ match o with
                     | Ok batches => searched = keywords
                                     ∧ length batches = length keywords
                     | Raise _ => True
                     | OutOfFuel => False
                     end).
Proof.
  induction keywords as [|keyword rest IH].
  - apply traces_ret_intro. split; [done|]. by exists [].
  - cbn [search_batches].
    eapply traces_step; [apply traces_search_similar_chunks|..].
    + intros results e1 c1 (_ & -> & ->).
      eapply traces_step; [apply IH|..].
      * intros batches e2 c2 (-> & searched & -> & Hpre & -> & Hlen).
        apply traces_ret_intro. split; [done|]. exists (keyword :: rest).
        rewrite app_nil_r. simpl. by rewrite Hlen.
      * intros e evs cs (-> & searched & -> & Hpre & _). split; [done|].
        exists (keyword :: searched). split_and!; [done| |done].
        by apply prefix_cons.
      * by intros evs cs (_ & searched & _ & _ & []).
    + intros e evs cs (_ & -> & ->). split; [done|]. exists [keyword].
      split_and!; [done| |done]. apply prefix_cons, prefix_nil.
    + by intros evs cs ([] & _).
Qed.

(** The first result with a given truthy id is kept. *)
Lemma deduplicate_keeps_first pre r post :
  truthy_id r = true →
  chunk_id r ∉ chunk_id <$> pre →
  r ∈ _deduplicate_results (pre ++ r :: post).
Proof.
  intros Hr Hfirst. unfold _deduplicate_results.
  rewrite foldl_app. cbn [foldl].
  pose proof (dedup_foldl_inv pre (∅, []) dedup_inv_empty) as [Hseen _].
  destruct (dedup_foldl_kept pre (∅, [])) as (new & Hkept & Hsub).
  destruct (foldl dedup_step (∅, []) pre) as [seen kept].
  simpl in Hseen, Hkept. subst kept.
  assert (r ∈ (dedup_step (seen, new) r).2) as Hin.
  { unfold dedup_step, truthy_id in *.
    destruct (chunk_id r) as [cid|]; [|done]. rewrite Hr. simpl.
    rewrite bool_decide_eq_true_2.
    - simpl. apply elem_of_app. right. by left.
    - intros Hc. apply Hseen in Hc. apply Hfirst.
      apply list_elem_of_fmap in Hc as (x & Hx & Hxin).
      apply list_elem_of_fmap. exists x. split; [done|].
      by eapply elem_of_sublist. }
  destruct (dedup_foldl_kept post (dedup_step (seen, new) r))
    as (new' & -> & _).
  apply elem_of_app. by left.
Qed.

(** C9, as the code has it. A round of [chat_stream] searches the first
    three of its keywords at most, in their order, and nothing else: its
    calls are these searches, up to the first that raises, followed by at
    most one evaluation.  When the searches return, the evidence of the
    round is the evidence so far followed by their result lists, in the
    order of the keywords, deduplicated.  The deduplication keeps a
    subsequence of its list (the order of encounter, no sorting) with no id
    twice, in which the first result of every truthy id is kept.
    [search_multi_keywords] differs on two points: it searches every
    keyword it is given, and what it returns is the deduplicated results
    put in the order of their scores by [list.sort]: a permutation of them,
    sorted with larger scores first when no score is NaN. *)
Theorem multi_keyword_search_order paper_id question provider intent_result
    v (s s' : State) search_keywords keywords top_k section_filter
    embedding_provider embedding_model l :
  round_keywords question intent_result (current_round v + 1)
    (evaluation_result v) = Returned search_keywords →
  (let b := run (search_batches (take 3 search_keywords) (Some paper_id)
                   top_k_retrieval None None None)
                (run (yield_ (round_header (current_round v + 1)
                                search_keywords)) s).2 in
   let r := run (round_body paper_id question provider intent_result v) s in
   (∃ searched tail,
      calls r.2 = calls s ++ (SearchCall <$> searched) ++ tail
      ∧ searched `prefix_of` take 3 search_keywords
      ∧ (length searched ≤ 3)%nat
      ∧ (tail = [] ∨ ∃ verdict, tail = [EvaluateCall verdict]))
   ∧ match b.1 with
     | Ok batches =>
         calls b.2 = calls s ++ (SearchCall <$> take 3 search_keywords)
         ∧ length batches = length (take 3 search_keywords)
         ∧ ∀ step, r.1 = Ok step →
             all_results (step_vars step)
             = _deduplicate_results (all_results v ++ concat batches)
     | Raise e => r = (Raise e, b.2)
     | OutOfFuel => False
     end)
  ∧ (_deduplicate_results l `sublist_of` l
     ∧ NoDup (chunk_id <$> _deduplicate_results l)
     ∧ ∀ pre r post,
         l = pre ++ r :: post → truthy_id r = true →
         chunk_id r ∉ chunk_id <$> pre → r ∈ _deduplicate_results l)
  ∧ (let b := run (search_batches keywords (Some paper_id) top_k
                     section_filter embedding_provider embedding_model) s' in
     let r := run (search_multi_keywords keywords (Some paper_id) top_k
                     section_filter embedding_provider embedding_model) s' in
     match b.1 with
     | Ok batches =>
         calls b.2 = calls s' ++ (SearchCall <$> keywords)
         ∧ r = (Ok (sort_by_score_reverse
                      (_deduplicate_results (concat batches))), b.2)
         ∧ sort_by_score_reverse (_deduplicate_results (concat batches))
           ≡ₚ _deduplicate_results (concat batches)
         ∧ (Forall (λ x, score_key x ≠ NaN)
              (_deduplicate_results (concat batches)) →
            Sorted by_score_desc
              (sort_by_score_reverse
                 (_deduplicate_results (concat batches))))
     | Raise e => r = (Raise e, b.2)
     | OutOfFuel => False
     end).
Proof.
  intros Hks. split_and!.
  - intros b r. subst b r.
    pose proof (retrieve_keywords_batches (take 3 search_keywords) paper_id
                  (all_results v)
                  (run (yield_ (round_header (current_round v + 1)
                                  search_keywords)) s).2) as Hretrieve.
    destruct (traces_search_batches (take 3 search_keywords) (Some paper_id)
                top_k_retrieval None None None
                (run (yield_ (round_header (current_round v + 1)
                                search_keywords)) s).2)
      as (evs & cs & (_ & _ & Hcalls) & _ & searched & -> & Hpre & Ho).
    unfold run in Hretrieve, Hcalls, Ho |- *.
    rewrite run_bind in Hretrieve. rewrite run_yield in *.
    cbn [snd calls] in Hcalls.
    assert (length searched ≤ 3)%nat as Hlen.
    { apply prefix_length in Hpre. rewrite length_take in Hpre. lia. }
    destruct (search_batches _ _ _ _ _ _ _) as [[batches|e|] s1];
      cbn [fst snd] in *; [| |done].
    + destruct Ho as (-> & Hbatches).
      destruct (round_body_after_retrieval paper_id question provider
                  intent_result v s s1 search_keywords
                  (all_results v ++ concat batches) Hks)
        as (_ & (tail & Htail & Hcases) & Hevidence).
      { unfold run. by rewrite run_yield. }
      unfold run in Htail, Hevidence. split.
      * exists (take 3 search_keywords), tail.
        rewrite Htail, Hcalls, <- app_assoc. by split_and!.
      * by split_and!.
    + pose proof (round_body_retrieval_raises paper_id question provider
                    intent_result v s s1 search_keywords e Hks) as Hraise.
      unfold run in Hraise. rewrite run_yield in Hraise.
      rewrite (Hraise Hretrieve). split; [|done].
      exists searched, []. rewrite app_nil_r. by split_and!; [..|left].
  - apply deduplicate_sublist.
  - apply deduplicate_clean.
  - intros pre r post -> Hr Hfirst. by apply deduplicate_keeps_first.
  - intros b r. subst b r.
    pose proof (search_multi_keywords_batches keywords (Some paper_id) top_k
                  section_filter embedding_provider embedding_model s')
      as Hrun.
    destruct (traces_search_batches keywords (Some paper_id) top_k
                section_filter embedding_provider embedding_model s')
      as (evs & cs & (_ & _ & Hcalls) & _ & searched & -> & _ & Ho).
    unfold run in Hrun, Hcalls, Ho |- *. rewrite run_bind in Hrun.
    destruct (search_batches _ _ _ _ _ _ s') as [[batches|e|] s1];
      cbn [fst snd] in *; [|done..].
    destruct Ho as (-> & _). split_and!; [done|done| |].
    + apply sort_by_score_reverse_perm.
    + apply sort_by_score_reverse_sorted.
Qed.

End Runs.

(** ** The theorems at concrete inputs *)

Import Scripted.

Example u_decodes_code_points : u "aé解" = [97; 233; 35299]%N.
Proof. vm_compute. reflexivity. Qed.

Example strip_code_fence_fenced :
  strip_code_fence (u "```json" ++ nl ++ u "{}" ++ nl ++ u "```" ++ nl)
  = u "{}".
Proof. vm_compute. reflexivity. Qed.

Example answering_run_events :
  type <$> events answering_run.2
  = [u "thinking"; u "thinking"; u "retrieval"; u "retrieval"; u "thinking";
     u "evaluation"; u "content"; u "content"; u "sources"; u "done"].
Proof. vm_compute. reflexivity. Qed.

Example answering_run_calls :
  calls answering_run.2
  = [IntentCall; SearchCall the_question;
     EvaluateCall (Some {| is_sufficient := true; missing_info := None;
                           suggested_keywords := [];
                           eval_reasoning := [] |});
     SynthesisCall].
Proof. vm_compute. reflexivity. Qed.

(** In a world where every capability is down, the stream ends with its one
    [error] event and no history changes. *)
Lemma chat_stream_one_terminal_event_witness :
  ((None : option pystr) = None ∨ (None : option pystr) = Some [] →
   sessions (start world_down) !! (uuid4 (world (start world_down))).1 = None)
  ∧ let r := run (chat_stream the_paper the_question None None)
                 (start world_down) in
    r.1 = Ok ()
    ∧ ∃ body final_event,
        events r.2 = events (start world_down) ++ body ++ [final_event]
        ∧ Forall (λ ev, ¬ terminal_event ev) body
        ∧ terminal_event final_event
        ∧ (type final_event = u "error" →
           ∀ k, history (sessions r.2) k
                = history (sessions (start world_down)) k).
Proof.
  assert ((None : option pystr) = None ∨ (None : option pystr) = Some [] →
          sessions (start world_down)
            !! (uuid4 (world (start world_down))).1 = None) as Hfresh.
  { intros _. apply lookup_empty. }
  split; [exact Hfresh|].
  exact (chat_stream_one_terminal_event the_paper the_question None None
           (start world_down) Hfresh).
Defined.

(** In the answering world the two increments spell the committed answer. *)
Lemma content_events_spell_the_answer_witness :
  events answering_run.2
  = events (start world_answering) ++ answering_body ++ [done_event]
  ∧ ∃ h answer,
      sessions answering_run.2
        !! (resolved the_paper None (start world_answering)).1 = Some h
      ∧ last (messages h) = Some answer
      ∧ role answer = u "assistant"
      ∧ msg_content answer
        = concat (content_payloads (answering_body ++ [done_event])).
Proof.
  assert (events answering_run.2
          = events (start world_answering) ++ answering_body ++ [done_event])
    as Hdone by (vm_compute; reflexivity).
  split; [exact Hdone|].
  exact (content_events_spell_the_answer the_paper the_question None None
           (start world_answering) answering_body Hdone).
Defined.

(** The evidence after the first round of the answering world. *)
Lemma evidence_only_grows_witness :
  after_rounds (World:=Script) the_paper the_question None one_keyword
    initial_vars initial_vars
  ∧ after_rounds (World:=Script) the_paper the_question None one_keyword
      initial_vars after_first_round
  ∧ NoDup (chunk_id <$> all_results initial_vars)
  ∧ NoDup (chunk_id <$> all_results after_first_round)
  ∧ all_results initial_vars `prefix_of` all_results after_first_round
  ∧ (length (all_results initial_vars)
     ≤ length (all_results after_first_round))%nat.
Proof.
  assert (after_rounds (World:=Script) the_paper the_question None
            one_keyword initial_vars initial_vars) as H1
    by apply rounds_none.
  assert (after_rounds (World:=Script) the_paper the_question None
            one_keyword initial_vars after_first_round) as H2.
  { apply (rounds_more the_paper the_question None one_keyword initial_vars
             (start world_answering)
             (value_of (Break initial_vars) first_round)).
    - vm_compute. reflexivity.
    - apply rounds_none. }
  split; [exact H1|]. split; [exact H2|].
  exact (evidence_only_grows the_paper the_question None one_keyword
           initial_vars after_first_round H1 H2).
Defined.

Lemma retrieval_rounds_positive : 0 < max_retrieval_rounds.
Proof. reflexivity. Defined.

(** The exchange of the world where the search finds nothing: afterwards
    the session holds the question and the canned answer. *)
Lemma empty_evidence_path_witness :
  0 < max_retrieval_rounds
  ∧ sessions (in_session world_nothing_found) !! u "s1" = Some the_session
  ∧ nothing_found_intent
    = (Ok (value_of one_keyword nothing_found_intent),
       nothing_found_intent.2)
  ∧ nothing_found_retrieval = (Ok [], nothing_found_retrieval.2)
  ∧ _deduplicate_results [] = []
  ∧ ∃ t1 t2 w,
      run (exchange the_paper the_question (u "s1") None the_session)
          (in_session world_nothing_found)
      = (Ok (),
         {| world := w;
            sessions :=
              <[u "s1" :=
                  {| h_session_id := h_session_id the_session;
                     h_paper_id := h_paper_id the_session;
                     messages :=
                       lastn 20
                         (messages the_session
                          ++ [{| role := u "user";
                                 msg_content := the_question;
                                 timestamp := t1 |};
                              {| role := u "assistant";
                                 msg_content := NOT_FOUND_ANSWER;
                                 timestamp := t2 |}]);
                     h_created_at := h_created_at the_session |}]>
                (sessions (in_session world_nothing_found));
            events := events nothing_found_retrieval.2
                      ++ [found_event []; nothing_found_event;
                          content_event NOT_FOUND_ANSWER; sources_event [];
                          done_event];
            calls := calls (in_session world_nothing_found)
                     ++ IntentCall
                        :: (SearchCall
                              <$> take 3 (keywords
                                            (value_of one_keyword
                                               nothing_found_intent))) |}).
Proof.
  assert (sessions (in_session world_nothing_found) !! u "s1"
          = Some the_session) as Hsession by (vm_compute; reflexivity).
  assert (nothing_found_intent
          = (Ok (value_of one_keyword nothing_found_intent),
             nothing_found_intent.2)) as Hintent
    by (vm_compute; reflexivity).
  assert (nothing_found_retrieval = (Ok [], nothing_found_retrieval.2))
    as Hretrieve by (vm_compute; reflexivity).
  assert (_deduplicate_results [] = []) as Hempty by reflexivity.
  split; [exact retrieval_rounds_positive|]. split; [exact Hsession|].
  split; [exact Hintent|]. split; [exact Hretrieve|]. split; [exact Hempty|].
  exact (proj1 (empty_evidence_path the_paper the_question (u "s1") None
                  the_session (in_session world_nothing_found)
                  nothing_found_intent.2 nothing_found_retrieval.2
                  (value_of one_keyword nothing_found_intent) []
                  retrieval_rounds_positive Hsession Hintent Hretrieve
                  Hempty)).
Defined.

(** What that exchange leaves in the session: the two messages. *)
Example empty_evidence_path_history :
  (λ m, (role m, msg_content m))
    <$> history (sessions
                   (run (exchange the_paper the_question (u "s1") None
                           the_session)
                      (in_session world_nothing_found)).2) (u "s1")
  = [(u "user", the_question); (u "assistant", NOT_FOUND_ANSWER)].
Proof. vm_compute. reflexivity. Qed.

(** A reply that is not JSON, to the intent prompt. *)
Lemma analyze_parse_failure_default_witness :
  llm_chat (intent_request the_question [] [] None)
    (world (start world_nothing_found))
  = (Returned (u "not json"),
     (llm_chat (intent_request the_question [] [] None)
        (world (start world_nothing_found))).2)
  ∧ json_loads (strip_code_fence (u "not json"))
    = Raised (Exn JSONDecodeError
                (u "Expecting value: line 1 column 1 (char 0)"))
  ∧ ∃ intent_result,
      (run (analyze the_question [] [] None) (start world_nothing_found)).1
      = Ok intent_result
      ∧ category intent_result = GENERAL
      ∧ target_sections intent_result = []
      ∧ keywords intent_result = [take 50 the_question]
      ∧ keywords intent_result ≠ [].
Proof.
  assert (llm_chat (intent_request the_question [] [] None)
            (world (start world_nothing_found))
          = (Returned (u "not json"),
             (llm_chat (intent_request the_question [] [] None)
                (world (start world_nothing_found))).2)) as Hchat
    by reflexivity.
  assert (json_loads (strip_code_fence (u "not json"))
          = Raised (Exn JSONDecodeError
                      (u "Expecting value: line 1 column 1 (char 0)")))
    as Hjson by (vm_compute; reflexivity).
  split; [exact Hchat|]. split; [exact Hjson|].
  exact (analyze_parse_failure_default the_question [] [] None
           (start world_nothing_found) _ _ _ Hchat Hjson).
Defined.

(** C7, as it is stated, fails on a reply that [json.loads] gives up on: on
    a thousand opening brackets it raises a [RecursionError], which is no
    [JSONDecodeError], and [analyze] raises it and returns no intent. *)
Lemma analyze_deep_reply_raises :
  llm_chat (intent_request the_question [] [] None)
    (world (start world_deep)) = (Returned reply_deep, world_down)
  ∧ json_loads (strip_code_fence reply_deep) = Raised RecursionError
  ∧ exc_class RecursionError = OtherException
  ∧ (run (analyze the_question [] [] None) (start world_deep)).1
    = Raise RecursionError
  ∧ ¬ ∃ intent_result,
        (run (analyze the_question [] [] None) (start world_deep)).1
        = Ok intent_result.
Proof.
  split_and!.
  - reflexivity.
  - vm_compute. reflexivity.
  - reflexivity.
  - vm_compute. reflexivity.
  - intros (intent_result & Hrun). vm_compute in Hrun. discriminate.
Qed.

(** A reply that is not JSON and a reply that is the empty object, to the
    evaluation prompt; and the round of the world with untagged hits, whose
    evaluation reply is not JSON: the round ends sufficient, and the loop
    runs no further round. *)
Lemma evaluate_fails_open_witness :
  llm_chat (evaluation_request the_question (u "context") None)
    (world (start world_nothing_found))
  = (Returned (u "not json"),
     (llm_chat (evaluation_request the_question (u "context") None)
        (world (start world_nothing_found))).2)
  ∧ ((run (evaluate the_question (u "context") None)
        (start world_nothing_found)).1
     = Ok evaluation_parse_failure_default
     ∧ is_sufficient evaluation_parse_failure_default = true)
  ∧ llm_chat (evaluation_request the_question (u "context") None)
      (world (start world_empty_object))
    = (Returned (u "{}"), world_down)
  ∧ (run (evaluate the_question (u "context") None)
       (start world_empty_object)).1
    = Ok {| is_sufficient := true; missing_info := None;
            suggested_keywords := []; eval_reasoning := [] |}
  ∧ round_keywords the_question one_keyword (current_round initial_vars + 1)
      (evaluation_result initial_vars) = Returned (keywords one_keyword)
  ∧ untagged_retrieval = (Ok found_with_untagged, untagged_retrieval.2)
  ∧ _deduplicate_results found_with_untagged ≠ []
  ∧ _format_context (_deduplicate_results found_with_untagged)
    = Returned untagged_context
  ∧ (run (evaluate the_question untagged_context None)
       untagged_evaluation).1 = Ok evaluation_parse_failure_default
  ∧ (run (round_body the_paper the_question None one_keyword initial_vars)
       (start world_untagged)).1 = Ok (Continue untagged_round)
  ∧ loop_is_sufficient untagged_round = true
  ∧ ∀ fuel (s' : State),
      run (retrieval_loop fuel the_paper the_question None one_keyword
             untagged_round) s' = (Ok untagged_round, s').
Proof.
  assert (llm_chat (evaluation_request the_question (u "context") None)
            (world (start world_nothing_found))
          = (Returned (u "not json"),
             (llm_chat (evaluation_request the_question (u "context") None)
                (world (start world_nothing_found))).2)) as Hchat
    by reflexivity.
  assert (llm_chat (evaluation_request the_question (u "context") None)
            (world (start world_empty_object))
          = (Returned (u "{}"), world_down)) as Hchat2 by reflexivity.
  assert (round_keywords the_question one_keyword
            (current_round initial_vars + 1)
            (evaluation_result initial_vars)
          = Returned (keywords one_keyword)) as Hks by reflexivity.
  assert (untagged_retrieval = (Ok found_with_untagged, untagged_retrieval.2))
    as Hretrieve by (vm_compute; reflexivity).
  assert (_deduplicate_results found_with_untagged ≠ []) as Hne
    by (vm_compute; discriminate).
  assert (_format_context (_deduplicate_results found_with_untagged)
          = Returned untagged_context) as Hcontext
    by (vm_compute; reflexivity).
  assert (run (evaluate the_question untagged_context None)
            untagged_evaluation
          = (Ok evaluation_parse_failure_default,
             (run (evaluate the_question untagged_context None)
                untagged_evaluation).2)) as Heval
    by (vm_compute; reflexivity).
  pose proof (evaluate_fails_open the_question (u "context") None
                (start world_nothing_found) _ _ Hchat) as [Hparse Hround].
  pose proof (proj1 (evaluate_fails_open the_question (u "context") None
                       (start world_empty_object) _ _ Hchat2)) as Hobject.
  specialize (Hround the_paper one_keyword initial_vars
                (start world_untagged) untagged_retrieval.2
                (keywords one_keyword) found_with_untagged untagged_context
                Hks Hretrieve Hne Hcontext).
  assert (∃ v',
            (run (round_body the_paper the_question None one_keyword
                    initial_vars) (start world_untagged)).1
            = Ok (Continue v')
            ∧ loop_is_sufficient v'
              = is_sufficient evaluation_parse_failure_default
            ∧ evaluation_result v' = Some evaluation_parse_failure_default
            ∧ (is_sufficient evaluation_parse_failure_default = true →
               ∀ fuel (s' : State),
                 run (retrieval_loop fuel the_paper the_question None
                        one_keyword v') s' = (Ok v', s')))
    as (v' & Hrun & Hflag & Hverdict & Hstop).
  { match type of Hround with
    | match ?x with _ => _ end => destruct x as [verdict|e|] eqn:E
    end; vm_compute in E; [|discriminate E..].
    injection E as <-. exact Hround. }
  assert (v' = untagged_round) as ->.
  { assert ((run (round_body the_paper the_question None one_keyword
                    initial_vars) (start world_untagged)).1
            = Ok (Continue untagged_round)) as Hrun'
      by (vm_compute; reflexivity).
    rewrite Hrun in Hrun'. by injection Hrun'. }
  split; [exact Hchat|]. split; [exact Hparse|]. split; [exact Hchat2|].
  split; [exact (Hobject eq_refl)|]. split; [exact Hks|].
  split; [exact Hretrieve|]. split; [exact Hne|]. split; [exact Hcontext|].
  split; [by rewrite Heval|]. split; [exact Hrun|]. split; [exact Hflag|].
  exact (Hstop eq_refl).
Defined.

(** C8, as it is stated, fails on a reply that decodes to an object without
    [is_sufficient] and with a number for [suggested_keywords]: [evaluate]
    raises the validation error and returns no verdict. *)
Lemma evaluate_missing_field_raises :
  ∃ kvs,
    llm_chat (evaluation_request the_question (u "context") None)
      (world (start world_bad_verdict))
    = (Returned reply_bad_keywords, world_down)
    ∧ json_loads (strip_code_fence reply_bad_keywords) = Returned (JObj kvs)
    ∧ dict_get kvs (u "is_sufficient") = None
    ∧ (run (evaluate the_question (u "context") None)
         (start world_bad_verdict)).1 = Raise ValidationError
    ∧ ¬ ∃ verdict,
          (run (evaluate the_question (u "context") None)
             (start world_bad_verdict)).1 = Ok verdict
          ∧ is_sufficient verdict = true.
Proof.
  exists [(u "suggested_keywords", JInt 5)]. split_and!.
  - reflexivity.
  - vm_compute. reflexivity.
  - vm_compute. reflexivity.
  - vm_compute. reflexivity.
  - intros (verdict & Hrun & _). vm_compute in Hrun. discriminate.
Qed.

(** The hits of the world with untagged hits: the hit without an id and
    the hit with the empty id are dropped, from the evidence of the round,
    which is what is evaluated, and from the sources of the exchange. *)
Lemma untagged_results_are_dropped_witness :
  hit_without_id ∈ found_with_untagged
  ∧ hit_with_empty_id ∈ found_with_untagged
  ∧ ¬ has_id (chunk_id hit_without_id)
  ∧ ¬ has_id (chunk_id hit_with_empty_id)
  ∧ (hit_without_id ∉ _deduplicate_results found_with_untagged)
  ∧ (hit_with_empty_id ∉ _deduplicate_results found_with_untagged)
  ∧ _deduplicate_results found_with_untagged
    = [hit "a" (1 # 2); hit "b" (1 # 3)]
  ∧ Forall (λ r, has_id (chunk_id r))
      (_deduplicate_results found_with_untagged)
  ∧ after_rounds (World:=Script) the_paper the_question None one_keyword
      initial_vars untagged_round
  ∧ Forall (λ r, has_id (chunk_id r)) (all_results untagged_round)
  ∧ untagged_retrieval = (Ok found_with_untagged, untagged_retrieval.2)
  ∧ _format_context (_deduplicate_results found_with_untagged)
    = Returned untagged_context
  ∧ (run (round_body the_paper the_question None one_keyword initial_vars)
       (start world_untagged)).1
    = Ok (Continue
            {| all_results := _deduplicate_results found_with_untagged;
               current_round := current_round initial_vars + 1;
               loop_is_sufficient :=
                 is_sufficient evaluation_parse_failure_default;
               evaluation_result := Some evaluation_parse_failure_default |})
  ∧ sources_event untagged_sources
    ∈ drop (length (events (in_session world_untagged_exchange)))
        (events untagged_run.2)
  ∧ Forall (λ e, has_id (src_chunk_id e)) untagged_sources.
Proof.
  assert (hit_without_id ∈ found_with_untagged) as Hin1
    by (refine (bool_decide_unpack _ _); vm_compute; exact I).
  assert (hit_with_empty_id ∈ found_with_untagged) as Hin2
    by (refine (bool_decide_unpack _ _); vm_compute; exact I).
  assert (¬ has_id (chunk_id hit_without_id)) as Hno1
    by (intros (cid & Hcid & _); discriminate).
  assert (¬ has_id (chunk_id hit_with_empty_id)) as Hno2
    by (intros (cid & Hcid & Hne); injection Hcid as <-; by apply Hne).
  assert (after_rounds (World:=Script) the_paper the_question None
            one_keyword initial_vars untagged_round) as Hrounds.
  { apply (rounds_more the_paper the_question None one_keyword initial_vars
             (start world_untagged) (Continue untagged_round)).
    - vm_compute. reflexivity.
    - apply rounds_none. }
  assert (round_keywords the_question one_keyword
            (current_round initial_vars + 1)
            (evaluation_result initial_vars)
          = Returned (keywords one_keyword)) as Hks by reflexivity.
  assert (untagged_retrieval = (Ok found_with_untagged, untagged_retrieval.2))
    as Hretrieve by (vm_compute; reflexivity).
  assert (_deduplicate_results found_with_untagged ≠ []) as Hne
    by (vm_compute; discriminate).
  assert (_format_context (_deduplicate_results found_with_untagged)
          = Returned untagged_context) as Hcontext
    by (vm_compute; reflexivity).
  assert (sources_event untagged_sources
          ∈ drop (length (events (in_session world_untagged_exchange)))
              (events untagged_run.2)) as Hin
    by (refine (bool_decide_unpack _ _); vm_compute; exact I).
  destruct (untagged_results_are_dropped the_paper the_question
              (Some (u "s1")) None one_keyword
              (in_session world_untagged_exchange) found_with_untagged
              untagged_round (sources_event untagged_sources)
              untagged_sources)
    as ((Hdedup & Hdropped) & Hevidence & Hevaluated & Hsources).
  destruct (Hevaluated initial_vars (start world_untagged)
              untagged_retrieval.2 (keywords one_keyword) found_with_untagged
              untagged_context Hks Hretrieve Hne Hcontext)
    as (Htagged & Hround).
  split; [exact Hin1|]. split; [exact Hin2|]. split; [exact Hno1|].
  split; [exact Hno2|]. split; [exact (Hdropped _ Hin1 Hno1)|].
  split; [exact (Hdropped _ Hin2 Hno2)|].
  split; [vm_compute; reflexivity|]. split; [exact Hdedup|].
  split; [exact Hrounds|]. split; [exact (Hevidence Hrounds)|].
  split; [exact Hretrieve|]. split; [exact Hcontext|].
  split.
  { match type of Hround with
    | match ?x with _ => _ end => destruct x as [verdict|e|] eqn:E
    end; vm_compute in E; [|discriminate E..].
    injection E as <-. exact Hround. }
  split; [exact Hin|]. exact (Hsources Hin eq_refl eq_refl).
Defined.

(** The round of the world that answers four searches, after an intent with
    four keywords: three searches are made, for the first three keywords,
    and the evidence is the two hits in the order they were found, the
    lower score first. *)
Lemma multi_keyword_search_order_witness :
  round_keywords the_question four_keywords_intent
    (current_round initial_vars + 1) (evaluation_result initial_vars)
  = Returned four_keywords
  ∧ calls three_of_four_round.2
    = [SearchCall (u "a"); SearchCall (u "b"); SearchCall (u "c");
       EvaluateCall (Some {| is_sufficient := true; missing_info := None;
                             suggested_keywords := [];
                             eval_reasoning := [] |})]
  ∧ (∃ searched tail,
       calls three_of_four_round.2
       = calls (start world_three_of_four) ++ (SearchCall <$> searched)
         ++ tail
       ∧ searched `prefix_of` take 3 four_keywords
       ∧ (length searched ≤ 3)%nat
       ∧ (tail = [] ∨ ∃ verdict, tail = [EvaluateCall verdict]))
  ∧ all_results (step_vars (value_of (Break initial_vars)
                              three_of_four_round))
    = _deduplicate_results
        (all_results initial_vars
         ++ concat [[hit "x" (1 # 10)]; [hit "y" (9 # 10)]; []])
  ∧ all_results (step_vars (value_of (Break initial_vars)
                              three_of_four_round))
    = [hit "x" (1 # 10); hit "y" (9 # 10)]
  ∧ hit "a" (1 # 2)
    ∈ _deduplicate_results
        [hit "a" (1 # 2); hit "b" (1 # 3); hit "a" (1 # 2)]
  ∧ (run (search_multi_keywords four_keywords (Some the_paper) 5 None None
            None) (start world_four_searches)).1
    = Ok (sort_by_score_reverse
            (_deduplicate_results
               (concat [[hit "x" (1 # 10)]; [hit "y" (9 # 10)]; []; []])))
  ∧ Sorted by_score_desc
      (sort_by_score_reverse
         (_deduplicate_results
            (concat [[hit "x" (1 # 10)]; [hit "y" (9 # 10)]; []; []]))).
Proof.
  assert (round_keywords the_question four_keywords_intent
            (current_round initial_vars + 1)
            (evaluation_result initial_vars)
          = Returned four_keywords) as Hks by reflexivity.
  assert (chunk_id (hit "a" (1 # 2)) ∉ chunk_id <$> []) as Hfirst
    by apply not_elem_of_nil.
  assert (Forall (λ x, score_key x ≠ NaN)
            (_deduplicate_results
               (concat [[hit "x" (1 # 10)]; [hit "y" (9 # 10)]; []; []])))
    as Hnumbers
    by (refine (bool_decide_unpack _ _); vm_compute; exact I).
  destruct (multi_keyword_search_order the_paper the_question None
              four_keywords_intent initial_vars (start world_three_of_four)
              (start world_four_searches) four_keywords four_keywords 5 None
              None None
              [hit "a" (1 # 2); hit "b" (1 # 3); hit "a" (1 # 2)] Hks)
    as ((Hcalls & Hround) & (_ & _ & Hkept) & Hmulti).
  assert (all_results (step_vars (value_of (Break initial_vars)
                                    three_of_four_round))
          = _deduplicate_results
              (all_results initial_vars
               ++ concat [[hit "x" (1 # 10)]; [hit "y" (9 # 10)]; []]))
    as Hevidence.
  { assert (three_of_four_round.1
            = Ok (value_of (Break initial_vars) three_of_four_round))
      as Hstep by (vm_compute; reflexivity).
    cbv zeta in Hround.
    match type of Hround with
    | match ?x with _ => _ end => destruct x as [batches|e|] eqn:E
    end; vm_compute in E; [|discriminate E..].
    injection E as <-. destruct Hround as (_ & _ & Hall).
    exact (Hall _ Hstep). }
  assert ((run (search_multi_keywords four_keywords (Some the_paper) 5 None
                  None None) (start world_four_searches)).1
          = Ok (sort_by_score_reverse
                  (_deduplicate_results
                     (concat [[hit "x" (1 # 10)]; [hit "y" (9 # 10)]; [];
                              []])))
          ∧ Sorted by_score_desc
              (sort_by_score_reverse
                 (_deduplicate_results
                    (concat [[hit "x" (1 # 10)]; [hit "y" (9 # 10)]; [];
                             []])))) as [Hsorts Hsorted].
  { assert ((run (search_batches four_keywords (Some the_paper) 5 None None
                    None) (start world_four_searches)).1
            = Ok [[hit "x" (1 # 10)]; [hit "y" (9 # 10)]; []; []]) as Hb
      by (vm_compute; reflexivity).
    cbv zeta in Hmulti.
    destruct (run (search_batches four_keywords (Some the_paper) 5 None None
                     None) (start world_four_searches)) as [o sb].
    simpl in Hb. subst o. cbn [fst] in Hmulti.
    destruct Hmulti as (_ & -> & _ & Hsorted).
    split; [reflexivity|exact (Hsorted Hnumbers)]. }
  split; [exact Hks|]. split; [vm_compute; reflexivity|].
  split; [exact Hcalls|]. split; [exact Hevidence|].
  split; [vm_compute; reflexivity|].
  split; [exact (Hkept [] _ _ eq_refl eq_refl Hfirst)|].
  split; [exact Hsorts|exact Hsorted].
Defined.

(** C9, as it is stated, fails on [search_multi_keywords]: with four
    keywords it makes four searches, and it returns the hit of the second
    keyword before the hit of the first, because it scores higher. *)
Lemma search_multi_keywords_searches_all_and_sorts :
  let r := run (search_multi_keywords four_keywords (Some the_paper) 5 None
                  None None) (start world_four_searches) in
  r.1 = Ok [hit "y" (9 # 10); hit "x" (1 # 10)]
  ∧ calls r.2 = SearchCall <$> four_keywords
  ∧ (3 < length (calls r.2))%nat
  ∧ _deduplicate_results
      (concat [[hit "x" (1 # 10)]; [hit "y" (9 # 10)]; []; []])
    = [hit "x" (1 # 10); hit "y" (9 # 10)]
  ∧ r.1 ≠ Ok (_deduplicate_results
                (concat [[hit "x" (1 # 10)]; [hit "y" (9 # 10)]; []; []])).
Proof.
  split_and!.
  - vm_compute. reflexivity.
  - vm_compute. reflexivity.
  - vm_compute. lia.
  - vm_compute. reflexivity.
  - vm_compute. discriminate.
Qed.

(** * Further properties of the code *)

Section Further.

Context {World : Type} `{!Capabilities World} `{!Runtime} `{!Settings}.

Local Abbreviation State := (@State World).
Local Abbreviation M := (@M World).
Local Abbreviation traces := (@traces World _).
Local Abbreviation silent := (@silent World _).

(** ** The session store *)

Lemma run_get_history sid (s : State) :
  get_history sid s = (Ok (messages <$> sessions s !! sid), s).
Proof. reflexivity. Qed.

(** X1. A created session can be read back at once: it is stored under the
    uuid that was drawn, for the paper it was created for, with an empty
    history; no other session is touched, and nothing is yielded. *)
Theorem created_session_is_empty paper_id (s : State) k :
  k ≠ (uuid4 (world s)).1 →
  let r := run (create_session paper_id) s in
  r.1 = Ok (uuid4 (world s)).1
  ∧ (run (get_history (uuid4 (world s)).1) r.2).1 = Ok (Some [])
  ∧ (∃ h, sessions r.2 !! (uuid4 (world s)).1 = Some h
          ∧ h_paper_id h = paper_id
          ∧ h_session_id h = (uuid4 (world s)).1)
  ∧ sessions r.2 !! k = sessions s !! k
  ∧ events r.2 = events s.
Proof.
  intros Hk r. subst r. unfold run. rewrite run_create_session. simpl.
  unfold resolved. destruct (uuid4 (world s)) as [sid w]. simpl in *.
  split_and!; try done.
  - by rewrite lookup_insert_eq.
  - eexists. by rewrite lookup_insert_eq.
  - by rewrite lookup_insert_ne.
Qed.

(** X2. After [clear_session] the session is gone, whether it was there or
    not; the other sessions stay, clearing an absent session changes
    nothing, and clearing twice is clearing once. *)
Theorem cleared_session_is_gone session_id (s : State) k :
  k ≠ session_id →
  let r := run (clear_session session_id) s in
  r.1 = Ok ()
  ∧ (run (get_history session_id) r.2).1 = Ok None
  ∧ sessions r.2 !! k = sessions s !! k
  ∧ (sessions s !! session_id = None → r.2 = s)
  ∧ run (clear_session session_id) r.2 = (Ok (), r.2).
Proof.
  intros Hk r. subst r. unfold run, clear_session.
  cbv [mbind M_bind get_sessions]. simpl.
  destruct (decide (is_Some (sessions s !! session_id))) as [Hin|Hout]; simpl.
  - split_and!; try done.
    + rewrite ?run_get_history. simpl. by rewrite lookup_delete_eq.
    + by rewrite lookup_delete_ne.
    + intros Hnone. rewrite Hnone in Hin. by destruct Hin.
    + rewrite decide_False; [done|]. rewrite lookup_delete_eq. by intros [].
  - apply eq_None_not_Some in Hout. split_and!; try done.
    + rewrite ?run_get_history. simpl. by rewrite Hout.
    + rewrite decide_False; [done|]. rewrite Hout. by intros [].
Qed.

(** X3. A session id that is unknown, or that belongs to another paper, is
    refused before anything else happens: the stream is the one [error]
    event, no capability is called, and the state is otherwise as it was. *)
Theorem invalid_session_is_refused paper_id question session_id provider
    (s : State) :
  session_id ≠ [] →
  (sessions s !! session_id = None
   ∨ ∃ h, sessions s !! session_id = Some h ∧ h_paper_id h ≠ paper_id) →
  run (chat_stream paper_id question (Some session_id) provider) s
  = (Ok (),
     {| world := world s; sessions := sessions s;
        events := events s ++ [error_event (u "会话无效或论文不匹配")];
        calls := calls s |}).
Proof.
  intros Hne Hbad. unfold run, chat_stream.
  destruct session_id as [|c sid]; [done|].
  cbv [mbind M_bind mret M_ret get_session get_sessions].
  match goal with
  | |- context [match ?x with _ => _ end] => destruct x as [h'|] eqn:E
  end.
  - destruct Hbad as [Hb|(h & Hb & Hp)].
    + exfalso. pose proof (eq_trans (eq_sym E) Hb). done.
    + assert (h' = h) as ->
        by (pose proof (eq_trans (eq_sym E) Hb); congruence).
      by rewrite decide_True.
  - done.
Qed.

(** ** The stream of an exchange *)

Lemma new_events_app (s s' : State) evs :
  events s' = events s ++ evs → new_events s s' = evs.
Proof. intros Hev. unfold new_events. by rewrite Hev, drop_app_length. Qed.

Lemma source_entry_preview r :
  (length (src_text_preview (source_entry r)) ≤ 103)%nat
  ∧ u "..." `suffix_of` src_text_preview (source_entry r).
Proof.
  unfold source_entry. simpl. split.
  - rewrite length_app, length_take.
    change (length (u "...")) with 3%nat. lia.
  - by eexists.
Qed.

(** X4. The stream of a call of [chat_stream] has three phases, in this
    order: events that report progress, the [content] events of the answer,
    and the end, which is either [sources] followed by [done] or one
    [error].  The [sources] event lists at most five entries, and the text
    preview of each is at most 100 characters followed by an ellipsis. *)
Theorem stream_has_three_phases paper_id question session_id provider
    (s : State) :
  let r := run (chat_stream paper_id question session_id provider) s in
  ∃ pre increments tail,
    new_events s r.2 = pre ++ (content_event <$> increments) ++ tail
    ∧ Forall progress_event pre
    ∧ ((∃ entries,
          tail = [sources_event entries; done_event]
          ∧ (length entries ≤ 5)%nat
          ∧ Forall (λ e, (length (src_text_preview e) ≤ 103)%nat
                         ∧ u "..." `suffix_of` src_text_preview e) entries)
       ∨ ∃ msg, tail = [error_event msg]).
Proof.
  intros r. subst r.
  destruct (chat_stream_run paper_id question session_id provider s)
    as (_ & pre & increments & Hpre & Hcases).
  exists pre, increments.
  destruct Hcases as [(final & t1 & t2 & _ & _ & Hev & _)|(msg & Hev & _)].
  - eexists. split; [by apply new_events_app|]. split; [done|]. left.
    eexists. split; [done|]. split.
    + rewrite length_fmap, length_take. lia.
    + apply Forall_fmap, Forall_true. intros r. apply source_entry_preview.
  - eexists. split; [by apply new_events_app|]. split; [done|]. right.
    by exists msg.
Qed.

(** ** The sessions across an exchange *)

Lemma trim_history_length m : (length (trim_history m) ≤ 20)%nat.
Proof.
  unfold trim_history, lastn. destruct (20 <? length m)%nat eqn:Hlen.
  - rewrite length_drop. lia.
  - apply Nat.ltb_ge in Hlen. lia.
Qed.

Lemma resolved_keeps paper_id session_id (s : State) k :
  is_Some (sessions s !! k) →
  is_Some ((resolved paper_id session_id s).2 !! k).
Proof.
  intros Hk. unfold resolved.
  destruct session_id as [[|c sid]|]; [|done|];
    destruct (uuid4 (world s)) as [new w]; simpl;
    (destruct (decide (new = k)) as [->|Hne];
     [by rewrite lookup_insert_eq|by rewrite lookup_insert_ne]).
Qed.

(** X5. A call of [chat_stream] changes nothing in the session store but
    the message list of the session it runs in: the other sessions are as
    they were, no session is removed, and its own session keeps its ids and
    its creation time, with either the messages it had (the call ended with
    [error]) or those messages followed by the question, as a user message,
    and an answer, as an assistant message, cut to the last 20. *)
Theorem chat_stream_touches_one_history paper_id question session_id provider
    (s : State) :
  let r := run (chat_stream paper_id question session_id provider) s in
  let sid := (resolved paper_id session_id s).1 in
  let store := (resolved paper_id session_id s).2 in
  (∀ k, k ≠ sid → sessions r.2 !! k = store !! k)
  ∧ (∀ k, is_Some (sessions s !! k) → is_Some (sessions r.2 !! k))
  ∧ (∀ h, store !! sid = Some h →
       ∃ h', sessions r.2 !! sid = Some h'
             ∧ h_session_id h' = h_session_id h
             ∧ h_paper_id h' = h_paper_id h
             ∧ h_created_at h' = h_created_at h
             ∧ (messages h' = messages h
                ∨ ∃ answer t1 t2,
                    messages h'
                    = trim_history
                        (messages h ++ [user_message question t1;
                                        assistant_message answer t2]))).
Proof.
  intros r sid store. subst r sid store.
  destruct (chat_stream_run paper_id question session_id provider s)
    as (_ & pre & increments & _ & Hcases).
  destruct Hcases as [(final & t1 & t2 & _ & _ & _ & ->)|(msg & _ & ->)].
  - split_and!.
    + intros k Hk. by rewrite lookup_alter_ne.
    + intros k Hk. apply (resolved_keeps paper_id session_id) in Hk.
      destruct (decide ((resolved paper_id session_id s).1 = k)) as [<-|Hne].
      * rewrite lookup_alter_eq. destruct Hk as [h ->]. by eexists.
      * by rewrite lookup_alter_ne.
    + intros h Hh. rewrite lookup_alter_eq, Hh. simpl.
      eexists. split; [done|]. split_and!; try done. right. by eexists _, _, _.
  - split_and!; [done|intros k; apply resolved_keeps|].
    intros h Hh. exists h. split_and!; try done. by left.
Qed.

(** X6. The bound of 20 messages per session is an invariant of
    [chat_stream]: if every session holds at most 20 messages before a
    call, every session, a new one included, holds at most 20 afterwards. *)
Theorem chat_stream_keeps_histories_bounded paper_id question session_id
    provider (s : State) :
  histories_bounded (sessions s) →
  histories_bounded
    (sessions (run (chat_stream paper_id question session_id provider) s).2).
Proof.
  intros Hb.
  assert (histories_bounded (resolved paper_id session_id s).2) as Hres.
  { unfold resolved. destruct session_id as [[|c sid]|]; [|done|];
      destruct (uuid4 (world s)) as [new w]; simpl;
      intros k h [[_ <-]|[_ Hk]]%lookup_insert_Some; simpl;
      first [lia|by eapply Hb]. }
  destruct (chat_stream_run paper_id question session_id provider s)
    as (_ & pre & increments & _ & Hcases).
  destruct Hcases as [(final & t1 & t2 & _ & _ & _ & ->)|(msg & _ & ->)];
    [|done].
  intros k h Hk.
  destruct (decide ((resolved paper_id session_id s).1 = k)) as [<-|Hne].
  - rewrite lookup_alter_eq in Hk.
    destruct (_ !! _) as [h0|]; [|done]. injection Hk as <-. simpl.
    apply trim_history_length.
  - rewrite lookup_alter_ne in Hk by done. by eapply Hres.
Qed.

(** ** The section titles *)

Lemma section_titles_of_sublist secs :
  (Some <$> section_titles_of (Some {| sections := Some secs |}))
    `sublist_of` secs.
Proof.
  simpl. induction secs as [|[[|c t]|] secs IH]; simpl.
  - constructor.
  - by constructor.
  - by constructor.
  - by constructor.
Qed.

Lemma section_titles_of_nonempty paper_data :
  Forall (λ t, t ≠ []) (section_titles_of paper_data).
Proof.
  destruct paper_data as [[[secs|]]|]; simpl; [|constructor..].
  induction secs as [|[[|c t]|] secs IH]; simpl; try done.
  by constructor.
Qed.

(** X7. [_get_section_titles] never raises: a paper that cannot be loaded,
    or that has no list of sections, has no titles.  Otherwise the titles
    are those of the sections, in their order, without the missing and the
    empty ones.  Nothing but the outside world changes. *)
Theorem section_titles_never_raise paper_id (s : State) :
  ∃ titles,
    run (_get_section_titles paper_id) s
    = (Ok titles,
       {| world := (load_parsed_content paper_id (world s)).2;
          sessions := sessions s; events := events s; calls := calls s |})
    ∧ Forall (λ t, t ≠ []) titles
    ∧ match (load_parsed_content paper_id (world s)).1 with
      | Returned (Some {| sections := Some secs |}) =>
          (Some <$> titles) `sublist_of` secs
          ∧ ∀ t, t ≠ [] → Some t ∈ secs → t ∈ titles
      | _ => titles = []
      end.
Proof.
  unfold run, _get_section_titles, catch, ask.
  cbv [mbind M_bind mret M_ret].
  destruct (load_parsed_content paper_id (world s)) as [[paper_data|e] w];
    simpl.
  - eexists. split; [done|]. split; [apply section_titles_of_nonempty|].
    destruct paper_data as [[[secs|]]|]; [|done..].
    split; [apply section_titles_of_sublist|].
    intros t Ht Hin. simpl. apply list_elem_of_omap. exists (Some t).
    split; [done|]. by destruct t.
  - eexists. split; [done|]. split; [constructor|done].
Qed.

(** ** The intent *)

Lemma IntentCategory_of_Some s c :
  IntentCategory_of s = Some c → IntentCategory_value c = s.
Proof.
  unfold IntentCategory_of.
  destruct (list_find _ _) as [[i c']|] eqn:Hfind; [|done].
  simpl. intros [= <-]. by apply list_find_Some in Hfind as (_ & ? & _).
Qed.

Lemma IntentCategory_of_value c :
  IntentCategory_of (IntentCategory_value c) = Some c.
Proof. destruct c; vm_compute; reflexivity. Qed.

(** X9. The category of the intent is read from the reply without regard
    to case: it is the category whose name is the lower-cased string of the
    reply, and [general] when there is no such category.  The other fields
    are taken as they validate. *)
Theorem analyze_reads_the_category question section_titles
    conversation_history provider (s : State) result w kvs category_str
    ts ks rs :
  llm_chat (intent_request question section_titles conversation_history
              provider) (world s) = (Returned result, w) →
  json_loads (strip_code_fence result) = Returned (JObj kvs) →
  dict_get kvs (u "category") = Some (JStr category_str) →
  validate_list_str (get_default kvs (u "target_sections") (JArr []))
  = Some ts →
  validate_list_str (get_default kvs (u "keywords") (JArr [])) = Some ks →
  validate_str (get_default kvs (u "reasoning") (JStr (u ""))) = Some rs →
  ∃ c,
    (run (analyze question section_titles conversation_history provider)
       s).1
    = Ok {| category := c; target_sections := ts; keywords := ks;
            intent_reasoning := rs |}
    ∧ (∀ c', str_lower category_str = IntentCategory_value c' → c = c')
    ∧ ((∀ c', str_lower category_str ≠ IntentCategory_value c') →
       c = GENERAL).
Proof.
  intros Hchat Hjson Hcat Hts Hks Hrs.
  exists (default GENERAL (IntentCategory_of (str_lower category_str))).
  split_and!.
  - unfold run, analyze, attempt, catch, ask.
    cbv [mbind M_bind mret M_ret]. rewrite Hchat. simpl. rewrite Hjson.
    unfold intent_of_parsed, get_default at 1. rewrite Hcat. simpl.
    by rewrite Hts, Hks, Hrs.
  - intros c' ->. by rewrite IntentCategory_of_value.
  - intros Hnone.
    destruct (IntentCategory_of _) as [c'|] eqn:Hc; [|done].
    apply IntentCategory_of_Some in Hc. by destruct (Hnone c').
Qed.

(** ** The keywords of a round *)

Lemma loop_reaches_bound paper_id question provider intent_result v :
  loop_reaches paper_id question provider intent_result v →
  0 ≤ current_round v
  ∧ (current_round v ≠ 0 → is_Some (evaluation_result v)).
Proof.
  induction 1 as [|v s v' _ [IH _] Hrun]; [done|].
  destruct (traces_round_body paper_id question provider intent_result v s)
    as (evs & cs & _ & _ & tail & _ & Ho).
  unfold run in Hrun. rewrite Hrun in Ho. simpl in Ho.
  destruct Ho as (Hround & _ & _ & verdict & _ & _ & Heval).
  split; [lia|]. intros _. by rewrite Heval.
Qed.

(** X10. At the head of the loop the keywords of the next round are always
    defined: round 1 takes those of the intent, and every later round finds
    the verdict of the round before, so that [evaluation_result] is never
    read before it is bound.  From round 2 on the keyword list is never
    empty, since the question stands in for missing suggestions. *)
Theorem round_keywords_are_defined paper_id question provider intent_result
    v :
  loop_reaches paper_id question provider intent_result v →
  ∃ search_keywords,
    round_keywords question intent_result (current_round v + 1)
      (evaluation_result v) = Returned search_keywords
    ∧ (current_round v = 0 → search_keywords = keywords intent_result)
    ∧ (current_round v ≠ 0 →
       search_keywords ≠ []
       ∧ ∃ verdict, evaluation_result v = Some verdict
           ∧ (suggested_keywords verdict = [] →
              search_keywords = [question])
           ∧ (suggested_keywords verdict ≠ [] →
              search_keywords = suggested_keywords verdict)).
Proof.
  intros Hv. apply loop_reaches_bound in Hv as [Hpos Hbound].
  unfold round_keywords.
  destruct (decide (current_round v = 0)) as [Hz|Hnz].
  - rewrite Hz. simpl. eexists. by split_and!.
  - rewrite (proj2 (Z.eqb_neq _ _)) by lia.
    destruct (Hbound Hnz) as [verdict ->]. eexists. split; [done|].
    split; [done|]. intros _. split.
    + by destruct (suggested_keywords verdict).
    + exists verdict. split; [done|].
      by destruct (suggested_keywords verdict).
Qed.

(** ** Failures of the capabilities *)

Lemma run_get_section_titles paper_id (s : State) :
  _get_section_titles paper_id s
  = (Ok match (load_parsed_content paper_id (world s)).1 with
        | Returned paper_data => section_titles_of paper_data
        | Raised _ => []
        end,
     {| world := (load_parsed_content paper_id (world s)).2;
        sessions := sessions s; events := events s; calls := calls s |}).
Proof.
  unfold _get_section_titles, catch, ask. cbv [mbind M_bind mret M_ret].
  by destruct (load_parsed_content paper_id (world s)) as [[paper_data|e] w].
Qed.

Lemma run_before_intent paper_id (s : State) :
  (yield_ (event (u "thinking") (u "正在分析问题意图..."));;
   _get_section_titles paper_id) s
  = (Ok (titles_before_intent paper_id s), before_intent paper_id s).
Proof.
  unfold titles_before_intent, before_intent, run.
  erewrite run_bind_ok; [|apply run_yield].
  by rewrite run_get_section_titles.
Qed.

Lemma analyze_raises question section_titles conversation_history provider
    (s : State) e :
  (llm_chat (intent_request question section_titles conversation_history
               provider) (world s)).1 = Raised e →
  exc_class e = OtherException →
  analyze question section_titles conversation_history provider s
  = (Raise e,
     {| world := (llm_chat (intent_request question section_titles
                              conversation_history provider) (world s)).2;
        sessions := sessions s; events := events s; calls := calls s |}).
Proof.
  intros Hchat Hclass. unfold analyze, attempt, catch, ask.
  cbv [mbind M_bind mret M_ret].
  destruct (llm_chat _ (world s)) as [r w]. simpl in *. subst r.
  by rewrite Hclass.
Qed.

(** X11. When the model cannot be reached for the intent analysis, the
    exchange ends there: the stream is the first [thinking] event and one
    [error] event that carries the text of the exception as it is, the only
    call made is the intent analysis, and no session changes. *)
Theorem intent_failure_is_reported paper_id question session_id provider
    (s : State) session e :
  session_id ≠ [] →
  sessions s !! session_id = Some session →
  h_paper_id session = paper_id →
  (llm_chat (intent_request question (titles_before_intent paper_id s)
               (messages session) provider)
     (world (before_intent paper_id s))).1 = Raised e →
  exc_class e = OtherException →
  let r := run (chat_stream paper_id question (Some session_id) provider) s in
  r.1 = Ok ()
  ∧ new_events s r.2
    = [event (u "thinking") (u "正在分析问题意图...");
       error_event (exc_str e)]
  ∧ calls r.2 = calls s ++ [IntentCall]
  ∧ sessions r.2 = sessions s.
Proof.
  intros Hne Hsession Hpaper Hchat Hclass r. subst r.
  unfold run, chat_stream. destruct session_id as [|c sid]; [done|].
  erewrite run_bind_ok; [|reflexivity].
  erewrite run_bind_ok;
    [|cbv [get_session get_sessions mbind M_bind mret M_ret]; reflexivity].
  match goal with
  | |- context [match ?x with _ => _ end] =>
      replace x with (Some session) by (symmetry; exact Hsession)
  end.
  rewrite decide_False by (by intros []).
  assert (exchange paper_id question (c :: sid) provider session s
          = (Raise e,
             {| world := (llm_chat
                            (intent_request question
                               (titles_before_intent paper_id s)
                               (messages session) provider)
                            (world (before_intent paper_id s))).2;
                sessions := sessions s;
                events := events s
                          ++ [event (u "thinking") (u "正在分析问题意图...")];
                calls := calls s ++ [IntentCall] |})) as Hex.
  { pose proof (run_before_intent paper_id s) as Hbefore.
    rewrite run_bind, run_yield, run_get_section_titles in Hbefore.
    injection Hbefore as Htitles Hstate.
    rewrite <- Htitles, <- Hstate in Hchat |- *. simpl in Hchat.
    unfold exchange. rewrite run_bind.
    assert (intent_phase paper_id question provider session s
            = (Raise e,
               {| world := (llm_chat
                              (intent_request question
                                 match (load_parsed_content paper_id
                                          (world s)).1 with
                                 | Returned paper_data =>
                                     section_titles_of paper_data
                                 | Raised _ => []
                                 end (messages session) provider)
                              (load_parsed_content paper_id (world s)).2).2;
                  sessions := sessions s;
                  events := events s
                            ++ [event (u "thinking")
                                  (u "正在分析问题意图...")];
                  calls := calls s ++ [IntentCall] |})) as ->; [|done].
    unfold intent_phase.
    erewrite run_bind_ok; [|apply run_yield].
    erewrite run_bind_ok; [|apply run_get_section_titles].
    erewrite run_bind_ok; [|reflexivity].
    rewrite run_bind.
    erewrite analyze_raises; [|exact Hchat|exact Hclass]. done. }
  unfold catch. rewrite Hex. simpl. split_and!; try done.
  apply new_events_app. simpl. by rewrite <- app_assoc.
Qed.

Lemma run_forward_chunks stream response_chunks (s : State) :
  forward_chunks stream response_chunks s
  = (Ok (response_chunks ++ stream),
     {| world := world s; sessions := sessions s;
        events := events s ++ (content_event <$> stream);
        calls := calls s |}).
Proof.
  revert response_chunks s.
  induction stream as [|chunk rest IH]; intros response_chunks s.
  - cbv [forward_chunks mret M_ret]. rewrite !app_nil_r. by destruct s.
  - cbn [forward_chunks]. erewrite run_bind_ok; [|apply run_yield].
    rewrite IH. simpl. by rewrite <- !app_assoc.
Qed.

(** X12. When the stream of the answer breaks, the increments received so
    far have been yielded, in their order, and the exception is raised:
    nothing else is yielded, the synthesis is the one call, and the sessions
    are as they were, so that no partial answer is stored. *)
Theorem broken_stream_keeps_its_chunks question provider session all_results
    (s : State) context reply e :
  all_results ≠ [] →
  _format_context all_results = Returned context →
  (llm_chat_stream (answer_request question context (messages session)
                      provider) (world s)).1 = Returned reply →
  failure reply = Some e →
  let r := run (synthesize question provider session all_results) s in
  r.1 = Raise e
  ∧ new_events s r.2 = content_event <$> chunks reply
  ∧ calls r.2 = calls s ++ [SynthesisCall]
  ∧ sessions r.2 = sessions s.
Proof.
  intros Hne Hcontext Hreply Hfailure r. subst r.
  unfold run, synthesize. destruct all_results as [|r0 l]; [done|].
  rewrite Hcontext. erewrite run_bind_ok; [|reflexivity].
  erewrite run_bind_ok; [|reflexivity].
  erewrite run_bind_ok; [|rewrite run_ask; simpl; rewrite Hreply; reflexivity].
  erewrite run_bind_ok; [|apply run_forward_chunks].
  rewrite Hfailure. simpl. split_and!; try done. by apply new_events_app.
Qed.

(** X13. The request for the answer carries the system message first and
    the prompt last, and between them the last six messages of the session,
    at most, in their order: the request never holds more than eight
    messages, however long the history is. *)
Theorem answer_request_carries_recent_history question context
    session_messages provider :
  let request := answer_request question context session_messages provider in
  req_messages request
  = (u "system", u "你是专业的学术论文助手。")
    :: ((λ msg, (role msg, msg_content msg)) <$> lastn 6 session_messages)
    ++ [(u "user", ANSWER_PROMPT_format context question)]
  ∧ (length (req_messages request) ≤ 8)%nat
  ∧ lastn 6 session_messages `suffix_of` session_messages
  ∧ req_stream request = true.
Proof.
  intros request. subst request.
  assert (req_messages (answer_request question context session_messages
                          provider)
          = (u "system", u "你是专业的学术论文助手。")
            :: ((λ msg, (role msg, msg_content msg))
                  <$> lastn 6 session_messages)
            ++ [(u "user", ANSWER_PROMPT_format context question)]) as ->.
  { unfold answer_request. by destruct session_messages. }
  split_and!; [done| | |done].
  - simpl. rewrite length_app, length_fmap. unfold lastn.
    rewrite length_drop. simpl. lia.
  - unfold lastn. apply suffix_drop.
Qed.

(** ** The cleaning of a reply *)

Lemma lstrip_spaces pad s :
  Forall (λ c, isspace c = true) pad → lstrip (pad ++ s) = lstrip s.
Proof. induction 1 as [|c pad Hc _ IH]; simpl; [done|]. by rewrite Hc. Qed.

Lemma rstrip_spaces s pad :
  Forall (λ c, isspace c = true) pad → rstrip (s ++ pad) = rstrip s.
Proof.
  intros Hpad. unfold rstrip. rewrite reverse_app, lstrip_spaces; [done|].
  by apply Forall_reverse.
Qed.

Lemma rstrip_snoc s c : isspace c = false → rstrip (s ++ [c]) = s ++ [c].
Proof.
  intros Hc. unfold rstrip. rewrite reverse_app. simpl. rewrite Hc.
  change (c :: reverse s) with ([c] ++ reverse s).
  by rewrite reverse_app, reverse_involutive.
Qed.

Lemma strip_padded pad1 c mid d pad2 :
  Forall (λ c, isspace c = true) pad1 →
  Forall (λ c, isspace c = true) pad2 →
  isspace c = false → isspace d = false →
  strip (pad1 ++ (c :: mid ++ [d]) ++ pad2) = c :: mid ++ [d].
Proof.
  intros Hpad1 Hpad2 Hc Hd. unfold strip. rewrite lstrip_spaces by done.
  simpl. rewrite Hc.
  change (c :: (mid ++ [d]) ++ pad2) with ((c :: mid ++ [d]) ++ pad2).
  rewrite rstrip_spaces by done.
  change (c :: mid ++ [d]) with ((c :: mid) ++ [d]). by apply rstrip_snoc.
Qed.

Lemma split_nl_nonempty s : split_nl s ≠ [].
Proof.
  destruct s as [|c s]; simpl; [done|].
  destruct (c =? 10)%N; [done|]. by destruct (split_nl s).
Qed.

Lemma split_nl_app a b : split_nl (a ++ 10%N :: b) = split_nl a ++ split_nl b.
Proof.
  induction a as [|c a IH]; simpl; [done|]. rewrite IH.
  destruct (c =? 10)%N; [done|].
  pose proof (split_nl_nonempty a). by destruct (split_nl a).
Qed.

Lemma split_nl_line s : 10%N ∉ s → split_nl s = [s].
Proof.
  induction s as [|c s IH]; simpl; [done|]. intros Hnl.
  apply not_elem_of_cons in Hnl as [Hc Hs].
  rewrite (proj2 (N.eqb_neq c 10)) by done. by rewrite IH.
Qed.

Lemma join_cons sep x l : l ≠ [] → join sep (x :: l) = x ++ sep ++ join sep l.
Proof. by destruct l. Qed.

Lemma join_split_nl s : join nl (split_nl s) = s.
Proof.
  induction s as [|c s IH]; [done|]. cbn [split_nl].
  pose proof (split_nl_nonempty s) as Hne.
  destruct (c =? 10)%N eqn:Hc.
  - apply N.eqb_eq in Hc as ->. by rewrite join_cons, IH.
  - destruct (split_nl s) as [|seg r]; [done|].
    destruct r; rewrite <- IH; reflexivity.
Qed.

(** X14. A reply wrapped in a code fence is unwrapped: whatever white
    space surrounds the fence, and whatever language tag follows the opening
    fence on its line, what is handed to [json.loads] is the body between
    the two fence lines, stripped. *)
Theorem strip_code_fence_unwraps pad1 lang body pad2 :
  Forall (λ c, isspace c = true) pad1 →
  Forall (λ c, isspace c = true) pad2 →
  10%N ∉ lang →
  strip_code_fence (pad1 ++ fenced lang body ++ pad2) = strip body.
Proof.
  intros Hpad1 Hpad2 Hlang. unfold strip_code_fence, fenced.
  change (u "```") with [96%N; 96%N; 96%N]. unfold nl.
  assert (([96; 96; 96] ++ lang ++ [10] ++ body ++ [10] ++ [96; 96; 96])%N
          = 96%N :: ([96%N; 96%N] ++ lang ++ [10%N] ++ body
                       ++ [10%N; 96%N; 96%N]) ++ [96%N]) as ->.
  { simpl. rewrite <- !app_assoc. simpl. by rewrite <- !app_assoc. }
  rewrite strip_padded by done.
  assert (96%N :: ([96%N; 96%N] ++ lang ++ [10%N] ++ body
                      ++ [10%N; 96%N; 96%N]) ++ [96%N]
          = ([96%N; 96%N; 96%N] ++ lang)
            ++ 10%N :: body ++ 10%N :: [96%N; 96%N; 96%N]) as ->.
  { simpl. rewrite <- !app_assoc. simpl. by rewrite <- !app_assoc. }
  assert (startswith [96%N; 96%N; 96%N]
            (([96%N; 96%N; 96%N] ++ lang)
             ++ 10%N :: body ++ 10%N :: [96%N; 96%N; 96%N]) = true) as ->
    by done.
  rewrite !split_nl_app, split_nl_line.
  2:{ simpl. rewrite !not_elem_of_cons. split_and!; done. }
  cbn [app tail].
  change (split_nl [96%N; 96%N; 96%N]) with [[96%N; 96%N; 96%N]].
  rewrite app_comm_cons, last_snoc. cbn [default].
  rewrite bool_decide_eq_true_2 by (by vm_compute).
  rewrite removelast_last. fold nl. by rewrite join_split_nl.
Qed.

(** ** The similarity search *)

Lemma slice_to_subset {A} n (l : list A) x : x ∈ slice_to n l → x ∈ l.
Proof.
  unfold slice_to. destruct (0 <=? n); intros Hx;
    by eapply elem_of_sublist; [|apply sublist_take].
Qed.

Lemma filter_sections_subset lower top_k l acc r :
  r ∈ filter_sections lower top_k l acc → r ∈ acc ∨ r ∈ l.
Proof.
  revert acc. induction l as [|x l IH]; intros acc; simpl; [by left|].
  destruct (section_matches lower x);
    destruct (top_k <=? _); intros Hr.
  - apply elem_of_app in Hr as [Hr|Hr%list_elem_of_singleton]; [by left|].
    right. subst. by left.
  - apply IH in Hr as [[Hr|Hr%list_elem_of_singleton]%elem_of_app|Hr].
    + by left.
    + right. subst. by left.
    + right. by right.
  - by left.
  - apply IH in Hr as [Hr|Hr]; [by left|]. right. by right.
Qed.

Lemma fill_unfiltered_subset top_k l acc r :
  r ∈ fill_unfiltered top_k l acc → r ∈ acc ∨ r ∈ l.
Proof.
  revert acc. induction l as [|x l IH]; intros acc; simpl; [by left|].
  destruct (bool_decide (x ∈ acc)).
  - intros Hr. apply IH in Hr as [Hr|Hr]; [by left|]. right. by right.
  - destruct (top_k <=? _); intros Hr.
    + apply elem_of_app in Hr as [Hr|Hr%list_elem_of_singleton]; [by left|].
      right. subst. by left.
    + apply IH in Hr as [[Hr|Hr%list_elem_of_singleton]%elem_of_app|Hr].
      * by left.
      * right. subst. by left.
      * right. by right.
Qed.

(** What a search returns, from what Milvus found. *)
Lemma run_search_similar_chunks query_text paper_id top_k section_filter
    embedding_provider embedding_model (s : State) results :
  (run (search_similar_chunks query_text paper_id top_k section_filter
          embedding_provider embedding_model) s).1 = Ok results →
  ∃ query_embedding w raw,
    embed_text embedding_provider embedding_model query_text (world s)
    = (Returned query_embedding, w)
    ∧ (milvus_search query_embedding
         (match filter_given section_filter with
          | [] => top_k
          | _ :: _ => top_k * 2
          end) paper_id w).1 = Returned raw
    ∧ results
      = match filter_given section_filter, raw with
        | _ :: _, _ :: _ =>
            let section_filter_lower :=
              str_lower <$> filter_given section_filter in
            let filtered_results :=
              filter_sections section_filter_lower top_k raw [] in
            slice_to top_k
              (if Z.of_nat (length filtered_results) <? top_k
               then fill_unfiltered top_k raw filtered_results
               else filtered_results)
        | _, _ => slice_to top_k raw
        end.
Proof.
  unfold run, search_similar_chunks.
  erewrite run_bind_ok; [|reflexivity]. rewrite run_bind, run_ask. simpl.
  destruct (embed_text _ _ _ (world s)) as [[query_embedding|e] w] eqn:Hembed;
    simpl; [|done].
  rewrite run_bind, run_ask. simpl.
  destruct (milvus_search _ _ _ w) as [[raw|e] w'] eqn:Hsearch; simpl; [|done].
  intros Hrun. exists query_embedding, w, raw. split; [done|].
  split; [by rewrite Hsearch|]. clear Hsearch.
  destruct (filter_given section_filter), raw; simpl in *; congruence.
Qed.

(** X15. A similarity search asks Milvus once, for [top_k] results, or for
    twice as many when a section filter is given, and returns only results
    that Milvus found: at most [top_k] of them, and without a filter the
    first ones, in the order of Milvus. *)
Theorem similarity_search_returns_what_milvus_found query_text paper_id top_k
    section_filter embedding_provider embedding_model (s : State) results :
  (run (search_similar_chunks query_text paper_id top_k section_filter
          embedding_provider embedding_model) s).1 = Ok results →
  0 ≤ top_k →
  ∃ query_embedding w raw,
    embed_text embedding_provider embedding_model query_text (world s)
    = (Returned query_embedding, w)
    ∧ (milvus_search query_embedding
         (if decide (filter_given section_filter = []) then top_k
          else top_k * 2) paper_id w).1 = Returned raw
    ∧ (∀ r, r ∈ results → r ∈ raw)
    ∧ Z.of_nat (length results) ≤ top_k
    ∧ (filter_given section_filter = [] →
       results = take (Z.to_nat top_k) raw).
Proof.
  intros Hrun Hk.
  apply run_search_similar_chunks in Hrun
    as (query_embedding & w & raw & Hembed & Hsearch & ->).
  exists query_embedding, w, raw. split; [done|]. split.
  { by destruct (filter_given section_filter). }
  assert (∀ l : list SearchResult, slice_to top_k l = take (Z.to_nat top_k) l)
    as Hslice.
  { intros l. unfold slice_to. by rewrite (proj2 (Z.leb_le 0 top_k)). }
  split_and!.
  - intros r Hr.
    destruct (filter_given section_filter) as [|f fs], raw as [|r0 raw];
      try (by apply slice_to_subset in Hr).
    apply slice_to_subset in Hr. cbv zeta in Hr.
    destruct (_ <? top_k).
    + apply fill_unfiltered_subset in Hr as [Hr|Hr]; [|done].
      apply filter_sections_subset in Hr as [Hr|Hr]; [|done].
      by apply elem_of_nil in Hr.
    + apply filter_sections_subset in Hr as [Hr|Hr]; [|done].
      by apply elem_of_nil in Hr.
  - destruct (filter_given section_filter) as [|f fs], raw as [|r0 raw];
      cbv zeta; rewrite Hslice, length_take; lia.
  - intros ->. rewrite Hslice. by destruct raw.
Qed.

(** ** The calls of an exchange *)

Lemma round_trace_length r : round_trace r → (length r ≤ 4)%nat.
Proof.
  intros [(searched & -> & Hlen)|(verdict & searched & -> & Hlen)];
    rewrite length_app, length_fmap; simpl; lia.
Qed.

Lemma rounds_trace_length rounds :
  rounds_trace rounds → (length (concat rounds) ≤ 4 * length rounds)%nat.
Proof.
  induction rounds as [|r rounds IH]; [done|].
  destruct rounds as [|r' rounds].
  - intros Hr%round_trace_length. simpl in *. rewrite app_nil_r. lia.
  - intros [(verdict & _ & Hr) Hrest].
    assert (round_trace r) as Hr'%round_trace_length
      by (right; by exists (Some verdict)).
    specialize (IH Hrest). cbn [concat length] in *. rewrite length_app. lia.
Qed.

Lemma intent_phase_calls paper_id question provider session (s : State) :
  (intent_phase paper_id question provider session s).1 ≠ OutOfFuel
  ∧ calls (intent_phase paper_id question provider session s).2
    = calls s ++ [IntentCall].
Proof.
  unfold intent_phase.
  erewrite run_bind_ok; [|apply run_yield].
  erewrite run_bind_ok; [|apply run_get_section_titles].
  erewrite run_bind_ok; [|reflexivity].
  rewrite run_bind.
  match goal with
  | |- context [analyze ?q ?t ?h ?p ?st] =>
      destruct (silent_analyze q t h p st)
        as (evs & cs & (_ & _ & Hcalls) & Ho & _ & ->);
      destruct (analyze q t h p st) as [[intent_result|e|] s1]
  end; simpl in *; [| |done].
  - by rewrite Hcalls, app_nil_r.
  - by rewrite Hcalls, app_nil_r.
Qed.

Lemma exchange_calls paper_id question session_id provider session
    (s : State) :
  ∃ rounds synthesis,
    calls (exchange paper_id question session_id provider session s).2
    = calls s ++ IntentCall :: concat rounds ++ synthesis
    ∧ rounds_trace rounds
    ∧ Z.of_nat (length rounds) ≤ Z.max 0 max_retrieval_rounds
    ∧ (synthesis = [] ∨ synthesis = [SynthesisCall]).
Proof.
  unfold exchange. rewrite run_bind.
  destruct (intent_phase_calls paper_id question provider session s)
    as (Ho1 & Hc1).
  destruct (intent_phase _ _ _ _ s) as [[intent_result|e|] s1];
    simpl in *; [| |done].
  2:{ exists [], []. rewrite Hc1.
      split_and!; [done|done|simpl; lia|by left]. }
  rewrite run_bind.
  destruct (traces_retrieval_loop (Z.to_nat max_retrieval_rounds) paper_id
              question provider intent_result initial_vars
              ltac:(simpl; lia) s1)
    as (e2 & c2 & (_ & _ & Hc2) & _ & Ho2 & rounds & -> & Hrounds & Hlen & _).
  simpl in Hlen. rewrite Z.sub_0_r in Hlen.
  destruct (retrieval_loop _ _ _ _ _ _ s1) as [[v|e|] s2];
    simpl in *; [| |done].
  2:{ exists rounds, []. rewrite Hc2, Hc1, app_nil_r, <- app_assoc.
      split_and!; try done. by left. }
  rewrite run_bind.
  destruct (traces_synthesize question provider session (all_results v) s2)
    as (e3 & c3 & (_ & _ & Hc3) & Ho3 & increments & _ & _ & Hsyn).
  assert (c3 = [] ∨ c3 = [SynthesisCall]) as Hc3'.
  { destruct (all_results v); [|done]. destruct Hsyn as (_ & _ & ->).
    by left. }
  assert (calls (synthesize question provider session (all_results v) s2).2
          = calls s ++ IntentCall :: concat rounds ++ c3) as Hcalls.
  { by rewrite Hc3, Hc2, Hc1, <- !app_assoc. }
  destruct (synthesize _ _ _ _ s2) as [[answer|e|] s3];
    simpl in *; [| |done].
  2:{ by exists rounds, c3. }
  destruct (run_commit question answer session_id (all_results v) s3)
    as (t1 & t2 & w & Hrun). unfold run in Hrun. rewrite Hrun. simpl.
  by exists rounds, c3.
Qed.

(** X17. The calls of a call of [chat_stream]: none when the session is
    refused, that is when no session is stored under the id or the session
    is for another paper; otherwise one intent analysis, then the rounds of
    the loop, at most [max_retrieval_rounds] of at most three searches and
    one evaluation each, then at most one synthesis.  So an exchange makes
    at most [2 + 4 * max_retrieval_rounds] calls. *)
Theorem exchange_call_budget paper_id question session_id provider
    (s : State) :
  let r := run (chat_stream paper_id question session_id provider) s in
  let sid := (resolved paper_id session_id s).1 in
  let store := (resolved paper_id session_id s).2 in
  ∃ made,
    calls r.2 = calls s ++ made
    ∧ match store !! sid with
      | Some session =>
          if decide (h_paper_id session = paper_id) then
            ∃ rounds synthesis,
              made = IntentCall :: concat rounds ++ synthesis
              ∧ rounds_trace rounds
              ∧ Z.of_nat (length rounds) ≤ Z.max 0 max_retrieval_rounds
              ∧ (synthesis = [] ∨ synthesis = [SynthesisCall])
          else made = []
      | None => made = []
      end
    ∧ Z.of_nat (length made) ≤ 2 + 4 * Z.max 0 max_retrieval_rounds.
Proof.
  intros r sid store. subst r sid store.
  assert (∀ (sid : pystr) (s1 : State),
            calls s1 = calls s →
            ∃ made,
              calls ((session ← get_session sid;
                      match session with
                      | Some session =>
                          if decide (h_paper_id session ≠ paper_id) then
                            yield_ (event (u "error")
                                      (u "会话无效或论文不匹配"))
                          else
                            catch (exchange paper_id question sid provider
                                     session)
                                  (λ e, yield_ (event (u "error")
                                                  (exc_str e)))
                      | None => yield_ (event (u "error")
                                          (u "会话无效或论文不匹配"))
                      end) s1).2 = calls s ++ made
              ∧ match sessions s1 !! sid with
                | Some session =>
                    if decide (h_paper_id session = paper_id) then
                      ∃ rounds synthesis,
                        made = IntentCall :: concat rounds ++ synthesis
                        ∧ rounds_trace rounds
                        ∧ Z.of_nat (length rounds)
                          ≤ Z.max 0 max_retrieval_rounds
                        ∧ (synthesis = [] ∨ synthesis = [SynthesisCall])
                    else made = []
                | None => made = []
                end
              ∧ Z.of_nat (length made)
                ≤ 2 + 4 * Z.max 0 max_retrieval_rounds) as Hresolved.
  { intros sid s1 Hs1. rewrite run_bind.
    cbv [get_session get_sessions mbind M_bind mret M_ret].
    destruct (sessions s1 !! sid) as [session|].
    2:{ exists []. rewrite app_nil_r. split_and!; [done|done|simpl; lia]. }
    destruct (decide (h_paper_id session ≠ paper_id)) as [Hne|Heq].
    { exists []. rewrite app_nil_r, decide_False by done.
      split_and!; [done|done|simpl; lia]. }
    assert (h_paper_id session = paper_id) as Hpaper
      by (destruct (decide (h_paper_id session = paper_id));
          [done|by destruct Heq]).
    unfold catch.
    destruct (exchange_calls paper_id question sid provider session s1)
      as (rounds & synthesis & Hcalls & Hrounds & Hlen & Hsyn).
    exists (IntentCall :: concat rounds ++ synthesis).
    assert (Z.of_nat (length (IntentCall :: concat rounds ++ synthesis))
            ≤ 2 + 4 * Z.max 0 max_retrieval_rounds) as Hbudget.
    { apply rounds_trace_length in Hrounds. simpl. rewrite length_app.
      destruct Hsyn as [-> | ->]; simpl; lia. }
    rewrite decide_True by done.
    destruct (exchange paper_id question sid provider session s1)
      as [[[]|e|] s2]; simpl in *; rewrite Hcalls, Hs1;
      (split_and!; [done|by exists rounds, synthesis|done]). }
  unfold run, chat_stream. destruct session_id as [[|c sid]|].
  2:{ by apply Hresolved. }
  all: rewrite run_bind, run_create_session, ?resolved_empty;
    rewrite resolved_created;
    exact (Hresolved _ {| world := _; sessions := _; events := _;
                          calls := _ |} eq_refl).
Qed.

(** ** The endpoints of the agent *)

Lemma run_get_agent_history session_id (s : State) :
  run (get_agent_history session_id) s
  = (Ok match sessions s !! session_id with
        | Some h => Http200 (session_id, messages h)
        | None => HTTPException 404 (u "Agent 会话不存在")
        end, s).
Proof.
  unfold run, get_agent_history, get_history, get_session, get_sessions.
  cbv [mbind M_bind mret M_ret]. by destruct (sessions s !! session_id).
Qed.

Lemma run_clear_session session_id (s : State) :
  clear_session session_id s
  = (Ok (), {| world := world s; sessions := delete session_id (sessions s);
               events := events s; calls := calls s |}).
Proof.
  unfold clear_session, get_sessions, set_sessions.
  cbv [mbind M_bind mret M_ret].
  destruct (decide (is_Some (sessions s !! session_id))) as [Hin|Hout];
    [done|].
  apply eq_None_not_Some in Hout. rewrite delete_id by done. by destruct s.
Qed.

(** X18. The life of a session through the endpoints: the session that
    [create_agent_session] answers with has an empty history for
    [get_agent_history]; once [delete_agent_session] has been called for it,
    [get_agent_history] answers 404, and when the id was not in use before,
    the store is as it was before the creation.  [get_agent_history] answers
    404 for exactly the ids without a session, and changes nothing. *)
Theorem agent_session_endpoints paper_id (s : State) :
  let created := run (create_agent_session paper_id) s in
  (∃ session_id,
     created.1 = Ok (session_id, paper_id, u "Agent 会话创建成功")
     ∧ run (get_agent_history session_id) created.2
       = (Ok (Http200 (session_id, [])), created.2)
     ∧ let deleted := run (delete_agent_session session_id) created.2 in
       deleted.1 = Ok (u "Agent 会话已删除", session_id)
       ∧ run (get_agent_history session_id) deleted.2
         = (Ok (HTTPException 404 (u "Agent 会话不存在")), deleted.2)
       ∧ (sessions s !! session_id = None →
          sessions deleted.2 = sessions s))
  ∧ ∀ session_id,
      (run (get_agent_history session_id) s).2 = s
      ∧ (sessions s !! session_id = None ↔
         (run (get_agent_history session_id) s).1
         = Ok (HTTPException 404 (u "Agent 会话不存在"))).
Proof.
  intros created. subst created. split.
  - exists (uuid4 (world s)).1.
    unfold run, create_agent_session, delete_agent_session.
    rewrite !run_bind, run_create_session. simpl.
    rewrite run_clear_session. simpl.
    pose proof run_get_agent_history as Hget. unfold run in Hget.
    rewrite !Hget. simpl. unfold resolved.
    destruct (uuid4 (world s)) as [sid w]. simpl.
    rewrite lookup_insert_eq, lookup_delete_eq. simpl.
    split_and!; try done. intros Hfresh.
    by rewrite delete_insert_eq, delete_id.
  - intros session_id. rewrite run_get_agent_history. simpl.
    split; [done|]. by destruct (sessions s !! session_id).
Qed.

(** X19. The generator of the streaming endpoint yields one frame for each
    event of [chat_stream], in the order of the events, and nothing else:
    [chat_stream] never raises, so that the error frame of the generator
    itself is never sent.  The last frame is that of a [done] or [error]
    event, and no frame before it is. *)
Theorem generate_frames_the_stream (json_dumps : pystr → Content → pystr)
    paper_id request (s : State) :
  let r := run (chat_stream paper_id (message request)
                  (request_session_id request)
                  (LLMProvider_value <$> request_provider request)) s in
  (generate json_dumps paper_id request s).2 = r.2
  ∧ (generate json_dumps paper_id request s).1
    = (λ ev, sse_frame json_dumps (type ev) (content ev))
        <$> new_events s r.2
  ∧ ∃ body final_event,
      new_events s r.2 = body ++ [final_event]
      ∧ terminal_event final_event
      ∧ Forall (λ ev, ¬ terminal_event ev) body
      ∧ (generate json_dumps paper_id request s).1
        = ((λ ev, sse_frame json_dumps (type ev) (content ev)) <$> body)
          ++ [sse_frame json_dumps (type final_event) (content final_event)].
Proof.
  intros r. subst r. unfold generate.
  destruct (chat_stream_run paper_id (message request)
              (request_session_id request)
              (LLMProvider_value <$> request_provider request) s)
    as (Hok & pre & increments & Hpre & Hcases).
  rewrite Hok. cbn [fst snd]. rewrite app_nil_r.
  split; [done|]. split; [done|].
  destruct Hcases as [(final & t1 & t2 & _ & _ & Hev & _)|(msg & Hev & _)].
  - exists (pre ++ (content_event <$> increments)
            ++ [sources_event (source_entry <$> take 5 final)]), done_event.
    assert (new_events s
              (run (chat_stream paper_id (message request)
                      (request_session_id request)
                      (LLMProvider_value <$> request_provider request)) s).2
            = (pre ++ (content_event <$> increments)
               ++ [sources_event (source_entry <$> take 5 final)])
              ++ [done_event]) as ->.
    { apply new_events_app. rewrite Hev. by rewrite <- !app_assoc. }
    split_and!; [done|by left| |by rewrite fmap_app].
    apply body_not_terminal; [done|]. constructor; [|constructor].
    apply sources_not_terminal.
  - exists (pre ++ (content_event <$> increments)), (error_event msg).
    assert (new_events s
              (run (chat_stream paper_id (message request)
                      (request_session_id request)
                      (LLMProvider_value <$> request_provider request)) s).2
            = (pre ++ (content_event <$> increments))
              ++ [error_event msg]) as ->.
    { apply new_events_app. rewrite Hev. by rewrite <- !app_assoc. }
    split_and!; [done|by right| |by rewrite fmap_app].
    rewrite <- (app_nil_r (content_event <$> increments)).
    apply body_not_terminal; [done|constructor].
Qed.

(** ** Replies that decode, but not to an object *)

(** X20. A reply that decodes to JSON that is not an object is not a
    parse failure: neither [analyze] nor [evaluate] falls back to its
    default, both raise the [AttributeError] of the missing [get], which
    ends the exchange. *)
Theorem non_object_reply_raises question section_titles conversation_history
    retrieved_content provider (s : State) result parsed :
  json_loads (strip_code_fence result) = Returned parsed →
  (∀ kvs, parsed ≠ JObj kvs) →
  ((llm_chat (intent_request question section_titles conversation_history
                provider) (world s)).1 = Returned result →
   (run (analyze question section_titles conversation_history provider)
      s).1 = Raise (AttributeError parsed (u "get")))
  ∧ ((llm_chat (evaluation_request question retrieved_content provider)
        (world s)).1 = Returned result →
     (run (evaluate question retrieved_content provider) s).1
     = Raise (AttributeError parsed (u "get"))).
Proof.
  intros Hjson Hparsed. split; intros Hchat.
  - unfold run, analyze, attempt, catch.
    cbv [mbind M_bind mret M_ret]. rewrite run_ask, Hchat. simpl.
    rewrite Hjson. destruct parsed; try done. by destruct (Hparsed kvs).
  - unfold run, evaluate, attempt, catch.
    cbv [mbind M_bind mret M_ret]. rewrite run_ask, Hchat. simpl.
    rewrite Hjson. destruct parsed; try done. by destruct (Hparsed kvs).
Qed.

(** ** A configuration without rounds *)

(** X21. With [agent_max_retrieval_rounds] at zero or below, the loop is
    not entered: after the intent analysis the exchange searches nothing,
    answers with the canned answer, lists no source and stores the turn:
    what is stored under the session id afterwards is the session with its
    messages followed by the question, as a user message, and the canned
    answer, as an assistant message, cut to the last 20.  The intent
    analysis is its only call. *)
Theorem no_rounds_no_search paper_id question session_id provider session
    (s s1 : State) intent_result :
  max_retrieval_rounds ≤ 0 →
  sessions s !! session_id = Some session →
  run (intent_phase paper_id question provider session) s
  = (Ok intent_result, s1) →
  ∃ t1 t2 w,
    run (exchange paper_id question session_id provider session) s
    = (Ok (),
       {| world := w;
          sessions :=
            <[session_id :=
                {| h_session_id := h_session_id session;
                   h_paper_id := h_paper_id session;
                   messages :=
                     lastn 20
                       (messages session
                        ++ [{| role := u "user"; msg_content := question;
                               timestamp := t1 |};
                            {| role := u "assistant";
                               msg_content := NOT_FOUND_ANSWER;
                               timestamp := t2 |}]);
                   h_created_at := h_created_at session |}]> (sessions s);
          events := events s1
                    ++ [content_event NOT_FOUND_ANSWER; sources_event [];
                        done_event];
          calls := calls s ++ [IntentCall] |}).
Proof.
  intros Hmax Hsession Hintent.
  destruct (intent_phase_calls paper_id question provider session s)
    as (_ & Hcalls).
  destruct (traces_intent_phase paper_id question provider session s)
    as (e1 & c1 & (Hsessions & _ & _) & _).
  unfold run in *. rewrite Hintent in Hcalls, Hsessions.
  simpl in Hcalls, Hsessions.
  destruct (run_commit question NOT_FOUND_ANSWER session_id []
              {| world := world s1; sessions := sessions s1;
                 events := events s1 ++ [content_event NOT_FOUND_ANSWER];
                 calls := calls s1 |})
    as (t1 & t2 & w & Hcommit).
  exists t1, t2, w. unfold exchange.
  erewrite run_bind_ok; [|exact Hintent].
  erewrite run_bind_ok.
  2:{ replace (Z.to_nat max_retrieval_rounds) with 0%nat by lia.
      cbn [retrieval_loop]. simpl (current_round initial_vars).
      rewrite (proj2 (Z.ltb_ge 0 max_retrieval_rounds)) by lia.
      reflexivity. }
  erewrite run_bind_ok;
    [|unfold synthesize; simpl;
      erewrite run_bind_ok; [|apply run_yield]; reflexivity].
  etrans; [exact Hcommit|]. cbn [sessions events calls].
  rewrite Hcalls, Hsessions.
  rewrite (committed_stored _ _ _ _ _ _ session Hsession).
  by rewrite <- !app_assoc.
Qed.

End Further.

(** ** The further properties at concrete inputs *)

(** A session created in the empty store. *)
Lemma created_session_is_empty_witness :
  u "other" ≠ (uuid4 (world (start world_down))).1
  ∧ let r := run (create_session the_paper) (start world_down) in
    r.1 = Ok (uuid4 (world (start world_down))).1
    ∧ (run (get_history (uuid4 (world (start world_down))).1) r.2).1
      = Ok (Some [])
    ∧ (∃ h, sessions r.2 !! (uuid4 (world (start world_down))).1 = Some h
            ∧ h_paper_id h = the_paper
            ∧ h_session_id h = (uuid4 (world (start world_down))).1)
    ∧ sessions r.2 !! u "other" = sessions (start world_down) !! u "other"
    ∧ events r.2 = events (start world_down).
Proof.
  assert (u "other" ≠ (uuid4 (world (start world_down))).1) as Hk
    by (vm_compute; discriminate).
  split; [exact Hk|].
  exact (created_session_is_empty the_paper (start world_down) (u "other") Hk).
Defined.

(** The one session of a store, cleared. *)
Lemma cleared_session_is_gone_witness :
  u "s2" ≠ u "s1"
  ∧ let r := run (clear_session (u "s1")) (in_session world_down) in
    r.1 = Ok ()
    ∧ (run (get_history (u "s1")) r.2).1 = Ok None
    ∧ sessions r.2 !! u "s2" = sessions (in_session world_down) !! u "s2"
    ∧ (sessions (in_session world_down) !! u "s1" = None →
       r.2 = in_session world_down)
    ∧ run (clear_session (u "s1")) r.2 = (Ok (), r.2).
Proof.
  assert (u "s2" ≠ u "s1") as Hk by (vm_compute; discriminate).
  split; [exact Hk|].
  exact (cleared_session_is_gone (u "s1") (in_session world_down) (u "s2") Hk).
Defined.

(** A session of another paper. *)
Lemma invalid_session_is_refused_witness :
  u "s1" ≠ []
  ∧ (sessions (in_session world_down) !! u "s1" = None
     ∨ ∃ h, sessions (in_session world_down) !! u "s1" = Some h
            ∧ h_paper_id h ≠ u "p2")
  ∧ run (chat_stream (u "p2") the_question (Some (u "s1")) None)
        (in_session world_down)
    = (Ok (),
       {| world := world (in_session world_down);
          sessions := sessions (in_session world_down);
          events := events (in_session world_down)
                    ++ [error_event (u "会话无效或论文不匹配")];
          calls := calls (in_session world_down) |}).
Proof.
  assert (u "s1" ≠ []) as Hne by (vm_compute; discriminate).
  assert (sessions (in_session world_down) !! u "s1" = None
          ∨ ∃ h, sessions (in_session world_down) !! u "s1" = Some h
                 ∧ h_paper_id h ≠ u "p2") as Hbad.
  { right. exists the_session. split; [vm_compute; reflexivity|].
    vm_compute. discriminate. }
  split; [exact Hne|]. split; [exact Hbad|].
  exact (invalid_session_is_refused (u "p2") the_question (u "s1") None
           (in_session world_down) Hne Hbad).
Defined.

(** The store with the one empty session, across the answering exchange. *)
Lemma chat_stream_keeps_histories_bounded_witness :
  histories_bounded (sessions (in_session world_answering))
  ∧ histories_bounded
      (sessions (run (chat_stream the_paper the_question (Some (u "s1"))
                        None) (in_session world_answering)).2).
Proof.
  assert (histories_bounded (sessions (in_session world_answering))) as Hb.
  { intros k h Hk. simpl in Hk.
    apply lookup_singleton_Some in Hk as [_ <-]. simpl. lia. }
  split; [exact Hb|].
  exact (chat_stream_keeps_histories_bounded the_paper the_question
           (Some (u "s1")) None (in_session world_answering) Hb).
Defined.

(** A reply that names the category [Method]. *)
Lemma analyze_reads_the_category_witness :
  llm_chat (@intent_request reading_runtime _ the_question [] [] None)
    (world (start world_category))
  = (Returned reply_category, world_down)
  ∧ json_loads (Runtime:=reading_runtime) (strip_code_fence reply_category)
    = Returned (JObj [(u "category", JStr (u "Method"))])
  ∧ dict_get [(u "category", JStr (u "Method"))] (u "category")
    = Some (JStr (u "Method"))
  ∧ ∃ c,
      (run (@analyze Script _ reading_runtime _ the_question [] [] None)
         (start world_category)).1
      = Ok {| category := c; target_sections := []; keywords := [];
              intent_reasoning := [] |}
      ∧ (∀ c', str_lower (Runtime:=reading_runtime) (u "Method")
               = IntentCategory_value c' → c = c')
      ∧ ((∀ c', str_lower (Runtime:=reading_runtime) (u "Method")
                ≠ IntentCategory_value c') → c = GENERAL).
Proof.
  assert (llm_chat (@intent_request reading_runtime _ the_question [] [] None)
            (world (start world_category))
          = (Returned reply_category, world_down)) as Hchat
    by (vm_compute; reflexivity).
  assert (json_loads (Runtime:=reading_runtime)
            (strip_code_fence reply_category)
          = Returned (JObj [(u "category", JStr (u "Method"))])) as Hjson
    by (vm_compute; reflexivity).
  assert (dict_get [(u "category", JStr (u "Method"))] (u "category")
          = Some (JStr (u "Method"))) as Hcat
    by (vm_compute; reflexivity).
  split; [exact Hchat|]. split; [exact Hjson|]. split; [exact Hcat|].
  exact (@analyze_reads_the_category Script _ reading_runtime _ the_question
           [] [] None (start world_category) reply_category world_down
           [(u "category", JStr (u "Method"))] (u "Method") [] [] []
           Hchat Hjson Hcat eq_refl eq_refl eq_refl).
Defined.

(** The loop variables after the first round of the answering world. *)
Lemma round_keywords_are_defined_witness :
  loop_reaches (World:=Script) the_paper the_question None one_keyword
    after_first_round
  ∧ ∃ search_keywords,
      round_keywords the_question one_keyword
        (current_round after_first_round + 1)
        (evaluation_result after_first_round) = Returned search_keywords
      ∧ (current_round after_first_round = 0 →
         search_keywords = keywords one_keyword)
      ∧ (current_round after_first_round ≠ 0 →
         search_keywords ≠ []
         ∧ ∃ verdict, evaluation_result after_first_round = Some verdict
             ∧ (suggested_keywords verdict = [] →
                search_keywords = [the_question])
             ∧ (suggested_keywords verdict ≠ [] →
                search_keywords = suggested_keywords verdict)).
Proof.
  assert (loop_reaches (World:=Script) the_paper the_question None
            one_keyword after_first_round) as Hreach.
  { apply (reaches_next the_paper the_question None one_keyword initial_vars
             (start world_answering) after_first_round).
    - apply reaches_initial.
    - vm_compute. reflexivity. }
  split; [exact Hreach|].
  exact (round_keywords_are_defined the_paper the_question None one_keyword
           after_first_round Hreach).
Defined.

(** The model is down when the intent is asked for. *)
Lemma intent_failure_is_reported_witness :
  u "s1" ≠ []
  ∧ sessions (in_session world_down) !! u "s1" = Some the_session
  ∧ h_paper_id the_session = the_paper
  ∧ (llm_chat
       (intent_request the_question
          (titles_before_intent the_paper (in_session world_down))
          (messages the_session) None)
       (world (before_intent the_paper (in_session world_down)))).1
    = Raised connection_refused
  ∧ exc_class connection_refused = OtherException
  ∧ let r := run (chat_stream the_paper the_question (Some (u "s1")) None)
                 (in_session world_down) in
    r.1 = Ok ()
    ∧ new_events (in_session world_down) r.2
      = [event (u "thinking") (u "正在分析问题意图...");
         error_event (exc_str connection_refused)]
    ∧ calls r.2 = calls (in_session world_down) ++ [IntentCall]
    ∧ sessions r.2 = sessions (in_session world_down).
Proof.
  assert (u "s1" ≠ []) as Hne by (vm_compute; discriminate).
  assert (sessions (in_session world_down) !! u "s1" = Some the_session)
    as Hsession by (vm_compute; reflexivity).
  assert (h_paper_id the_session = the_paper) as Hpaper by reflexivity.
  assert ((llm_chat
             (intent_request the_question
                (titles_before_intent the_paper (in_session world_down))
                (messages the_session) None)
             (world (before_intent the_paper (in_session world_down)))).1
          = Raised connection_refused) as Hchat by (vm_compute; reflexivity).
  assert (exc_class connection_refused = OtherException) as Hclass by reflexivity.
  split; [exact Hne|]. split; [exact Hsession|]. split; [exact Hpaper|].
  split; [exact Hchat|]. split; [exact Hclass|].
  exact (intent_failure_is_reported the_paper the_question (u "s1") None
           (in_session world_down) the_session connection_refused
           Hne Hsession Hpaper Hchat Hclass).
Defined.

(** An answer that breaks after its first increment. *)
Lemma broken_stream_keeps_its_chunks_witness :
  [hit "a" (1 # 2)] ≠ []
  ∧ _format_context [hit "a" (1 # 2)] = Returned broken_context
  ∧ (llm_chat_stream
       (answer_request the_question broken_context (messages the_session)
          None) (world (start world_broken_stream))).1
    = Returned {| chunks := [u "Hel"]; failure := Some stream_closed |}
  ∧ failure {| chunks := [u "Hel"]; failure := Some stream_closed |}
    = Some stream_closed
  ∧ let r := run (synthesize the_question None the_session
                    [hit "a" (1 # 2)]) (start world_broken_stream) in
    r.1 = Raise stream_closed
    ∧ new_events (start world_broken_stream) r.2
      = content_event
          <$> chunks {| chunks := [u "Hel"]; failure := Some stream_closed |}
    ∧ calls r.2 = calls (start world_broken_stream) ++ [SynthesisCall]
    ∧ sessions r.2 = sessions (start world_broken_stream).
Proof.
  assert ([hit "a" (1 # 2)] ≠ []) as Hne by discriminate.
  assert (_format_context [hit "a" (1 # 2)] = Returned broken_context)
    as Hcontext by (vm_compute; reflexivity).
  assert ((llm_chat_stream
             (answer_request the_question broken_context
                (messages the_session) None)
             (world (start world_broken_stream))).1
          = Returned {| chunks := [u "Hel"];
                        failure := Some stream_closed |}) as Hreply
    by (vm_compute; reflexivity).
  assert (failure {| chunks := [u "Hel"]; failure := Some stream_closed |}
          = Some stream_closed) as Hfailure by reflexivity.
  split; [exact Hne|]. split; [exact Hcontext|]. split; [exact Hreply|].
  split; [exact Hfailure|].
  exact (broken_stream_keeps_its_chunks the_question None the_session
           [hit "a" (1 # 2)] (start world_broken_stream) broken_context
           {| chunks := [u "Hel"]; failure := Some stream_closed |}
           stream_closed Hne Hcontext Hreply Hfailure).
Defined.

(** A fenced reply with a language tag, a space before and a newline after
    it. *)
Lemma strip_code_fence_unwraps_witness :
  Forall (λ c, isspace c = true) (u " ")
  ∧ Forall (λ c, isspace c = true) nl
  ∧ (10%N ∉ u "json")
  ∧ strip_code_fence (u " " ++ fenced (u "json") (u "{}") ++ nl)
    = strip (u "{}").
Proof.
  assert (Forall (λ c, isspace c = true) (u " ")) as Hpad1
    by (refine (bool_decide_unpack _ _); vm_compute; exact I).
  assert (Forall (λ c, isspace c = true) nl) as Hpad2
    by (refine (bool_decide_unpack _ _); vm_compute; exact I).
  assert (10%N ∉ u "json") as Hlang
    by (refine (bool_decide_unpack _ _); vm_compute; exact I).
  split; [exact Hpad1|]. split; [exact Hpad2|]. split; [exact Hlang|].
  exact (strip_code_fence_unwraps (u " ") (u "json") (u "{}") nl
           Hpad1 Hpad2 Hlang).
Defined.

(** A search without a filter, in the world of the four sections. *)
Lemma similarity_search_returns_what_milvus_found_witness :
  (run (search_similar_chunks (u "method") (Some the_paper) 3 None None None)
     (start world_sections)).1 = Ok (take 3 found_in_sections)
  ∧ 0 ≤ 3
  ∧ ∃ query_embedding w raw,
      embed_text None None (u "method") (world (start world_sections))
      = (Returned query_embedding, w)
      ∧ (milvus_search query_embedding
           (if decide (filter_given None = []) then 3 else 3 * 2)
           (Some the_paper) w).1 = Returned raw
      ∧ (∀ r, r ∈ take 3 found_in_sections → r ∈ raw)
      ∧ Z.of_nat (length (take 3 found_in_sections)) ≤ 3
      ∧ (filter_given None = [] →
         take 3 found_in_sections = take (Z.to_nat 3) raw).
Proof.
  assert ((run (search_similar_chunks (u "method") (Some the_paper) 3 None
                  None None) (start world_sections)).1
          = Ok (take 3 found_in_sections)) as Hrun
    by (vm_compute; reflexivity).
  assert (0 ≤ 3) as Hk by lia.
  split; [exact Hrun|]. split; [exact Hk|].
  exact (similarity_search_returns_what_milvus_found (u "method")
           (Some the_paper) 3 None None None (start world_sections)
           (take 3 found_in_sections) Hrun Hk).
Defined.

(** A reply that decodes to a list. *)
Lemma non_object_reply_raises_witness :
  json_loads (Runtime:=reading_runtime) (strip_code_fence reply_list)
  = Returned (JArr [JInt 1])
  ∧ (∀ kvs, JArr [JInt 1] ≠ JObj kvs)
  ∧ ((llm_chat (@intent_request reading_runtime _ the_question [] [] None)
        (world (start world_list))).1 = Returned reply_list →
     (run (@analyze Script _ reading_runtime _ the_question [] [] None)
        (start world_list)).1
     = Raise (AttributeError (JArr [JInt 1]) (u "get")))
  ∧ ((llm_chat (@evaluation_request reading_runtime _ the_question
                  (u "context") None) (world (start world_list))).1
     = Returned reply_list →
     (run (@evaluate Script _ reading_runtime _ the_question (u "context")
             None) (start world_list)).1
     = Raise (AttributeError (JArr [JInt 1]) (u "get"))).
Proof.
  assert (json_loads (Runtime:=reading_runtime) (strip_code_fence reply_list)
          = Returned (JArr [JInt 1])) as Hjson by (vm_compute; reflexivity).
  assert (∀ kvs, JArr [JInt 1] ≠ JObj kvs) as Hparsed
    by (intros kvs; discriminate).
  split; [exact Hjson|]. split; [exact Hparsed|].
  exact (@non_object_reply_raises Script _ reading_runtime _ the_question
           [] [] (u "context") None (start world_list) reply_list
           (JArr [JInt 1]) Hjson Hparsed).
Defined.

(** The world where nothing would be found, with no round allowed. *)
Lemma no_rounds_no_search_witness :
  @max_retrieval_rounds no_rounds ≤ 0
  ∧ sessions (in_session world_nothing_found) !! u "s1" = Some the_session
  ∧ no_rounds_intent
    = (Ok (value_of one_keyword no_rounds_intent), no_rounds_intent.2)
  ∧ ∃ t1 t2 w,
      run (@exchange Script _ _ no_rounds the_paper the_question (u "s1")
             None the_session) (in_session world_nothing_found)
      = (Ok (),
         {| world := w;
            sessions :=
              <[u "s1" :=
                  {| h_session_id := h_session_id the_session;
                     h_paper_id := h_paper_id the_session;
                     messages :=
                       lastn 20
                         (messages the_session
                          ++ [{| role := u "user";
                                 msg_content := the_question;
                                 timestamp := t1 |};
                              {| role := u "assistant";
                                 msg_content := NOT_FOUND_ANSWER;
                                 timestamp := t2 |}]);
                     h_created_at := h_created_at the_session |}]>
                (sessions (in_session world_nothing_found));
            events := events no_rounds_intent.2
                      ++ [content_event NOT_FOUND_ANSWER; sources_event [];
                          done_event];
            calls := calls (in_session world_nothing_found)
                     ++ [IntentCall] |}).
Proof.
  assert (@max_retrieval_rounds no_rounds ≤ 0) as Hmax
    by (vm_compute; discriminate).
  assert (sessions (in_session world_nothing_found) !! u "s1"
          = Some the_session) as Hsession by (vm_compute; reflexivity).
  assert (no_rounds_intent
          = (Ok (value_of one_keyword no_rounds_intent), no_rounds_intent.2))
    as Hintent by (vm_compute; reflexivity).
  split; [exact Hmax|]. split; [exact Hsession|]. split; [exact Hintent|].
  exact (@no_rounds_no_search Script _ _ no_rounds the_paper the_question
           (u "s1") None the_session (in_session world_nothing_found)
           no_rounds_intent.2 (value_of one_keyword no_rounds_intent)
           Hmax Hsession Hintent).
Defined.
